(** * BitMEX order-book reconstruction: a model of [cryptofeed/exchange/bitmex.py]

    The development embeds the stateful part of the [Bitmex] feed class
    ([_reset], [_book]) and its stateless normalizers ([_trade], [_ticker],
    [_funding], [_instrument]) as functions over an explicit object state,
    and proves the properties the design document lists for them.

    Conventions of the embedding.
    - Python dictionaries are [gmap]s.  A plain [dict] raises [KeyError] on
      a missing key; a [defaultdict] creates the default value on a missing
      key and stores it, which the model makes explicit.
    - [Decimal] values (prices, sizes) are finite decimal numbers; two
      [Decimal]s that are numerically equal are the same dictionary key, so
      they are modelled by canonical rationals [Qc].
    - A method is a function from the object state to an outcome: either it
      returns (with the callbacks it awaited, in order) or it raises, and in
      both cases the outcome carries the state as the method left it, since
      Python does not roll mutations back on an exception.
    - The constants of [cryptofeed.defines] and the methods inherited from
      [Feed] ([callback], [book_callback]) are outside this file of the
      repository; calls to them are recorded with their arguments. *)

From Stdlib Require Import QArith Qcanon.
From stdpp Require Import gmap strings list fin_maps countable numbers.

Local Open Scope Z_scope.
Local Open Scope string_scope.
Local Open Scope list_scope.

(** ** Data model *)

(** [BID] and [ASK] of [cryptofeed.defines], the two keys of a book. *)
Inductive Side := BID | ASK.

#[global] Instance Side_eq_dec : EqDecision Side.
Proof. solve_decision. Defined.

#[global] Instance Side_countable : Countable Side.
Proof.
  refine (inj_countable' (fun s => match s with BID => true | ASK => false end)
                         (fun b => if b : bool then BID else ASK) _).
  by intros [].
Defined.

Definition other_side (s : Side) : Side :=
  match s with BID => ASK | ASK => BID end.

(** [BUY] and [SELL] of [cryptofeed.defines]. *)
Inductive TradeSide := BUY | SELL.

(** Timestamps are Python floats that the handlers only pass along. *)
Abbreviation Time := Qc.

(** One side of a book: the [SortedDict] from price to size. *)
Abbreviation Levels := (gmap Qc Qc).

(** One side of the identifier index: order id to price. *)
Abbreviation Ids := (gmap Z Qc).

(** An element of [msg['data']] of an [orderBookL2] message.  The venue
    omits [price] on update and delete and [size] on delete; reading an
    absent key raises [KeyError]. *)
Record Data := mkData {
  data_symbol : string;
  data_id : Z;
  data_side : string;
  data_size : option Qc;
  data_price : option Qc
}.

(** A decoded [orderBookL2] message. *)
Record Msg := mkMsg {
  msg_action : string;
  msg_data : list Data
}.

(** The local [delta = {BID: [], ASK: []}] of [_book]. *)
Record Delta := mkDelta {
  delta_bid : list (Qc * Qc);
  delta_ask : list (Qc * Qc)
}.

Definition delta_get (d : Delta) (s : Side) : list (Qc * Qc) :=
  match s with BID => delta_bid d | ASK => delta_ask d end.

(** [delta[side].append(x)] *)
Definition delta_append (d : Delta) (s : Side) (x : Qc * Qc) : Delta :=
  match s with
  | BID => mkDelta (delta_bid d ++ [x]) (delta_ask d)
  | ASK => mkDelta (delta_bid d) (delta_ask d ++ [x])
  end.

(** The fields of a [Bitmex] object that the handlers read and write. *)
Record Bitmex := mkBitmex {
  pairs : list string;
  l2_book : gmap string (gmap Side Levels);
  partial_received : gmap string bool;
  order_id : gmap string (gmap Side Ids)
}.

Definition set_l2_book (v : gmap string (gmap Side Levels)) (self : Bitmex) : Bitmex :=
  mkBitmex (pairs self) v (partial_received self) (order_id self).

Definition set_partial_received (v : gmap string bool) (self : Bitmex) : Bitmex :=
  mkBitmex (pairs self) (l2_book self) v (order_id self).

Definition set_order_id (v : gmap string (gmap Side Ids)) (self : Bitmex) : Bitmex :=
  mkBitmex (pairs self) (l2_book self) (partial_received self) v.

(** What the design document calls GateState, Book and OrderIndex: the
    values a reader of the three dictionaries observes.  A key that a
    [defaultdict] does not hold yet reads as its default. *)
Definition gate (self : Bitmex) (pair : string) : bool :=
  default false (partial_received self !! pair).

Definition levels_of (self : Bitmex) (pair : string) (s : Side) : Levels :=
  default ∅ (l2_book self !! pair ≫= (.!! s)).

Definition index_of (self : Bitmex) (pair : string) (s : Side) : Ids :=
  default ∅ (order_id self !! pair ≫= (.!! s)).

(** The recorded calls to the callback boundary.  [book_callback] takes
    its arguments by position: book, book type, pair, forced, delta,
    timestamp, receipt timestamp. *)
Inductive Call :=
| book_callback (book : gmap Side Levels) (book_type : string) (pair : string)
    (forced : bool) (delta : Delta) (timestamp receipt_timestamp : Time)
| callback_trades (feed pair : string) (side : TradeSide) (amount price : Qc)
    (trade_id : string) (timestamp receipt_timestamp : Time)
| callback_ticker (feed pair : string) (bid ask : Qc)
    (timestamp receipt_timestamp : Time)
| callback_funding (feed pair : string) (timestamp receipt_timestamp : Time)
    (interval : string) (rate rate_daily : Qc)
| callback_open_interest (feed pair : string) (open_interest : Z)
    (timestamp receipt_timestamp : Time).

Definition call_timestamp (c : Call) : Time :=
  match c with
  | book_callback _ _ _ _ _ t _ => t
  | callback_trades _ _ _ _ _ _ t _ => t
  | callback_ticker _ _ _ _ t _ => t
  | callback_funding _ _ t _ _ _ _ => t
  | callback_open_interest _ _ _ t _ => t
  end.

Definition call_receipt_timestamp (c : Call) : Time :=
  match c with
  | book_callback _ _ _ _ _ _ r => r
  | callback_trades _ _ _ _ _ _ _ r => r
  | callback_ticker _ _ _ _ _ r => r
  | callback_funding _ _ _ r _ _ _ => r
  | callback_open_interest _ _ _ _ r => r
  end.

(** A whole number read as a [Decimal]. *)
Definition dec (z : Z) : Qc := Qc_of_Z z.

Definition BITMEX : string := "BITMEX".
Definition L2_BOOK : string := "l2_book".

(** ** Methods as state transformers that may raise *)

Inductive exn := KeyError | IndexError.

Inductive Res (A : Type) :=
| Ok (a : A) (self : Bitmex)
| Raise (e : exn) (self : Bitmex).
Arguments Ok {A} a self.
Arguments Raise {A} e self.

Definition M (A : Type) : Type := Bitmex → Res A.

Definition ret {A} (a : A) : M A := fun self => Ok a self.

Definition bind {A B} (m : M A) (k : A → M B) : M B :=
  fun self =>
    match m self with
    | Ok a self' => k a self'
    | Raise e self' => Raise e self'
    end.

Definition raise {A} (e : exn) : M A := fun self => Raise e self.

Notation "'do' x <- m ; k" := (bind m (fun x => k))
  (at level 10, x name, m at level 99, k at level 200).
Notation "m ;; k" := (bind m (fun _ => k))
  (at level 100, k at level 200, right associativity).

(** The state an outcome leaves behind, and the callbacks it delivered. *)
Definition state_of {A} (r : Res A) : Bitmex :=
  match r with Ok _ s => s | Raise _ s => s end.

Definition calls_of (r : Res (list Call)) : list Call :=
  match r with Ok cs _ => cs | Raise _ _ => [] end.

(** [for x in l: acc = body(x, acc)] *)
Fixpoint for_each {A S} (body : A → S → M S) (l : list A) (acc : S) : M S :=
  match l with
  | [] => ret acc
  | x :: l' => do acc' <- body x acc; for_each body l' acc'
  end.

(** [d[key]] on a decoded record: [KeyError] when the key is absent. *)
Definition field {A} (o : option A) : M A :=
  match o with Some a => ret a | None => raise KeyError end.

(** [self.partial_received[pair]]: a [defaultdict(bool)] read stores
    [False] under a key it does not hold. *)
Definition partial_received_get (pair : string) : M bool := fun self =>
  match partial_received self !! pair with
  | Some b => Ok b self
  | None => Ok false (set_partial_received (<[pair := false]> (partial_received self)) self)
  end.

(** [self.partial_received[pair] = b] *)
Definition partial_received_set (pair : string) (b : bool) : M unit := fun self =>
  Ok tt (set_partial_received (<[pair := b]> (partial_received self)) self).

(** [self.l2_book[pair][side][price] = size]: both outer reads are on
    plain dictionaries. *)
Definition level_set (pair : string) (s : Side) (price size : Qc) : M unit := fun self =>
  match l2_book self !! pair with
  | None => Raise KeyError self
  | Some book =>
    match book !! s with
    | None => Raise KeyError self
    | Some levels =>
      Ok tt (set_l2_book (<[pair := <[s := <[price := size]> levels]> book]> (l2_book self)) self)
    end
  end.

(** [del self.l2_book[pair][side][price]] *)
Definition level_del (pair : string) (s : Side) (price : Qc) : M unit := fun self =>
  match l2_book self !! pair with
  | None => Raise KeyError self
  | Some book =>
    match book !! s with
    | None => Raise KeyError self
    | Some levels =>
      match levels !! price with
      | None => Raise KeyError self
      | Some _ =>
        Ok tt (set_l2_book (<[pair := <[s := delete price levels]> book]> (l2_book self)) self)
      end
    end
  end.

(** [self.order_id[pair][side]]: [order_id] is a plain dictionary whose
    values are [defaultdict(dict)], so the read of [side] stores an empty
    dictionary when the side has none yet. *)
Definition index_side (pair : string) (s : Side) : M Ids := fun self =>
  match order_id self !! pair with
  | None => Raise KeyError self
  | Some sides =>
    match sides !! s with
    | Some ids => Ok ids self
    | None => Ok ∅ (set_order_id (<[pair := <[s := ∅]> sides]> (order_id self)) self)
    end
  end.

(** Write back the dictionary that [index_side] returned, after an
    in-place change to it. *)
Definition index_side_store (pair : string) (s : Side) (ids : Ids) : M unit := fun self =>
  match order_id self !! pair with
  | None => Raise KeyError self
  | Some sides => Ok tt (set_order_id (<[pair := <[s := ids]> sides]> (order_id self)) self)
  end.

(** [self.order_id[pair][side][order_id] = price] *)
Definition index_set (pair : string) (s : Side) (oid : Z) (price : Qc) : M unit :=
  do ids <- index_side pair s;
  index_side_store pair s (<[oid := price]> ids).

(** [self.order_id[pair][side][order_id]] *)
Definition index_get (pair : string) (s : Side) (oid : Z) : M Qc :=
  do ids <- index_side pair s;
  field (ids !! oid).

(** [del self.order_id[pair][side][order_id]] *)
Definition index_del (pair : string) (s : Side) (oid : Z) : M unit :=
  do ids <- index_side pair s;
  match ids !! oid with
  | None => raise KeyError
  | Some _ => index_side_store pair s (delete oid ids)
  end.

(** [BID if data['side'] == 'Buy' else ASK] *)
Definition side_of (data : Data) : Side :=
  if String.eqb (data_side data) "Buy" then BID else ASK.

(** ** [Bitmex._reset] *)

Definition new_book : gmap Side Levels := <[ASK := ∅]> (<[BID := ∅]> ∅).

Definition _reset_pair (self : Bitmex) (pair : string) : Bitmex :=
  set_order_id (<[pair := ∅]> (order_id self))
    (set_l2_book (<[pair := new_book]> (l2_book self)) self).

Definition _reset (self : Bitmex) : Bitmex :=
  foldl _reset_pair
    (set_order_id ∅ (set_partial_received ∅ self))
    (pairs self).

(** ** [Bitmex._book] *)

(** The bodies of the four loops: one entry of [msg['data']]. *)
Definition partial_data (pair : string) (data : Data) (delta : Delta) : M Delta :=
  let s := side_of data in
  do price <- field (data_price data);
  do size <- field (data_size data);
  let oid := data_id data in
  level_set pair s price size ;;
  index_set pair s oid price ;;
  ret delta.

Definition insert_data (pair : string) (data : Data) (delta : Delta) : M Delta :=
  let s := side_of data in
  do price <- field (data_price data);
  do size <- field (data_size data);
  let oid := data_id data in
  level_set pair s price size ;;
  index_set pair s oid price ;;
  ret (delta_append delta s (price, size)).

Definition update_data (pair : string) (data : Data) (delta : Delta) : M Delta :=
  let s := side_of data in
  do update_size <- field (data_size data);
  let oid := data_id data in
  do price <- index_get pair s oid;
  level_set pair s price update_size ;;
  index_set pair s oid price ;;
  ret (delta_append delta s (price, update_size)).

Definition delete_data (pair : string) (data : Data) (delta : Delta) : M Delta :=
  let s := side_of data in
  let oid := data_id data in
  do delete_price <- index_get pair s oid;
  index_del pair s oid ;;
  level_del pair s delete_price ;;
  ret (delta_append delta s (delete_price, dec 0)).

(** The final [await self.book_callback(self.l2_book[pair], L2_BOOK, pair,
    forced, delta, timestamp, timestamp)]. *)
Definition deliver_book (pair : string) (forced : bool) (timestamp : Time)
    (delta : Delta) : M (list Call) := fun self =>
  match l2_book self !! pair with
  | None => Raise KeyError self
  | Some book => Ok [book_callback book L2_BOOK pair forced delta timestamp timestamp] self
  end.

(** The selection on [msg['action']] and what follows it. *)
Definition _book_action (msg : Msg) (timestamp : Time) (pair : string)
    (forced : bool) (delta : Delta) : M (list Call) :=
  if String.eqb (msg_action msg) "partial" then
    do delta' <- for_each (partial_data pair) (msg_data msg) delta;
    deliver_book pair forced timestamp delta'
  else if String.eqb (msg_action msg) "insert" then
    do delta' <- for_each (insert_data pair) (msg_data msg) delta;
    deliver_book pair forced timestamp delta'
  else if String.eqb (msg_action msg) "update" then
    do delta' <- for_each (update_data pair) (msg_data msg) delta;
    deliver_book pair forced timestamp delta'
  else if String.eqb (msg_action msg) "delete" then
    do delta' <- for_each (delete_data pair) (msg_data msg) delta;
    deliver_book pair forced timestamp delta'
  else
    (* LOG.warning(...); return *)
    ret [].

Definition _book (msg : Msg) (timestamp : Time) : M (list Call) :=
  let delta := mkDelta [] [] in
  match msg_data msg with
  | [] => raise IndexError                       (* msg['data'][0] *)
  | data0 :: _ =>
    let pair := data_symbol data0 in
    do received <- partial_received_get pair;
    if negb received then
      if negb (String.eqb (msg_action msg) "partial") then
        ret []                                   (* discarded before partial *)
      else
        partial_received_set pair true ;;
        _book_action msg timestamp pair true delta
    else
      _book_action msg timestamp pair false delta
  end.

(** ** The stateless normalizers and the dispatcher *)

(** Entries of the [trade], [quote], [funding] and [instrument] tables,
    with the keys the handlers read. *)
Record TradeData := mkTradeData {
  trade_timestamp : string;
  trade_symbol : string;
  trade_side : string;
  trade_size : Qc;
  trade_price : Qc;
  trade_trdMatchID : string
}.

Record QuoteData := mkQuoteData {
  quote_timestamp : string;
  quote_symbol : string;
  quote_bidPrice : Qc;
  quote_askPrice : Qc
}.

Record FundingData := mkFundingData {
  funding_timestamp : string;
  funding_symbol : string;
  funding_fundingInterval : string;
  funding_fundingRate : Qc;
  funding_fundingRateDaily : Qc
}.

Record InstrumentData := mkInstrumentData {
  instrument_timestamp : string;
  instrument_symbol : string;
  instrument_openInterest : option Z
}.

(** A decoded data message, by the value of [msg['table']]. *)
Inductive Table :=
| trade (data : list TradeData)
| orderBookL2 (msg : Msg)
| funding (data : list FundingData)
| instrument (data : list InstrumentData)
| quote (data : list QuoteData)
| unhandled (table : string).

Section Normalizers.
(** [cryptofeed.standards.timestamp_normalize], which turns the venue's
    timestamp text into a time; its definition is outside this file. *)
Variable timestamp_normalize : string → string → Time.

Definition _trade (data : list TradeData) (timestamp : Time) : list Call :=
  map (λ d,
    let ts := timestamp_normalize BITMEX (trade_timestamp d) in
    callback_trades BITMEX (trade_symbol d)
      (if String.eqb (trade_side d) "Buy" then BUY else SELL)
      (trade_size d) (trade_price d) (trade_trdMatchID d) ts timestamp) data.

Definition _ticker (data : list QuoteData) (timestamp : Time) : list Call :=
  map (λ d,
    callback_ticker BITMEX (quote_symbol d) (quote_bidPrice d) (quote_askPrice d)
      (timestamp_normalize BITMEX (quote_timestamp d)) timestamp) data.

Definition _funding (data : list FundingData) (timestamp : Time) : list Call :=
  map (λ d,
    let ts := timestamp_normalize BITMEX (funding_timestamp d) in
    callback_funding BITMEX (funding_symbol d) ts timestamp
      (funding_fundingInterval d) (funding_fundingRate d) (funding_fundingRateDaily d)) data.

Definition _instrument (data : list InstrumentData) (timestamp : Time) : list Call :=
  omap (λ d,
    match instrument_openInterest d with
    | Some oi =>
      let ts := timestamp_normalize BITMEX (instrument_timestamp d) in
      Some (callback_open_interest BITMEX (instrument_symbol d) oi ts timestamp)
    | None => None
    end) data.

(** The data branch of [message_handler]. *)
Definition message_handler (msg : Table) (timestamp : Time) : M (list Call) :=
  match msg with
  | trade data => ret (_trade data timestamp)
  | orderBookL2 msg => _book msg timestamp
  | funding data => ret (_funding data timestamp)
  | instrument data => ret (_instrument data timestamp)
  | quote data => ret (_ticker data timestamp)
  | unhandled _ => ret []                      (* LOG.warning *)
  end.

Definition is_book (msg : Table) : bool :=
  match msg with orderBookL2 _ => true | _ => false end.
End Normalizers.

(** Book messages handled one after another, as [message_handler] is
    called once per received message; the run stops at the first message
    that raises. *)
Fixpoint process (msgs : list (Msg * Time)) (self : Bitmex) : option Bitmex :=
  match msgs with
  | [] => Some self
  | (msg, timestamp) :: msgs' =>
    match _book msg timestamp self with
    | Ok _ self' => process msgs' self'
    | Raise _ _ => None
    end
  end.

(** The states between the messages of a run, the first one included. *)
Fixpoint states (msgs : list (Msg * Time)) (self : Bitmex) : list Bitmex :=
  self ::
  match msgs with
  | [] => []
  | (msg, timestamp) :: msgs' =>
    match _book msg timestamp self with
    | Ok _ self' => states msgs' self'
    | Raise _ _ => []
    end
  end.

(** The callbacks a run delivers, in order. *)
Fixpoint deliveries (msgs : list (Msg * Time)) (self : Bitmex) : list Call :=
  match msgs with
  | [] => []
  | (msg, timestamp) :: msgs' =>
    match _book msg timestamp self with
    | Ok calls self' => calls ++ deliveries msgs' self'
    | Raise _ _ => []
    end
  end.

(** ** [Bitmex.message_handler], control messages included *)

(** A message after [json.loads]: which control keys it has, the value
    under ['success'] and the table of a data message.  A key that is not
    there reads as [None]. *)
Record Decoded := mkDecoded {
  decoded_info : bool;
  decoded_subscribe : bool;
  decoded_success : option bool;
  decoded_error : bool;
  decoded_table : option Table
}.

Section Dispatcher.
Variable timestamp_normalize : string → string → Time.

(** The whole chain of [message_handler]; the calls to [LOG] leave no
    trace in the state. *)
Definition message_handler_decoded (msg : Decoded) (timestamp : Time) : M (list Call) :=
  if decoded_info msg then
    ret []                                       (* LOG.info *)
  else if decoded_subscribe msg then
    do success <- field (decoded_success msg);   (* msg['success'] *)
    ret []                                       (* LOG.error when not success *)
  else if decoded_error msg then
    ret []                                       (* LOG.error *)
  else
    do table <- field (decoded_table msg);       (* msg['table'] *)
    message_handler timestamp_normalize table timestamp.
End Dispatcher.

(** ** [Bitmex.subscribe] *)

(** The value that [subscribe] serializes and sends on the socket. *)
Record Sent := mkSent {
  sent_op : string;
  sent_args : list string
}.

(** ["{}:{}".format(channel, pair)] *)
Definition chan_arg (channel pair : string) : string :=
  String.append channel (String.append ":" pair).

(** [self.channels] and [self.config] are set by [Feed.__init__], outside
    this file, and only read here; they are arguments.  [config] lists the
    items of the dictionary from channel to pairs in iteration order, and
    the empty list stands for a [config] that is not set. *)
Definition subscribe (channels : list string) (config : list (string * list string))
    : M Sent := fun self =>
  let self' := _reset self in
  let chans :=
    match config with
    | [] => channels ≫= (λ channel, chan_arg channel <$> pairs self')
    | _ => config ≫= (λ item, chan_arg item.1 <$> item.2)
    end in
  Ok (mkSent "subscribe" chans) self'.

(** ** [Bitmex.__init__] *)

Definition set_pairs (v : list string) (self : Bitmex) : Bitmex :=
  mkBitmex v (l2_book self) (partial_received self) (order_id self).

(** [pair.startswith('.')] *)
Definition startswith_dot (pair : string) : bool :=
  match pair with
  | String c _ => String.eqb (String c EmptyString) "."
  | EmptyString => false
  end.

(** The outcome of [__init__]: the object, or the message of the
    [ValueError] that the check of the pairs raises. *)
Inductive Started :=
| started (self : Bitmex)
| ValueError (message : string).

(** ["{} is not active on BitMEX".format(pair)] *)
Definition not_active (pair : string) : string :=
  String.append pair " is not active on BitMEX".

(** The loop over [self.pairs]: the message of the first [ValueError]. *)
Fixpoint check_active (active_pairs pairs : list string) : option string :=
  match pairs with
  | [] => None
  | symbol :: pairs' =>
    if negb (startswith_dot symbol) then
      if negb (bool_decide (symbol ∈ active_pairs)) then Some (not_active symbol)
      else check_active active_pairs pairs'
    else check_active active_pairs pairs'
  end.

(** [__init__] after [super().__init__]: [self] is the object as the base
    class left it and [active_pairs] the result of
    [get_active_symbols()]. *)
Definition __init__ (active_pairs : list string) (config : list (string * list string))
    (self : Bitmex) : Started :=
  let self1 :=
    match config with
    | [] => self
    | _ => set_pairs (mjoin (config.*2)) self
    end in
  match check_active active_pairs (pairs self1) with
  | Some message => ValueError message
  | None => started (_reset self1)
  end.

(** ** Vocabulary of the statements *)

(** A symbol has a book when [l2_book] holds both sides for it, and an
    index when [order_id] has its key; [_reset] gives both to every
    configured symbol, and the handlers then find every dictionary they
    read. *)
Definition has_book (self : Bitmex) (pair : string) : Prop :=
  ∃ book, l2_book self !! pair = Some book ∧ ∀ s, is_Some (book !! s).

Definition has_index (self : Bitmex) (pair : string) : Prop :=
  is_Some (order_id self !! pair).

Definition ready (self : Bitmex) (pair : string) : Prop :=
  has_book self pair ∧ has_index self pair.

(** [changed pair s lv ids self self']: [self'] is [self] except that side
    [s] of [pair] now has levels [lv] and index [ids]. *)
Record changed (pair : string) (s : Side) (lv : Levels) (ids : Ids)
    (self self' : Bitmex) : Prop := mkChanged {
  ch_pairs : pairs self' = pairs self;
  ch_partial : partial_received self' = partial_received self;
  ch_book_other : ∀ q, q ≠ pair → l2_book self' !! q = l2_book self !! q;
  ch_index_other : ∀ q, q ≠ pair → order_id self' !! q = order_id self !! q;
  ch_ready : ready self' pair;
  ch_levels : levels_of self' pair s = lv;
  ch_levels_side : ∀ s', s' ≠ s → levels_of self' pair s' = levels_of self pair s';
  ch_index : index_of self' pair s = ids;
  ch_index_side : ∀ s', s' ≠ s → index_of self' pair s' = index_of self pair s'
}.

Definition delta0 : Delta := mkDelta [] [].

(** [frame pair a b]: every symbol other than [pair] has in [b] the gate,
    book and index it has in [a]. *)
Record frame (pair : string) (a b : Bitmex) : Prop := mkFrame {
  fr_pairs : pairs b = pairs a;
  fr_partial : ∀ q, q ≠ pair → partial_received b !! q = partial_received a !! q;
  fr_book : ∀ q, q ≠ pair → l2_book b !! q = l2_book a !! q;
  fr_index : ∀ q, q ≠ pair → order_id b !! q = order_id a !! q
}.

(** A computation keeps a relation when the state it leaves, on return
    and on raise alike, is related to the state it started from. *)
Definition keeps {A} (R : Bitmex → Bitmex → Prop) (m : M A) : Prop :=
  ∀ self, R self (state_of (m self)).

(** The same entry under another symbol. *)
Definition with_symbol (symbol : string) (data : Data) : Data :=
  mkData symbol (data_id data) (data_side data) (data_size data) (data_price data).

(** What one entry of a snapshot writes on side [s] of the book. *)
Definition write_level (s : Side) (lv : Levels) (data : Data) : Levels :=
  match data_price data, data_size data with
  | Some price, Some size => if decide (side_of data = s) then <[price := size]> lv else lv
  | _, _ => lv
  end.

Definition priced (data : Data) : Prop :=
  is_Some (data_price data) ∧ is_Some (data_size data).

(** The [forced] argument and the delta of a recorded [book_callback]. *)
Definition call_forced (c : Call) : option bool :=
  match c with book_callback _ _ _ forced _ _ _ => Some forced | _ => None end.

Definition call_delta (c : Call) : option Delta :=
  match c with book_callback _ _ _ _ delta _ _ => Some delta | _ => None end.

(** Every identifier of the index names a price that has a level. *)
Definition index_consistent (self : Bitmex) : Prop :=
  ∀ pair s oid price,
    index_of self pair s !! oid = Some price →
    is_Some (levels_of self pair s !! price).

(** No two identifiers of one symbol and side are indexed at the same
    price. *)
Definition unshared_prices (self : Bitmex) : bool :=
  bool_decide
    (map_Forall (λ _ (sides : gmap Side Ids),
       map_Forall (λ _ (ids : Ids), NoDup (map_to_list ids).*2) sides)
     (order_id self)).

Definition unshared (self : Bitmex) : Prop :=
  ∀ pair s i j price,
    index_of self pair s !! i = Some price →
    index_of self pair s !! j = Some price → i = j.

(** A symbol with an index has a book with both sides. *)
Definition booked (self : Bitmex) : Prop :=
  ∀ q, has_index self q → has_book self q.

(** The invariant of a run. *)
Definition sound (self : Bitmex) : Prop := booked self ∧ index_consistent self.

(** The side of an entry and the price the index gives its identifier. *)
Definition entry_level (self : Bitmex) (pair : string) (data : Data) : Side * option Qc :=
  (side_of data, index_of self pair (side_of data) !! data_id data).

(** The entries of a delete message that the book can take: each names an
    identifier of the index whose price has a level, and no two of a side
    name the same price. *)
Definition deletable (self : Bitmex) (pair : string) (l : list Data) : Prop :=
  Forall (λ d, ∃ price,
            index_of self pair (side_of d) !! data_id d = Some price ∧
            is_Some (levels_of self pair (side_of d) !! price)) l ∧
  NoDup (entry_level self pair <$> l).

(** [same_keys a b]: [b] has the configured pairs and the dictionary keys
    of [a]: the same symbols have a book, with the same sides, and the
    same symbols have an index. *)
Record same_keys (a b : Bitmex) : Prop := mkSameKeys {
  sk_pairs : pairs b = pairs a;
  sk_book : ∀ q, dom <$> (l2_book b !! q) = dom <$> (l2_book a !! q);
  sk_index : ∀ q, is_Some (order_id b !! q) ↔ is_Some (order_id a !! q)
}.

(** [same_gates a b]: the gates of [b] are those of [a]. *)
Definition same_gates (a b : Bitmex) : Prop :=
  partial_received b = partial_received a.

(** What one priced entry writes on side [s] of the index. *)
Definition write_index (s : Side) (ids : Ids) (data : Data) : Ids :=
  match data_price data, data_size data with
  | Some price, Some _ => if decide (side_of data = s) then <[data_id data := price]> ids else ids
  | _, _ => ids
  end.

(** The delta pair of a priced entry. *)
Definition entry_pair (data : Data) : option (Qc * Qc) :=
  match data_price data, data_size data with
  | Some price, Some size => Some (price, size)
  | _, _ => None
  end.

(** The delta pairs of the entries of side [s], in order. *)
Definition written_delta (s : Side) (l : list Data) : list (Qc * Qc) :=
  omap (λ d, if decide (side_of d = s) then entry_pair d else None) l.

(** The delta pair of an update entry under the index [index] of a
    symbol: the indexed price and the new size. *)
Definition resized_pair (index : Side → Ids) (data : Data) : option (Qc * Qc) :=
  match index (side_of data) !! data_id data, data_size data with
  | Some price, Some size => Some (price, size)
  | _, _ => None
  end.

(** The entries of an update message that the index can resolve. *)
Definition updatable (index : Side → Ids) (l : list Data) : Prop :=
  Forall (λ d, is_Some (resized_pair index d)) l.

(** What one update entry writes on side [s] of the book. *)
Definition resize_level (index : Side → Ids) (s : Side) (lv : Levels) (data : Data) : Levels :=
  match resized_pair index data with
  | Some (price, size) => if decide (side_of data = s) then <[price := size]> lv else lv
  | None => lv
  end.

Definition resized_delta (index : Side → Ids) (s : Side) (l : list Data) : list (Qc * Qc) :=
  omap (λ d, if decide (side_of d = s) then resized_pair index d else None) l.

(** The symbol a recorded call is for. *)
Definition call_pair (c : Call) : string :=
  match c with
  | book_callback _ _ symbol _ _ _ _ => symbol
  | callback_trades _ symbol _ _ _ _ _ _ => symbol
  | callback_ticker _ symbol _ _ _ _ => symbol
  | callback_funding _ symbol _ _ _ _ _ => symbol
  | callback_open_interest _ symbol _ _ _ => symbol
  end.

(** What one delete entry removes on side [s] of the book and of the
    index, [index] being the index of the symbol when the message
    arrived. *)
Definition remove_level (index : Side → Ids) (s : Side) (lv : Levels) (data : Data) : Levels :=
  match index (side_of data) !! data_id data with
  | Some price => if decide (side_of data = s) then delete price lv else lv
  | None => lv
  end.

Definition remove_index (s : Side) (ids : Ids) (data : Data) : Ids :=
  if decide (side_of data = s) then delete (data_id data) ids else ids.

(** What one entry of a message with action [action] does on side [s] of
    a book and of an index. *)
Definition applied_level (action : string) (index : Side → Ids) (s : Side)
    : Levels → Data → Levels :=
  if String.eqb action "partial" then write_level s
  else if String.eqb action "insert" then write_level s
  else if String.eqb action "update" then resize_level index s
  else if String.eqb action "delete" then remove_level index s
  else λ lv _, lv.

Definition applied_index (action : string) (s : Side) : Ids → Data → Ids :=
  if String.eqb action "partial" then write_index s
  else if String.eqb action "insert" then write_index s
  else if String.eqb action "update" then λ ids _, ids
  else if String.eqb action "delete" then remove_index s
  else λ ids _, ids.

(** The entries that a message with action [action] can apply to the book
    and index of [pair]: priced ones for a partial or an insert, ones the
    index resolves for an update, ones the book can drop for a delete. *)
Definition applicable (action : string) (self : Bitmex) (pair : string) (l : list Data) : Prop :=
  if String.eqb action "partial" then Forall priced l
  else if String.eqb action "insert" then Forall priced l
  else if String.eqb action "update" then updatable (index_of self pair) l
  else if String.eqb action "delete" then deletable self pair l
  else True.

(** [side_changed pair s lv ids self self']: read through the views, side
    [s] of [pair] has levels [lv] and index [ids] in [self'], and the other
    side of [pair] reads as in [self]. *)
Definition side_changed (pair : string) (s : Side) (lv : Levels) (ids : Ids)
    (self self' : Bitmex) : Prop :=
  ∀ s', levels_of self' pair s' = (if decide (s' = s) then lv else levels_of self pair s') ∧
        index_of self' pair s' = (if decide (s' = s) then ids else index_of self pair s').

(** An entry of a trade, funding, instrument or quote message. *)
Inductive Entry :=
| trade_entry (d : TradeData)
| funding_entry (d : FundingData)
| instrument_entry (d : InstrumentData)
| quote_entry (d : QuoteData).

(** The entries of a message that an event is delivered for, in the order
    of the message: every entry of a trade, funding or quote message, and
    the entries of an instrument message that carry an open interest. *)
Definition event_entries (msg : Table) : list Entry :=
  match msg with
  | trade data => trade_entry <$> data
  | funding data => funding_entry <$> data
  | instrument data =>
    instrument_entry <$> filter (λ d, is_Some (instrument_openInterest d)) data
  | quote data => quote_entry <$> data
  | orderBookL2 _ | unhandled _ => []
  end.

(** The venue-reported time of an entry, as the text the venue sends. *)
Definition entry_timestamp (e : Entry) : string :=
  match e with
  | trade_entry d => trade_timestamp d
  | funding_entry d => funding_timestamp d
  | instrument_entry d => instrument_timestamp d
  | quote_entry d => quote_timestamp d
  end.

(** [event_of c e]: the event [c] is the one of the entry [e], carrying
    the symbol and the values of that entry. *)
Definition event_of (c : Call) (e : Entry) : Prop :=
  match c, e with
  | callback_trades _ symbol side amount price trade_id _ _, trade_entry d =>
    symbol = trade_symbol d ∧
    side = (if String.eqb (trade_side d) "Buy" then BUY else SELL) ∧
    amount = trade_size d ∧ price = trade_price d ∧ trade_id = trade_trdMatchID d
  | callback_funding _ symbol _ _ interval rate rate_daily, funding_entry d =>
    symbol = funding_symbol d ∧ interval = funding_fundingInterval d ∧
    rate = funding_fundingRate d ∧ rate_daily = funding_fundingRateDaily d
  | callback_open_interest _ symbol open_interest _ _, instrument_entry d =>
    symbol = instrument_symbol d ∧ instrument_openInterest d = Some open_interest
  | callback_ticker _ symbol bid ask _ _, quote_entry d =>
    symbol = quote_symbol d ∧ bid = quote_bidPrice d ∧ ask = quote_askPrice d
  | _, _ => False
  end.

(** Whether the text holds a colon. *)
Fixpoint has_colon (text : string) : bool :=
  match text with
  | EmptyString => false
  | String c text' => String.eqb (String c EmptyString) ":" || has_colon text'
  end.

(** The pairs [__init__] checks and keeps: those of [config] when it is
    set, those the base class stored otherwise. *)
Definition checked_pairs (config : list (string * list string)) (self : Bitmex) : list string :=
  match config with
  | [] => pairs self
  | _ => mjoin (config.*2)
  end.

(** A pair passes the check of [__init__] when it starts with a dot or is
    among the active symbols. *)
Definition accepted (active_pairs : list string) (symbol : string) : Prop :=
  startswith_dot symbol = true ∨ symbol ∈ active_pairs.

(** ** The scenario of the design document, run on the model *)

(** An engine for the one symbol ["XBTUSD"], right after [_reset]. *)
Definition engine0 : Bitmex := _reset (mkBitmex ["XBTUSD"] ∅ ∅ ∅).

(** A bid entry for ["XBTUSD"]; [price] and [size] are absent where the
    venue omits them. *)
Definition bid_entry (oid : Z) (price size : option Qc) : Data :=
  mkData "XBTUSD" oid "Buy" size price.

Definition snapshot1 : Msg :=
  mkMsg "partial" [bid_entry 1 (Some (dec 100)) (Some (dec 5))].

Definition after_partial : Bitmex :=
  state_of (_book snapshot1 (dec 0) engine0).

Definition trade1 : TradeData :=
  mkTradeData "2018-05-19T12:25:26.632Z" "XBTUSD" "Buy" (dec 40) (dec 8335)
    "5f4ecd49-f87f-41c0-06e3-4a9405b9cdde".

Definition trade2 : TradeData :=
  mkTradeData "2018-05-19T12:25:27Z" "ETHUSD" "Sell" (dec 3) (dec 700)
    "bdd4d9a1-1f33-4fa0-95d2-0a2f1c1d3c11".

(** A stand-in for the venue clock: the length of the timestamp text. *)
Definition text_clock (feed text : string) : Time := dec (Z.of_nat (String.length text)).

Definition shared_snapshot : Msg :=
  mkMsg "partial" [bid_entry 1 (Some (dec 100)) (Some (dec 5));
                   bid_entry 2 (Some (dec 100)) (Some (dec 3))].

Definition after_shared : Bitmex :=
  state_of (_book shared_snapshot (dec 0) engine0).

Definition after_shared_delete : Bitmex :=
  state_of (_book (mkMsg "delete" [bid_entry 1 None None]) (dec 0) after_shared).

(** The scenario of the design document: snapshot, insert, update, delete. *)
Definition scenario : list (Msg * Time) :=
  [ (snapshot1, dec 0);
    (mkMsg "insert" [bid_entry 2 (Some (dec 99)) (Some (dec 3))], dec 1);
    (mkMsg "update" [bid_entry 2 None (Some (dec 7))], dec 2);
    (mkMsg "delete" [bid_entry 1 None None], dec 3) ].

Definition after_scenario : Bitmex :=
  default engine0 (process scenario engine0).

Definition after_insert : Bitmex :=
  state_of (_book (mkMsg "insert" [bid_entry 2 (Some (dec 99)) (Some (dec 3))]) (dec 1)
              after_partial).

(** * Properties *)

(** ** The scenario *)

(** The books after each message of the scenario, the [forced] flags and
    the deltas, as the design document lists them. *)
Lemma scenario_of_the_design :
  map (λ self, levels_of self "XBTUSD" BID) (states scenario engine0) =
    [ ∅;
      {[dec 100 := dec 5]};
      <[dec 99 := dec 3]> {[dec 100 := dec 5]};
      <[dec 99 := dec 7]> {[dec 100 := dec 5]};
      {[dec 99 := dec 7]} ] ∧
  map call_forced (deliveries scenario engine0) =
    [Some true; Some false; Some false; Some false] ∧
  map call_delta (deliveries scenario engine0) =
    [ Some (mkDelta [] []);
      Some (mkDelta [(dec 99, dec 3)] []);
      Some (mkDelta [(dec 99, dec 7)] []);
      Some (mkDelta [(dec 100, dec 0)] []) ].
Proof. repeat split; vm_compute; reflexivity. Qed.

(** ** Reading the state after a field was replaced *)

Lemma Bitmex_eq (a b : Bitmex) :
  pairs a = pairs b → l2_book a = l2_book b →
  partial_received a = partial_received b → order_id a = order_id b → a = b.
Proof. destruct a, b; simpl; intros; by subst. Qed.

Lemma gate_true self pair :
  gate self pair = true ↔ partial_received self !! pair = Some true.
Proof.
  unfold gate. destruct (partial_received self !! pair) as [[]|]; simpl; split; congruence.
Qed.

Lemma gate_false self pair :
  gate self pair = false ↔
  partial_received self !! pair = Some false ∨ partial_received self !! pair = None.
Proof.
  unfold gate. destruct (partial_received self !! pair) as [[]|]; simpl; split;
    try congruence; try tauto; intros [?|?]; congruence.
Qed.

(** ** [_reset] *)

Lemma reset_fold_pairs l s : pairs (foldl _reset_pair s l) = pairs s.
Proof. revert s; induction l as [|x l IH]; intros s; simpl; [done|by rewrite IH]. Qed.

Lemma reset_fold_partial_received l s :
  partial_received (foldl _reset_pair s l) = partial_received s.
Proof. revert s; induction l as [|x l IH]; intros s; simpl; [done|by rewrite IH]. Qed.

Lemma reset_fold_l2_book l s q :
  l2_book (foldl _reset_pair s l) !! q =
  if decide (q ∈ l) then Some new_book else l2_book s !! q.
Proof.
  revert s; induction l as [|x l IH]; intros s.
  - rewrite decide_False; [done|apply not_elem_of_nil].
  - cbn [foldl]. rewrite IH. simpl.
    destruct (decide (q ∈ l)) as [Hl|Hl].
    + rewrite decide_True; [done|by right].
    + destruct (decide (x = q)) as [->|Hx].
      * rewrite lookup_insert_eq, decide_True; [done|by left].
      * rewrite lookup_insert_ne, decide_False; [done| |done].
        by intros [->|?]%elem_of_cons.
Qed.

Lemma reset_fold_order_id l s q :
  order_id (foldl _reset_pair s l) !! q =
  if decide (q ∈ l) then Some ∅ else order_id s !! q.
Proof.
  revert s; induction l as [|x l IH]; intros s.
  - rewrite decide_False; [done|apply not_elem_of_nil].
  - cbn [foldl]. rewrite IH. simpl.
    destruct (decide (q ∈ l)) as [Hl|Hl].
    + rewrite decide_True; [done|by right].
    + destruct (decide (x = q)) as [->|Hx].
      * rewrite lookup_insert_eq, decide_True; [done|by left].
      * rewrite lookup_insert_ne, decide_False; [done| |done].
        by intros [->|?]%elem_of_cons.
Qed.

Lemma reset_pairs self : pairs (_reset self) = pairs self.
Proof. unfold _reset. by rewrite reset_fold_pairs. Qed.

Lemma reset_partial_received self : partial_received (_reset self) = ∅.
Proof. unfold _reset. by rewrite reset_fold_partial_received. Qed.

Lemma reset_l2_book self q :
  l2_book (_reset self) !! q =
  if decide (q ∈ pairs self) then Some new_book else l2_book self !! q.
Proof. unfold _reset. by rewrite reset_fold_l2_book. Qed.

Lemma reset_order_id self q :
  order_id (_reset self) !! q = if decide (q ∈ pairs self) then Some ∅ else None.
Proof. unfold _reset. by rewrite reset_fold_order_id. Qed.

Lemma reset_gate self q : gate (_reset self) q = false.
Proof. unfold gate. by rewrite reset_partial_received, lookup_empty. Qed.

Lemma reset_levels_of self q s : q ∈ pairs self → levels_of (_reset self) q s = ∅.
Proof.
  intros Hq. unfold levels_of. rewrite reset_l2_book, decide_True by done.
  by destruct s.
Qed.

Lemma reset_index_of self q s : index_of (_reset self) q s = ∅.
Proof.
  unfold index_of. rewrite reset_order_id. by case_decide.
Qed.

Lemma reset_idempotent self : _reset (_reset self) = _reset self.
Proof.
  apply Bitmex_eq.
  - by rewrite !reset_pairs.
  - apply map_eq; intros q. rewrite !reset_l2_book, reset_pairs.
    by case_decide.
  - by rewrite !reset_partial_received.
  - apply map_eq; intros q. by rewrite !reset_order_id, reset_pairs.
Qed.

(** ** The dictionary primitives, read through [levels_of] and [index_of] *)

Lemma changed_trans pair s lv1 ids1 lv2 ids2 a b c :
  changed pair s lv1 ids1 a b → changed pair s lv2 ids2 b c →
  changed pair s lv2 ids2 a c.
Proof.
  intros Hab Hbc. constructor.
  - by rewrite (ch_pairs _ _ _ _ _ _ Hbc), (ch_pairs _ _ _ _ _ _ Hab).
  - by rewrite (ch_partial _ _ _ _ _ _ Hbc), (ch_partial _ _ _ _ _ _ Hab).
  - intros q Hq.
    by rewrite (ch_book_other _ _ _ _ _ _ Hbc), (ch_book_other _ _ _ _ _ _ Hab).
  - intros q Hq.
    by rewrite (ch_index_other _ _ _ _ _ _ Hbc), (ch_index_other _ _ _ _ _ _ Hab).
  - apply Hbc.
  - apply Hbc.
  - intros s' Hs.
    by rewrite (ch_levels_side _ _ _ _ _ _ Hbc), (ch_levels_side _ _ _ _ _ _ Hab).
  - apply Hbc.
  - intros s' Hs.
    by rewrite (ch_index_side _ _ _ _ _ _ Hbc), (ch_index_side _ _ _ _ _ _ Hab).
Qed.

Lemma changed_gate pair s lv ids a b q : changed pair s lv ids a b → gate b q = gate a q.
Proof. intros []. unfold gate. congruence. Qed.

Lemma changed_levels_other pair s lv ids a b q s' :
  changed pair s lv ids a b → q ≠ pair → levels_of b q s' = levels_of a q s'.
Proof. intros [] Hq. unfold levels_of. by rewrite ch_book_other0. Qed.

Lemma changed_index_other pair s lv ids a b q s' :
  changed pair s lv ids a b → q ≠ pair → index_of b q s' = index_of a q s'.
Proof. intros [] Hq. unfold index_of. by rewrite ch_index_other0. Qed.

Lemma has_book_insert self pair book s lv :
  l2_book self !! pair = Some book → (∀ s', is_Some (book !! s')) →
  has_book (set_l2_book (<[pair := <[s := lv]> book]> (l2_book self)) self) pair.
Proof.
  intros Hb Hs. exists (<[s := lv]> book). simpl. rewrite lookup_insert_eq. split; [done|].
  intros s'. destruct (decide (s = s')) as [->|].
  - rewrite lookup_insert_eq. eauto.
  - by rewrite lookup_insert_ne.
Qed.

Lemma levels_written self pair book s lv s' :
  levels_of (set_l2_book (<[pair := <[s := lv]> book]> (l2_book self)) self) pair s' =
  if decide (s' = s) then lv else default ∅ (book !! s').
Proof.
  unfold levels_of. simpl. rewrite lookup_insert_eq. simpl.
  case_decide as H; [subst; by rewrite lookup_insert_eq|by rewrite lookup_insert_ne].
Qed.

Lemma index_written self pair sides s ids s' :
  index_of (set_order_id (<[pair := <[s := ids]> sides]> (order_id self)) self) pair s' =
  if decide (s' = s) then ids else default ∅ (sides !! s').
Proof.
  unfold index_of. simpl. rewrite lookup_insert_eq. simpl.
  case_decide as H; [subst; by rewrite lookup_insert_eq|by rewrite lookup_insert_ne].
Qed.

Lemma level_stored self pair s lv book :
  l2_book self !! pair = Some book → (∀ s', is_Some (book !! s')) →
  has_index self pair →
  changed pair s lv (index_of self pair s) self
    (set_l2_book (<[pair := <[s := lv]> book]> (l2_book self)) self).
Proof.
  intros Hb Hs Hi. constructor; try done.
  - intros q Hq. simpl. by rewrite lookup_insert_ne.
  - split; [by apply has_book_insert|done].
  - by rewrite levels_written, decide_True.
  - intros s' Hs'. rewrite levels_written, decide_False by done.
    unfold levels_of. by rewrite Hb.
Qed.

Lemma index_stored self pair s ids sides :
  order_id self !! pair = Some sides → has_book self pair →
  changed pair s (levels_of self pair s) ids self
    (set_order_id (<[pair := <[s := ids]> sides]> (order_id self)) self).
Proof.
  intros Hi Hb. constructor; try done.
  - intros q Hq. simpl. by rewrite lookup_insert_ne.
  - split; [done|]. unfold has_index. simpl. rewrite lookup_insert_eq. eauto.
  - by rewrite index_written, decide_True.
  - intros s' Hs'. rewrite index_written, decide_False by done.
    unfold index_of. by rewrite Hi.
Qed.

Lemma level_set_changed self pair s price size :
  ready self pair →
  ∃ self', level_set pair s price size self = Ok tt self' ∧
    changed pair s (<[price := size]> (levels_of self pair s)) (index_of self pair s) self self'.
Proof.
  intros [(book & Hb & Hs) Hi]. destruct (Hs s) as [lv Hlv].
  eexists. split.
  - unfold level_set. rewrite Hb, Hlv. reflexivity.
  - replace (levels_of self pair s) with lv by (unfold levels_of; by rewrite Hb; simpl; rewrite Hlv).
    by apply level_stored.
Qed.

Lemma level_del_changed self pair s price size :
  ready self pair → levels_of self pair s !! price = Some size →
  ∃ self', level_del pair s price self = Ok tt self' ∧
    changed pair s (delete price (levels_of self pair s)) (index_of self pair s) self self'.
Proof.
  intros [(book & Hb & Hs) Hi] Hp. destruct (Hs s) as [lv Hlv].
  assert (levels_of self pair s = lv) as Heq
    by (unfold levels_of; by rewrite Hb; simpl; rewrite Hlv).
  rewrite Heq in *. eexists. split.
  - unfold level_del. rewrite Hb, Hlv, Hp. reflexivity.
  - by apply level_stored.
Qed.

Lemma level_del_raise self pair s price :
  levels_of self pair s !! price = None →
  level_del pair s price self = Raise KeyError self.
Proof.
  unfold levels_of, level_del. intros Hp.
  destruct (l2_book self !! pair) as [book|]; [|done]. simpl in Hp.
  destruct (book !! s) as [lv|]; [|done]. simpl in Hp. by rewrite Hp.
Qed.

Lemma index_side_found self pair s oid price :
  index_of self pair s !! oid = Some price →
  ∃ sides, order_id self !! pair = Some sides ∧ sides !! s = Some (index_of self pair s).
Proof.
  unfold index_of. intros H.
  destruct (order_id self !! pair) as [sides|]; simpl in *; [|by rewrite lookup_empty in H].
  destruct (sides !! s) as [ids|] eqn:Hs; simpl in *; [|by rewrite lookup_empty in H].
  eauto.
Qed.

Lemma index_set_changed self pair s oid price :
  ready self pair →
  ∃ self', index_set pair s oid price self = Ok tt self' ∧
    changed pair s (levels_of self pair s) (<[oid := price]> (index_of self pair s)) self self'.
Proof.
  intros [Hb [sides Hi]]. unfold index_set, bind, index_side, index_side_store.
  rewrite Hi. unfold index_of at 1. rewrite Hi. simpl.
  destruct (sides !! s) as [ids|] eqn:Hids; simpl.
  - rewrite Hi. eexists; split; [done|]. by apply index_stored.
  - rewrite lookup_insert_eq. eexists; split; [done|].
    eapply changed_trans; [by apply (index_stored self pair s ∅ sides)|].
    set (self1 := set_order_id (<[pair:=<[s:=∅]> sides]> (order_id self)) self).
    change (levels_of self pair s) with (levels_of self1 pair s).
    apply (index_stored self1 pair s (<[oid:=price]> ∅) (<[s:=∅]> sides)).
    + simpl. by rewrite lookup_insert_eq.
    + done.
Qed.

Lemma index_get_found self pair s oid price :
  index_of self pair s !! oid = Some price →
  index_get pair s oid self = Ok price self.
Proof.
  intros H. destruct (index_side_found _ _ _ _ _ H) as (sides & Hi & Hs).
  unfold index_get, bind, index_side. by rewrite Hi, Hs, H.
Qed.

Lemma index_del_changed self pair s oid price :
  has_book self pair → index_of self pair s !! oid = Some price →
  ∃ self', index_del pair s oid self = Ok tt self' ∧
    changed pair s (levels_of self pair s) (delete oid (index_of self pair s)) self self'.
Proof.
  intros Hb H. destruct (index_side_found _ _ _ _ _ H) as (sides & Hi & Hs).
  unfold index_del, bind, index_side, index_side_store. rewrite Hi, Hs, H, Hi.
  eexists; split; [done|]. by apply index_stored.
Qed.

(** A read of an identifier the index does not hold raises [KeyError].
    The [defaultdict] may have stored an empty dictionary for the side
    on the way, which no reader of the index can tell apart. *)
Lemma index_get_missing self pair s oid :
  index_of self pair s !! oid = None →
  ∃ self', index_get pair s oid self = Raise KeyError self' ∧
    pairs self' = pairs self ∧ l2_book self' = l2_book self ∧
    partial_received self' = partial_received self ∧
    ∀ q s', index_of self' q s' = index_of self q s'.
Proof.
  intros H. unfold index_get, bind, index_side, index_of in *.
  destruct (order_id self !! pair) as [sides|] eqn:Hi; [|by eexists].
  simpl in *. destruct (sides !! s) as [ids|] eqn:Hs; simpl in *.
  - rewrite H. by eexists.
  - eexists. split; [done|]. repeat split; try done.
    intros q s'. simpl. destruct (decide (q = pair)) as [->|Hq].
    + rewrite lookup_insert_eq, Hi. simpl.
      destruct (decide (s' = s)) as [->|Hs'].
      * by rewrite lookup_insert_eq, Hs.
      * by rewrite lookup_insert_ne.
    + by rewrite lookup_insert_ne.
Qed.

(** ** One entry of a message *)

Lemma partial_data_changed self pair data delta price size :
  ready self pair → data_price data = Some price → data_size data = Some size →
  ∃ self', partial_data pair data delta self = Ok delta self' ∧
    changed pair (side_of data)
      (<[price := size]> (levels_of self pair (side_of data)))
      (<[data_id data := price]> (index_of self pair (side_of data))) self self'.
Proof.
  intros Hr Hp Hs.
  destruct (level_set_changed self pair (side_of data) price size Hr) as (s1 & E1 & C1).
  destruct (index_set_changed s1 pair (side_of data) (data_id data) price (ch_ready _ _ _ _ _ _ C1))
    as (s2 & E2 & C2).
  exists s2. split.
  - unfold partial_data, bind, field. rewrite Hp, Hs. simpl. by rewrite E1, E2.
  - rewrite (ch_levels _ _ _ _ _ _ C1), (ch_index _ _ _ _ _ _ C1) in C2.
    by eapply changed_trans.
Qed.

Lemma insert_data_changed self pair data delta price size :
  ready self pair → data_price data = Some price → data_size data = Some size →
  ∃ self', insert_data pair data delta self =
      Ok (delta_append delta (side_of data) (price, size)) self' ∧
    changed pair (side_of data)
      (<[price := size]> (levels_of self pair (side_of data)))
      (<[data_id data := price]> (index_of self pair (side_of data))) self self'.
Proof.
  intros Hr Hp Hs.
  destruct (level_set_changed self pair (side_of data) price size Hr) as (s1 & E1 & C1).
  destruct (index_set_changed s1 pair (side_of data) (data_id data) price (ch_ready _ _ _ _ _ _ C1))
    as (s2 & E2 & C2).
  exists s2. split.
  - unfold insert_data, bind, field. rewrite Hp, Hs. simpl. by rewrite E1, E2.
  - rewrite (ch_levels _ _ _ _ _ _ C1), (ch_index _ _ _ _ _ _ C1) in C2.
    by eapply changed_trans.
Qed.

Lemma update_data_changed self pair data delta price size :
  ready self pair → data_size data = Some size →
  index_of self pair (side_of data) !! data_id data = Some price →
  ∃ self', update_data pair data delta self =
      Ok (delta_append delta (side_of data) (price, size)) self' ∧
    changed pair (side_of data)
      (<[price := size]> (levels_of self pair (side_of data)))
      (index_of self pair (side_of data)) self self'.
Proof.
  intros Hr Hs Hi.
  destruct (level_set_changed self pair (side_of data) price size Hr) as (s1 & E1 & C1).
  destruct (index_set_changed s1 pair (side_of data) (data_id data) price (ch_ready _ _ _ _ _ _ C1))
    as (s2 & E2 & C2).
  exists s2. split.
  - unfold update_data, bind, field. rewrite Hs. simpl.
    by rewrite (index_get_found _ _ _ _ _ Hi), E1, E2.
  - rewrite (ch_levels _ _ _ _ _ _ C1), (ch_index _ _ _ _ _ _ C1) in C2.
    rewrite (insert_id _ _ _ Hi) in C2.
    by eapply changed_trans.
Qed.

Lemma delete_data_changed self pair data delta price size :
  ready self pair →
  index_of self pair (side_of data) !! data_id data = Some price →
  levels_of self pair (side_of data) !! price = Some size →
  ∃ self', delete_data pair data delta self =
      Ok (delta_append delta (side_of data) (price, dec 0)) self' ∧
    changed pair (side_of data)
      (delete price (levels_of self pair (side_of data)))
      (delete (data_id data) (index_of self pair (side_of data))) self self'.
Proof.
  intros Hr Hi Hl.
  destruct (index_del_changed self pair (side_of data) (data_id data) price (proj1 Hr) Hi)
    as (s1 & E1 & C1).
  rewrite <-(ch_levels _ _ _ _ _ _ C1) in Hl.
  destruct (level_del_changed s1 pair (side_of data) price size (ch_ready _ _ _ _ _ _ C1) Hl)
    as (s2 & E2 & C2).
  exists s2. split.
  - unfold delete_data, bind. by rewrite (index_get_found _ _ _ _ _ Hi), E1, E2.
  - rewrite (ch_levels _ _ _ _ _ _ C1), (ch_index _ _ _ _ _ _ C1) in C2.
    by eapply changed_trans.
Qed.

(** An entry that names an identifier the index does not hold: the entry
    raises [KeyError] and neither the book nor the index has changed. *)
Lemma update_data_missing self pair data delta :
  index_of self pair (side_of data) !! data_id data = None →
  ∃ self', update_data pair data delta self = Raise KeyError self' ∧
    pairs self' = pairs self ∧ l2_book self' = l2_book self ∧
    partial_received self' = partial_received self ∧
    ∀ q s, index_of self' q s = index_of self q s.
Proof.
  intros Hi. unfold update_data, bind, field.
  destruct (data_size data) as [size|]; simpl; [|by exists self].
  destruct (index_get_missing _ _ _ _ Hi) as (self' & -> & H). by exists self'.
Qed.

Lemma delete_data_missing self pair data delta :
  index_of self pair (side_of data) !! data_id data = None →
  ∃ self', delete_data pair data delta self = Raise KeyError self' ∧
    pairs self' = pairs self ∧ l2_book self' = l2_book self ∧
    partial_received self' = partial_received self ∧
    ∀ q s, index_of self' q s = index_of self q s.
Proof.
  intros Hi. unfold delete_data, bind.
  destruct (index_get_missing _ _ _ _ Hi) as (self' & -> & H). by exists self'.
Qed.

(** ** Entering [_book] *)

Lemma book_gate_open self msg timestamp data0 rest :
  msg_data msg = data0 :: rest → gate self (data_symbol data0) = true →
  _book msg timestamp self =
  _book_action msg timestamp (data_symbol data0) false delta0 self.
Proof.
  intros Hd Hg. apply gate_true in Hg.
  unfold _book, bind, partial_received_get. by rewrite Hd, Hg.
Qed.

Lemma book_gate_closed self msg timestamp data0 rest :
  msg_data msg = data0 :: rest → gate self (data_symbol data0) = false →
  msg_action msg = "partial" →
  _book msg timestamp self =
  _book_action msg timestamp (data_symbol data0) true delta0
    (set_partial_received (<[data_symbol data0 := true]> (partial_received self)) self).
Proof.
  intros Hd Hg Ha. apply gate_false in Hg.
  unfold _book, bind, partial_received_get, partial_received_set. rewrite Hd, Ha.
  destruct Hg as [-> | ->]; simpl; [done|].
  unfold set_partial_received; simpl. by rewrite insert_insert_eq.
Qed.

Lemma deliver_book_found self pair forced timestamp delta book :
  l2_book self !! pair = Some book →
  deliver_book pair forced timestamp delta self =
  Ok [book_callback book L2_BOOK pair forced delta timestamp timestamp] self.
Proof. intros H. unfold deliver_book. by rewrite H. Qed.

Lemma bind_Ok {A B} (m : M A) (k : A → M B) self a self' :
  m self = Ok a self' → bind m k self = k a self'.
Proof. intros H. unfold bind. by rewrite H. Qed.

Lemma bind_Raise {A B} (m : M A) (k : A → M B) self e self' :
  m self = Raise e self' → bind m k self = Raise e self'.
Proof. intros H. unfold bind. by rewrite H. Qed.

Lemma for_each_cons {A S} (body : A → S → M S) x l acc :
  for_each body (x :: l) acc = (do acc' <- body x acc; for_each body l acc').
Proof. reflexivity. Qed.

Lemma for_each_app {A S} (body : A → S → M S) l1 l2 acc self :
  for_each body (l1 ++ l2) acc self =
  (do acc' <- for_each body l1 acc; for_each body l2 acc') self.
Proof.
  revert acc self. induction l1 as [|x l1 IH]; intros acc self; [done|].
  simpl. unfold bind. destruct (body x acc self) as [acc' self'|e self']; [|done].
  by rewrite IH.
Qed.

Lemma book_action_partial pair timestamp forced delta l :
  _book_action (mkMsg "partial" l) timestamp pair forced delta =
  (do delta' <- for_each (partial_data pair) l delta;
   deliver_book pair forced timestamp delta').
Proof. reflexivity. Qed.

Lemma book_action_insert pair timestamp forced delta l :
  _book_action (mkMsg "insert" l) timestamp pair forced delta =
  (do delta' <- for_each (insert_data pair) l delta;
   deliver_book pair forced timestamp delta').
Proof. reflexivity. Qed.

Lemma book_action_update pair timestamp forced delta l :
  _book_action (mkMsg "update" l) timestamp pair forced delta =
  (do delta' <- for_each (update_data pair) l delta;
   deliver_book pair forced timestamp delta').
Proof. reflexivity. Qed.

Lemma book_action_delete pair timestamp forced delta l :
  _book_action (mkMsg "delete" l) timestamp pair forced delta =
  (do delta' <- for_each (delete_data pair) l delta;
   deliver_book pair forced timestamp delta').
Proof. reflexivity. Qed.

(** ** Claims on single messages *)

(** C10. A book message whose data array is empty raises [IndexError] at
    the read of its first entry: nothing was decided on the gate, the state
    is the one the handler was entered with, and no callback is awaited. *)
Theorem empty_data_raises_IndexError (self : Bitmex) (action : string) (timestamp : Time) :
  _book (mkMsg action []) timestamp self = Raise IndexError self.
Proof. reflexivity. Qed.

(** C1. While the gate of a symbol is unset, a book message for it with
    action insert, update or delete returns without awaiting a callback;
    the books and the identifier index are the same dictionaries as before
    and every symbol's gate reads as before. *)
Theorem gated_message_is_discarded (self : Bitmex) (msg : Msg) (timestamp : Time)
    (data0 : Data) (rest : list Data) :
  msg_data msg = data0 :: rest →
  gate self (data_symbol data0) = false →
  msg_action msg = "insert" ∨ msg_action msg = "update" ∨ msg_action msg = "delete" →
  ∃ self', _book msg timestamp self = Ok [] self' ∧
    pairs self' = pairs self ∧ l2_book self' = l2_book self ∧
    order_id self' = order_id self ∧
    (∀ q s, levels_of self' q s = levels_of self q s) ∧
    (∀ q s, index_of self' q s = index_of self q s) ∧
    ∀ q, gate self' q = gate self q.
Proof.
  intros Hd Hg Ha.
  assert (String.eqb (msg_action msg) "partial" = false) as Hne
    by (destruct Ha as [-> | [-> | ->]]; reflexivity).
  unfold _book, bind, partial_received_get. rewrite Hd.
  apply gate_false in Hg as [Hg | Hg]; rewrite Hg; simpl; rewrite Hne; simpl.
  - exists self. by repeat split.
  - eexists. split; [reflexivity|]. repeat split; try done.
    intros q. unfold gate. simpl. destruct (decide (q = data_symbol data0)) as [->|Hq].
    + by rewrite lookup_insert_eq, Hg.
    + by rewrite lookup_insert_ne.
Qed.

Lemma gated_message_is_discarded_witness :
  ∃ self', _book (mkMsg "insert" [bid_entry 2 (Some (dec 99)) (Some (dec 3))]) (dec 0) engine0
             = Ok [] self' ∧
    pairs self' = pairs engine0 ∧ l2_book self' = l2_book engine0 ∧
    order_id self' = order_id engine0 ∧
    (∀ q s, levels_of self' q s = levels_of engine0 q s) ∧
    (∀ q s, index_of self' q s = index_of engine0 q s) ∧
    ∀ q, gate self' q = gate engine0 q.
Proof.
  apply (gated_message_is_discarded engine0 _ _ (bid_entry 2 (Some (dec 99)) (Some (dec 3))) []);
    [reflexivity | reflexivity | left; reflexivity].
Defined.

(** C6. After the snapshot, an update of an identifier that the index
    maps to [price] keeps that mapping, sets the size at [price] on the
    entry's side, leaves every other level of both sides, the index, the
    gates and all other symbols as they were, and delivers a delta that
    holds the one pair [(price, size)] on that side and nothing on the
    other side.  The entry's side is the bid side exactly when the entry
    says ["Buy"]. *)
Theorem update_changes_size_only (self : Bitmex) (data : Data) (timestamp : Time)
    (price size : Qc) :
  let pair := data_symbol data in
  let s := side_of data in
  gate self pair = true →
  has_book self pair →
  data_size data = Some size →
  index_of self pair s !! data_id data = Some price →
  ∃ self' book delta,
    _book (mkMsg "update" [data]) timestamp self =
      Ok [book_callback book L2_BOOK pair false delta timestamp timestamp] self' ∧
    (s = BID ↔ data_side data = "Buy") ∧
    delta_get delta s = [(price, size)] ∧
    delta_get delta (other_side s) = [] ∧
    l2_book self' !! pair = Some book ∧
    index_of self' pair s !! data_id data = Some price ∧
    levels_of self' pair s = <[price := size]> (levels_of self pair s) ∧
    levels_of self' pair (other_side s) = levels_of self pair (other_side s) ∧
    (∀ s', index_of self' pair s' = index_of self pair s') ∧
    (∀ q, q ≠ pair → l2_book self' !! q = l2_book self !! q ∧
                      order_id self' !! q = order_id self !! q) ∧
    partial_received self' = partial_received self ∧
    pairs self' = pairs self.
Proof.
  intros pair s Hg Hb Hs Hi.
  assert (ready self pair) as Hr.
  { split; [done|]. destruct (index_side_found _ _ _ _ _ Hi) as (sides & E & _).
    unfold has_index. rewrite E. eauto. }
  destruct (update_data_changed self pair data delta0 price size Hr Hs Hi) as (self' & E & C).
  destruct (ch_ready _ _ _ _ _ _ C) as [(book & Hbook & _) _].
  subst pair s. exists self', book, (delta_append delta0 (side_of data) (price, size)). split.
  { rewrite (book_gate_open self _ timestamp data []) by done.
    rewrite book_action_update, for_each_cons.
    erewrite bind_Ok; [|erewrite bind_Ok; [reflexivity|exact E]].
    by apply deliver_book_found. }
  split.
  { unfold side_of. destruct (String.eqb_spec (data_side data) "Buy"); by split. }
  split; [by destruct (side_of data)|]. split; [by destruct (side_of data)|].
  - split; [done|]. split; [by rewrite (ch_index _ _ _ _ _ _ C)|].
    split; [apply C|]. split; [apply C; by destruct (side_of data)|].
    split.
    { intros s'. destruct (decide (s' = side_of data)) as [->|Hne]; [apply C|by apply C]. }
    split; [|split; apply C].
    intros q Hq. split; by apply C.
Qed.

Lemma update_changes_size_only_witness :
  let data := bid_entry 1 None (Some (dec 7)) in
  ∃ self' book delta,
    _book (mkMsg "update" [data]) (dec 0) after_partial =
      Ok [book_callback book L2_BOOK "XBTUSD" false delta (dec 0) (dec 0)] self' ∧
    (BID = BID ↔ data_side data = "Buy") ∧
    delta_get delta BID = [(dec 100, dec 7)] ∧
    delta_get delta ASK = [] ∧
    l2_book self' !! "XBTUSD" = Some book ∧
    index_of self' "XBTUSD" BID !! 1 = Some (dec 100) ∧
    levels_of self' "XBTUSD" BID = <[dec 100 := dec 7]> (levels_of after_partial "XBTUSD" BID) ∧
    levels_of self' "XBTUSD" ASK = levels_of after_partial "XBTUSD" ASK ∧
    (∀ s', index_of self' "XBTUSD" s' = index_of after_partial "XBTUSD" s') ∧
    (∀ q, q ≠ "XBTUSD" → l2_book self' !! q = l2_book after_partial !! q ∧
                          order_id self' !! q = order_id after_partial !! q) ∧
    partial_received self' = partial_received after_partial ∧
    pairs self' = pairs after_partial.
Proof.
  intros data.
  apply (update_changes_size_only after_partial data (dec 0) (dec 100) (dec 7)).
  - reflexivity.
  - eexists. split; [reflexivity|]. intros []; eexists; reflexivity.
  - reflexivity.
  - reflexivity.
Defined.

(** ** What a handler leaves alone *)

Lemma frame_refl pair a : frame pair a a.
Proof. by constructor. Qed.

Lemma frame_trans pair a b c : frame pair a b → frame pair b c → frame pair a c.
Proof.
  intros Hab Hbc. constructor.
  - by rewrite (fr_pairs _ _ _ Hbc), (fr_pairs _ _ _ Hab).
  - intros q Hq. by rewrite (fr_partial _ _ _ Hbc), (fr_partial _ _ _ Hab).
  - intros q Hq. by rewrite (fr_book _ _ _ Hbc), (fr_book _ _ _ Hab).
  - intros q Hq. by rewrite (fr_index _ _ _ Hbc), (fr_index _ _ _ Hab).
Qed.

Section Keeps.
Context (R : Bitmex → Bitmex → Prop).
Hypothesis R_refl : ∀ a, R a a.
Hypothesis R_trans : ∀ a b c, R a b → R b c → R a c.

Lemma keeps_ret {A} (a : A) : keeps R (ret a).
Proof. intros self. apply R_refl. Qed.

Lemma keeps_raise {A} e : keeps R (@raise A e).
Proof. intros self. apply R_refl. Qed.

Lemma keeps_field {A} (o : option A) : keeps R (field o).
Proof. destruct o; [apply keeps_ret|apply keeps_raise]. Qed.

Lemma keeps_bind {A B} (m : M A) (k : A → M B) :
  keeps R m → (∀ a, keeps R (k a)) → keeps R (bind m k).
Proof.
  intros Hm Hk self. unfold bind. specialize (Hm self).
  destruct (m self) as [a self'|e self']; simpl in *; [|done].
  eapply R_trans; [done|apply Hk].
Qed.

Lemma keeps_for_each {A S} (body : A → S → M S) l acc :
  (∀ x acc', keeps R (body x acc')) → keeps R (for_each body l acc).
Proof.
  intros Hb. revert acc. induction l as [|x l IH]; intros acc; simpl.
  - apply keeps_ret.
  - apply keeps_bind; [apply Hb|apply IH].
Qed.
End Keeps.

Lemma level_set_frame pair s price size : keeps (frame pair) (level_set pair s price size).
Proof.
  intros self. unfold level_set. repeat case_match; simpl; try apply frame_refl.
  constructor; simpl; try done. intros sym Hsym. by rewrite lookup_insert_ne.
Qed.

Lemma level_del_frame pair s price : keeps (frame pair) (level_del pair s price).
Proof.
  intros self. unfold level_del. repeat case_match; simpl; try apply frame_refl.
  constructor; simpl; try done. intros sym Hsym. by rewrite lookup_insert_ne.
Qed.

Lemma index_side_frame pair s : keeps (frame pair) (index_side pair s).
Proof.
  intros self. unfold index_side. repeat case_match; simpl; try apply frame_refl.
  constructor; simpl; try done. intros sym Hsym. by rewrite lookup_insert_ne.
Qed.

Lemma index_side_store_frame pair s ids : keeps (frame pair) (index_side_store pair s ids).
Proof.
  intros self. unfold index_side_store. repeat case_match; simpl; try apply frame_refl.
  constructor; simpl; try done. intros sym Hsym. by rewrite lookup_insert_ne.
Qed.

Lemma partial_received_get_frame pair : keeps (frame pair) (partial_received_get pair).
Proof.
  intros self. unfold partial_received_get. repeat case_match; simpl; try apply frame_refl.
  constructor; simpl; try done. intros sym Hsym. by rewrite lookup_insert_ne.
Qed.

Lemma partial_received_set_frame pair b : keeps (frame pair) (partial_received_set pair b).
Proof.
  intros self. constructor; simpl; try done. intros sym Hsym. by rewrite lookup_insert_ne.
Qed.

Lemma deliver_book_frame pair forced timestamp delta :
  keeps (frame pair) (deliver_book pair forced timestamp delta).
Proof. intros self. unfold deliver_book. case_match; apply frame_refl. Qed.

Ltac keeps_frame :=
  repeat first
    [ apply keeps_bind; [apply frame_trans | | intros ? ]
    | apply keeps_ret; apply frame_refl
    | apply keeps_raise; apply frame_refl
    | apply keeps_field; apply frame_refl
    | apply level_set_frame | apply level_del_frame
    | apply index_side_frame | apply index_side_store_frame
    | apply partial_received_get_frame | apply partial_received_set_frame
    | apply deliver_book_frame
    | case_match ].

Lemma partial_data_frame pair data delta : keeps (frame pair) (partial_data pair data delta).
Proof. unfold partial_data, index_set. keeps_frame. Qed.

Lemma insert_data_frame pair data delta : keeps (frame pair) (insert_data pair data delta).
Proof. unfold insert_data, index_set. keeps_frame. Qed.

Lemma update_data_frame pair data delta : keeps (frame pair) (update_data pair data delta).
Proof. unfold update_data, index_set, index_get. keeps_frame. Qed.

Lemma delete_data_frame pair data delta : keeps (frame pair) (delete_data pair data delta).
Proof. unfold delete_data, index_del, index_get. keeps_frame. Qed.

Lemma book_action_frame msg timestamp pair forced delta :
  keeps (frame pair) (_book_action msg timestamp pair forced delta).
Proof.
  unfold _book_action.
  repeat case_match;
    try (apply keeps_bind;
         [apply frame_trans
         | apply keeps_for_each;
           [apply frame_refl | apply frame_trans
           | intros; first [apply partial_data_frame | apply insert_data_frame
                           | apply update_data_frame | apply delete_data_frame]]
         | intros; apply deliver_book_frame]).
  apply keeps_ret, frame_refl.
Qed.

Lemma book_frame msg timestamp data0 rest :
  msg_data msg = data0 :: rest →
  keeps (frame (data_symbol data0)) (_book msg timestamp).
Proof.
  intros Hd self. unfold _book. rewrite Hd.
  apply (keeps_bind _ (frame_trans _)).
  - apply partial_received_get_frame.
  - intros received. repeat case_match.
    + apply keeps_ret, frame_refl.
    + apply (keeps_bind _ (frame_trans _));
        [apply partial_received_set_frame|intros; apply book_action_frame].
    + apply book_action_frame.
Qed.

Lemma deliver_after_calls (m : M Delta) pair forced timestamp self c :
  c ∈ calls_of ((do delta <- m; deliver_book pair forced timestamp delta) self) →
  ∃ book delta,
    c = book_callback book L2_BOOK pair forced delta timestamp timestamp ∧
    l2_book (state_of ((do delta <- m; deliver_book pair forced timestamp delta) self))
      !! pair = Some book.
Proof.
  unfold bind. destruct (m self) as [delta self1|e self1]; simpl.
  2: { intros H. by apply elem_of_nil in H. }
  unfold deliver_book. destruct (l2_book self1 !! pair) as [book|] eqn:Hb; simpl.
  2: { intros H. by apply elem_of_nil in H. }
  intros H. apply list_elem_of_singleton in H. subst. eauto.
Qed.

Lemma book_action_calls msg timestamp pair forced delta self c :
  c ∈ calls_of (_book_action msg timestamp pair forced delta self) →
  ∃ book delta',
    c = book_callback book L2_BOOK pair forced delta' timestamp timestamp ∧
    l2_book (state_of (_book_action msg timestamp pair forced delta self)) !! pair = Some book.
Proof.
  unfold _book_action. repeat case_match; try apply deliver_after_calls.
  simpl. intros Hin. by apply elem_of_nil in Hin.
Qed.

(** The callbacks of [_book]: at most one [book_callback], for the symbol
    of the first entry, with the book that symbol has when the handler
    returns, and with the handler's [timestamp] argument in both
    timestamp positions. *)
Lemma book_calls msg timestamp self c :
  c ∈ calls_of (_book msg timestamp self) →
  ∃ data0 rest book forced delta,
    msg_data msg = data0 :: rest ∧
    c = book_callback book L2_BOOK (data_symbol data0) forced delta timestamp timestamp ∧
    l2_book (state_of (_book msg timestamp self)) !! data_symbol data0 = Some book.
Proof.
  unfold _book. destruct (msg_data msg) as [|data0 rest] eqn:Hd; simpl.
  { intros H. by apply elem_of_nil in H. }
  intros Hc. exists data0, rest. revert Hc.
  unfold bind, partial_received_get, partial_received_set.
  destruct (partial_received self !! data_symbol data0) as [[]|]; simpl;
    destruct (String.eqb (msg_action msg) "partial"); simpl; intros Hc;
    try (by apply elem_of_nil in Hc);
    destruct (book_action_calls _ _ _ _ _ _ _ Hc) as (book & delta & ? & ?); eauto 6.
Qed.

(** ** The symbol of a book message *)

Lemma for_each_relabel {S} (body : Data → S → M S) (relabel : Data → Data) l acc self :
  (∀ data acc', body (relabel data) acc' = body data acc') →
  for_each body (map relabel l) acc self = for_each body l acc self.
Proof.
  intros Hb. revert acc self. induction l as [|x l IH]; intros acc self; [done|].
  simpl. unfold bind. rewrite Hb. destruct (body x acc self); [apply IH|done].
Qed.

Lemma book_action_relabel action data0 rest (relabel : Data → string)
    timestamp pair forced delta self :
  _book_action (mkMsg action (data0 :: map (λ d, with_symbol (relabel d) d) rest))
    timestamp pair forced delta self =
  _book_action (mkMsg action (data0 :: rest)) timestamp pair forced delta self.
Proof.
  unfold _book_action. simpl.
  repeat case_match; try done; unfold bind;
    (destruct (_ pair data0 delta self); [|done]);
    by rewrite (for_each_relabel _ (λ d, with_symbol (relabel d) d)).
Qed.

(** ** Snapshots *)

Lemma written_untouched s l lv price :
  (∀ d, d ∈ l → side_of d = s → data_price d ≠ Some price) →
  foldl (write_level s) lv l !! price = lv !! price.
Proof.
  revert lv. induction l as [|x l IH]; intros lv Hl; [done|].
  simpl. rewrite IH.
  - unfold write_level. destruct (data_price x) as [p|] eqn:Hp; [|done].
    destruct (data_size x); [|done]. case_decide as Hs; [|done].
    apply lookup_insert_ne. intros ->. eapply Hl; [left|done|done].
  - intros d Hd. apply Hl. by right.
Qed.

Lemma written_last s l1 d l2 lv price size :
  side_of d = s → data_price d = Some price → data_size d = Some size →
  (∀ d', d' ∈ l2 → side_of d' = s → data_price d' ≠ Some price) →
  foldl (write_level s) lv (l1 ++ d :: l2) !! price = Some size.
Proof.
  intros Hs Hp Hz Hl2. rewrite foldl_app. simpl.
  rewrite written_untouched by done.
  unfold write_level. rewrite Hp, Hz, decide_True by done. apply lookup_insert_eq.
Qed.

(** The last element of a list that satisfies a decidable property. *)
Lemma last_such {A} (P : A → Prop) `{∀ x, Decision (P x)} (l : list A) :
  (∃ x, x ∈ l ∧ P x) →
  ∃ l1 x l2, l = l1 ++ x :: l2 ∧ P x ∧ ∀ y, y ∈ l2 → ¬ P y.
Proof.
  induction l as [|a l IH]; intros (x & Hx & HP).
  - by apply elem_of_nil in Hx.
  - destruct (decide (Exists P l)) as [He|He].
    + apply list.Exists_exists in He. destruct (IH He) as (l1 & y & l2 & -> & Hy & Hl2).
      by exists (a :: l1), y, l2.
    + exists [], a, l. split; [done|]. split.
      * apply elem_of_cons in Hx as [->|Hx]; [done|].
        exfalso. apply He, list.Exists_exists. eauto.
      * intros y Hy HPy. apply He, list.Exists_exists. eauto.
Qed.

Lemma changed_frame pair s lv ids a b : changed pair s lv ids a b → frame pair a b.
Proof.
  intros C. constructor; try apply C.
  intros q Hq. by rewrite (ch_partial _ _ _ _ _ _ C).
Qed.

Lemma partial_loop pair l self delta :
  ready self pair → Forall priced l →
  ∃ self', for_each (partial_data pair) l delta self = Ok delta self' ∧
    ready self' pair ∧ frame pair self self' ∧
    partial_received self' = partial_received self ∧
    ∀ s, levels_of self' pair s = foldl (write_level s) (levels_of self pair s) l.
Proof.
  revert self. induction l as [|d l IH]; intros self Hr Hl.
  - exists self. split; [done|]. split; [done|]. split; [apply frame_refl|]. by split.
  - apply list.Forall_cons in Hl as [[[price Hp] [size Hz]] Hl].
    destruct (partial_data_changed self pair d delta price size Hr Hp Hz) as (self1 & E1 & C1).
    destruct (IH self1 (ch_ready _ _ _ _ _ _ C1) Hl) as (self' & E & Hr' & Hf & Hpr & Hlv).
    exists self'. split; [|split; [done|split; [|split]]].
    + rewrite for_each_cons. by erewrite bind_Ok.
    + eapply frame_trans; [by eapply changed_frame|done].
    + by rewrite Hpr, (ch_partial _ _ _ _ _ _ C1).
    + intros s. rewrite Hlv. simpl. f_equal.
      unfold write_level. rewrite Hp, Hz. case_decide as Hs.
      * subst s. apply C1.
      * apply C1. congruence.
Qed.

Lemma book_action_when_partial msg timestamp pair forced delta :
  msg_action msg = "partial" →
  _book_action msg timestamp pair forced delta =
  (do delta' <- for_each (partial_data pair) (msg_data msg) delta;
   deliver_book pair forced timestamp delta').
Proof. intros Ha. unfold _book_action. by rewrite Ha. Qed.

Lemma partial_action_applied self msg timestamp pair forced :
  msg_action msg = "partial" → ready self pair → Forall priced (msg_data msg) →
  ∃ self' book,
    _book_action msg timestamp pair forced delta0 self =
      Ok [book_callback book L2_BOOK pair forced delta0 timestamp timestamp] self' ∧
    l2_book self' !! pair = Some book ∧
    frame pair self self' ∧
    partial_received self' = partial_received self ∧
    ∀ s, levels_of self' pair s =
         foldl (write_level s) (levels_of self pair s) (msg_data msg).
Proof.
  intros Ha Hr Hl.
  destruct (partial_loop pair (msg_data msg) self delta0 Hr Hl)
    as (self' & E & [(book & Hb & _) _] & Hf & Hpr & Hlv).
  exists self', book. split; [|done].
  rewrite book_action_when_partial by done.
  erewrite bind_Ok by exact E. by apply deliver_book_found.
Qed.

(** A snapshot for a ready symbol, whatever the gate: the gate is set
    afterwards, [forced] tells whether it was unset before, and each side
    of the book is the one before with the entries written over it in
    order. *)
Lemma partial_message_applied self msg timestamp data0 rest :
  msg_action msg = "partial" → msg_data msg = data0 :: rest →
  ready self (data_symbol data0) → Forall priced (msg_data msg) →
  ∃ self' book,
    _book msg timestamp self =
      Ok [book_callback book L2_BOOK (data_symbol data0) (negb (gate self (data_symbol data0)))
            delta0 timestamp timestamp] self' ∧
    l2_book self' !! data_symbol data0 = Some book ∧
    gate self' (data_symbol data0) = true ∧
    frame (data_symbol data0) self self' ∧
    ∀ s, levels_of self' (data_symbol data0) s =
         foldl (write_level s) (levels_of self (data_symbol data0) s) (msg_data msg).
Proof.
  intros Ha Hd Hr Hl. destruct (gate self (data_symbol data0)) eqn:Hg; simpl.
  - rewrite (book_gate_open self msg timestamp data0 rest) by done.
    destruct (partial_action_applied self msg timestamp (data_symbol data0) false Ha Hr Hl)
      as (self' & book & E & Hb & Hf & Hpr & Hlv).
    exists self', book. split; [done|]. split; [done|]. split; [|by split].
    unfold gate in *. by rewrite Hpr.
  - rewrite (book_gate_closed self msg timestamp data0 rest) by done.
    set (self1 := set_partial_received _ self).
    destruct (partial_action_applied self1 msg timestamp (data_symbol data0) true Ha Hr Hl)
      as (self' & book & E & Hb & Hf & Hpr & Hlv).
    exists self', book. split; [done|]. split; [done|]. split; [|split; [|done]].
    + unfold gate. rewrite Hpr. simpl. by rewrite lookup_insert_eq.
    + constructor; try apply Hf.
      intros q Hq. rewrite (fr_partial _ _ _ Hf) by done. simpl. by rewrite lookup_insert_ne.
Qed.

(** C2, as the code has it. A snapshot for a symbol that has its book and
    index, with entries that carry price and size, sets the gate and
    delivers one [book_callback] with an empty delta whose [forced] flag
    tells whether the gate was unset before.  On each side, a price named
    by the snapshot holds the size of the last entry that names it, and a
    price the snapshot does not name keeps the level it had: levels from
    before the snapshot stay. *)
Theorem snapshot_writes_over_book (self : Bitmex) (msg : Msg) (timestamp : Time)
    (data0 : Data) (rest : list Data) :
  let pair := data_symbol data0 in
  msg_action msg = "partial" →
  msg_data msg = data0 :: rest →
  ready self pair →
  Forall priced (msg_data msg) →
  ∃ self' book,
    _book msg timestamp self =
      Ok [book_callback book L2_BOOK pair (negb (gate self pair)) delta0
            timestamp timestamp] self' ∧
    l2_book self' !! pair = Some book ∧
    gate self' pair = true ∧
    (∀ s l1 d l2 price size,
       msg_data msg = l1 ++ d :: l2 →
       side_of d = s → data_price d = Some price → data_size d = Some size →
       (∀ d', d' ∈ l2 → side_of d' = s → data_price d' ≠ Some price) →
       levels_of self' pair s !! price = Some size) ∧
    (∀ s price,
       (∀ d, d ∈ msg_data msg → side_of d = s → data_price d ≠ Some price) →
       levels_of self' pair s !! price = levels_of self pair s !! price).
Proof.
  intros pair Ha Hd Hr Hl.
  destruct (partial_message_applied self msg timestamp data0 rest Ha Hd Hr Hl)
    as (self' & book & E & Hb & Hg & _ & Hlv).
  exists self', book. split; [done|]. split; [done|]. split; [done|]. split.
  - intros s l1 d l2 price size Hsplit Hs Hp Hz Hl2.
    subst pair. rewrite Hlv, Hsplit. by apply written_last.
  - intros s price Hno. subst pair. rewrite Hlv. by apply written_untouched.
Qed.

Lemma engine0_ready : ready engine0 "XBTUSD".
Proof.
  split.
  - eexists. split; [reflexivity|]. intros []; eexists; reflexivity.
  - eexists. reflexivity.
Defined.

Lemma snapshot1_priced : Forall priced (msg_data snapshot1).
Proof. repeat constructor; eexists; reflexivity. Defined.

Lemma snapshot_writes_over_book_witness :
  ∃ self' book,
    _book snapshot1 (dec 0) engine0 =
      Ok [book_callback book L2_BOOK "XBTUSD" (negb (gate engine0 "XBTUSD")) delta0
            (dec 0) (dec 0)] self' ∧
    l2_book self' !! "XBTUSD" = Some book ∧
    gate self' "XBTUSD" = true ∧
    (∀ s l1 d l2 price size,
       msg_data snapshot1 = l1 ++ d :: l2 →
       side_of d = s → data_price d = Some price → data_size d = Some size →
       (∀ d', d' ∈ l2 → side_of d' = s → data_price d' ≠ Some price) →
       levels_of self' "XBTUSD" s !! price = Some size) ∧
    (∀ s price,
       (∀ d, d ∈ msg_data snapshot1 → side_of d = s → data_price d ≠ Some price) →
       levels_of self' "XBTUSD" s !! price = levels_of engine0 "XBTUSD" s !! price).
Proof.
  apply (snapshot_writes_over_book engine0 snapshot1 (dec 0)
           (bid_entry 1 (Some (dec 100)) (Some (dec 5))) []).
  - reflexivity.
  - reflexivity.
  - exact engine0_ready.
  - exact snapshot1_priced.
Defined.

(** A snapshot that arrives while the gate is already set is delivered
    with [forced = False], and the level at 100 from before it is still in
    the book although the snapshot does not name it. *)
Lemma repeated_snapshot_keeps_levels :
  let r := _book (mkMsg "partial" [bid_entry 2 (Some (dec 99)) (Some (dec 3))])
             (dec 0) after_partial in
  gate after_partial "XBTUSD" = true ∧
  map call_forced (calls_of r) = [Some false] ∧
  levels_of (state_of r) "XBTUSD" BID !! dec 99 = Some (dec 3) ∧
  levels_of (state_of r) "XBTUSD" BID !! dec 100 = Some (dec 5).
Proof. repeat split; reflexivity. Qed.

(** C8. Resetting twice gives the state that resetting once gives, and a
    snapshot for a configured symbol right after a reset sets the gate,
    is delivered with [forced = True] and leaves on each side exactly the
    levels its entries name, each price with the size of the last entry
    that names it. *)
Theorem reset_idempotent_then_snapshot (self : Bitmex) (msg : Msg) (timestamp : Time)
    (data0 : Data) (rest : list Data) :
  let pair := data_symbol data0 in
  msg_action msg = "partial" →
  msg_data msg = data0 :: rest →
  pair ∈ pairs self →
  Forall priced (msg_data msg) →
  _reset (_reset self) = _reset self ∧
  ∃ self' book,
    _book msg timestamp (_reset self) =
      Ok [book_callback book L2_BOOK pair true delta0 timestamp timestamp] self' ∧
    l2_book self' !! pair = Some book ∧
    gate self' pair = true ∧
    ∀ s price size,
      levels_of self' pair s !! price = Some size ↔
      ∃ l1 d l2,
        msg_data msg = l1 ++ d :: l2 ∧
        side_of d = s ∧ data_price d = Some price ∧ data_size d = Some size ∧
        ∀ d', d' ∈ l2 → side_of d' = s → data_price d' ≠ Some price.
Proof.
  intros pair Ha Hd Hin Hl. split; [apply reset_idempotent|].
  assert (ready (_reset self) pair) as Hr.
  { split.
    - exists new_book. rewrite reset_l2_book, decide_True by done.
      split; [done|]. intros []; eexists; reflexivity.
    - unfold has_index. rewrite reset_order_id, decide_True by done. eauto. }
  destruct (partial_message_applied (_reset self) msg timestamp data0 rest Ha Hd Hr Hl)
    as (self' & book & E & Hb & Hg & _ & Hlv).
  rewrite reset_gate in E. exists self', book.
  split; [done|]. split; [done|]. split; [done|].
  intros s price size. subst pair. rewrite Hlv, reset_levels_of by done. split.
  - intros Hlook.
    destruct (decide (Exists (λ d, side_of d = s ∧ data_price d = Some price) (msg_data msg)))
      as [Hex|Hno]; rewrite list.Exists_exists in *.
    + destruct (last_such _ _ Hex) as (l1 & d & l2 & Hsplit & [Hs Hp] & Hl2).
      assert (is_Some (data_size d)) as [size' Hz].
      { eapply (proj1 (list.Forall_forall _ _) Hl d). rewrite Hsplit.
        apply elem_of_app. right. left. }
      assert (∀ d', d' ∈ l2 → side_of d' = s → data_price d' ≠ Some price) as Hl2'.
      { intros d' Hd' Hs' Hp'. by apply (Hl2 d' Hd'). }
      rewrite Hsplit, (written_last s l1 d l2 ∅ price size' Hs Hp Hz Hl2') in Hlook.
      simplify_eq. by exists l1, d, l2.
    + rewrite written_untouched in Hlook; [by rewrite lookup_empty in Hlook|].
      intros d Hin' Hs Hp. apply Hno. eauto.
  - intros (l1 & d & l2 & Hsplit & Hs & Hp & Hz & Hl2).
    rewrite Hsplit. by apply written_last.
Qed.

Lemma reset_idempotent_then_snapshot_witness :
  let self := mkBitmex ["XBTUSD"] ∅ ∅ ∅ in
  _reset (_reset self) = _reset self ∧
  ∃ self' book,
    _book snapshot1 (dec 0) (_reset self) =
      Ok [book_callback book L2_BOOK "XBTUSD" true delta0 (dec 0) (dec 0)] self' ∧
    l2_book self' !! "XBTUSD" = Some book ∧
    gate self' "XBTUSD" = true ∧
    ∀ s price size,
      levels_of self' "XBTUSD" s !! price = Some size ↔
      ∃ l1 d l2,
        msg_data snapshot1 = l1 ++ d :: l2 ∧
        side_of d = s ∧ data_price d = Some price ∧ data_size d = Some size ∧
        ∀ d', d' ∈ l2 → side_of d' = s → data_price d' ≠ Some price.
Proof.
  intros self.
  apply (reset_idempotent_then_snapshot self snapshot1 (dec 0)
           (bid_entry 1 (Some (dec 100)) (Some (dec 5))) []).
  - reflexivity.
  - reflexivity.
  - left.
  - exact snapshot1_priced.
Defined.

(** ** Timestamps of the delivered events *)

(** C7, as the code has it. Every callback of a data message carries the
    handler's [timestamp] argument, the local receipt time, as receipt
    timestamp.  For the trade, quote, funding and instrument tables the
    events are, one by one and in order, those of the entries that deliver
    one, and the event timestamp of each is the normalized venue timestamp
    of its own entry; for the book table it is the receipt time again. *)
Theorem call_timestamps (timestamp_normalize : string → string → Time)
    (msg : Table) (timestamp : Time) (self : Bitmex) :
  let calls := calls_of (message_handler timestamp_normalize msg timestamp self) in
  Forall (λ c, call_receipt_timestamp c = timestamp) calls ∧
  if is_book msg then Forall (λ c, call_timestamp c = timestamp) calls
  else Forall2 (λ c e, event_of c e ∧
                       call_timestamp c = timestamp_normalize BITMEX (entry_timestamp e))
         calls (event_entries msg).
Proof.
  destruct msg as [data|msg|data|data|data|table]; simpl.
  - split.
    + apply list.Forall_forall. intros c Hc. unfold _trade in Hc.
      by apply list_elem_of_fmap in Hc as (d & -> & Hd).
    + unfold _trade. induction data as [|d data IH]; constructor; [done|exact IH].
  - split; apply list.Forall_forall; intros c Hc;
      by destruct (book_calls _ _ _ _ Hc) as (d & r & book & forced & delta & _ & -> & _).
  - split.
    + apply list.Forall_forall. intros c Hc. unfold _funding in Hc.
      by apply list_elem_of_fmap in Hc as (d & -> & Hd).
    + unfold _funding. induction data as [|d data IH]; constructor; [done|exact IH].
  - split.
    + apply list.Forall_forall. intros c Hc. unfold _instrument in Hc.
      apply list_elem_of_omap in Hc as (d & Hd & Hc).
      by destruct (instrument_openInterest d); simplify_eq.
    + unfold _instrument. induction data as [|d data IH]; [constructor|].
      cbn [omap list_omap]. rewrite filter_cons.
      destruct (instrument_openInterest d) as [oi|] eqn:E.
      * rewrite decide_True by eauto. constructor; [simpl; auto|exact IH].
      * rewrite decide_False by (by intros [? ?]). exact IH.
  - split.
    + apply list.Forall_forall. intros c Hc. unfold _ticker in Hc.
      by apply list_elem_of_fmap in Hc as (d & -> & Hd).
    + unfold _ticker. induction data as [|d data IH]; constructor; [done|exact IH].
  - split; constructor.
Qed.

(** Two trades with different venue times in one message: each event has
    the time of its own entry. *)
Lemma call_timestamps_witness :
  let msg := trade [trade1; trade2] in
  let calls := calls_of (message_handler text_clock msg (dec 7) engine0) in
  Forall (λ c, call_receipt_timestamp c = dec 7) calls ∧
  Forall2 (λ c e, event_of c e ∧
                  call_timestamp c = text_clock BITMEX (entry_timestamp e))
    calls (event_entries msg).
Proof.
  exact (call_timestamps text_clock (trade [trade1; trade2]) (dec 7) engine0).
Defined.

(** The same book message handled at two receipt times: the event
    timestamp of the delivered update is the receipt time each time. *)
Lemma book_update_timestamp_is_receipt_time :
  map call_timestamp (calls_of (_book snapshot1 (dec 1) engine0)) = [dec 1] ∧
  map call_receipt_timestamp (calls_of (_book snapshot1 (dec 1) engine0)) = [dec 1] ∧
  map call_timestamp (calls_of (_book snapshot1 (dec 2) engine0)) = [dec 2] ∧
  map call_receipt_timestamp (calls_of (_book snapshot1 (dec 2) engine0)) = [dec 2].
Proof. repeat split; reflexivity. Qed.

(** ** Identifiers the index does not hold *)

(** C4, as the code has it. After the snapshot, an update or delete
    message with an entry whose identifier is not in the index, once the
    entries before it are applied, raises [KeyError] and awaits no
    callback.  The book and the index are as the entries before the
    failing one left them; when the failing entry is the first, they are
    as before the message. *)
Theorem unknown_identifier_raises (self self1 : Bitmex) (action : string)
    (l1 : list Data) (d : Data) (l2 : list Data) (delta1 : Delta) (timestamp : Time) :
  let pair := data_symbol (hd d l1) in
  gate self pair = true →
  (action = "update" ∧ for_each (update_data pair) l1 delta0 self = Ok delta1 self1) ∨
  (action = "delete" ∧ for_each (delete_data pair) l1 delta0 self = Ok delta1 self1) →
  index_of self1 pair (side_of d) !! data_id d = None →
  ∃ self',
    _book (mkMsg action (l1 ++ d :: l2)) timestamp self = Raise KeyError self' ∧
    l2_book self' = l2_book self1 ∧
    (∀ q s, index_of self' q s = index_of self1 q s) ∧
    partial_received self' = partial_received self1 ∧
    (l1 = [] → l2_book self' = l2_book self ∧ ∀ q s, index_of self' q s = index_of self q s).
Proof.
  intros pair Hg Hpre Hi.
  assert (∃ rest, l1 ++ d :: l2 = hd d l1 :: rest) as [rest Hd]
    by (destruct l1; eexists; reflexivity).
  rewrite (book_gate_open self _ timestamp (hd d l1) rest) by done.
  fold pair.
  assert (∃ self', _book_action (mkMsg action (l1 ++ d :: l2)) timestamp pair false delta0 self
                   = Raise KeyError self' ∧
            l2_book self' = l2_book self1 ∧
            (∀ q s, index_of self' q s = index_of self1 q s) ∧
            partial_received self' = partial_received self1) as (self' & E & Hb & Hx & Hp).
  { destruct Hpre as [[-> Hpre] | [-> Hpre]].
    - destruct (update_data_missing self1 pair d delta1 Hi) as (self' & E & _ & Hb & Hp & Hx).
      exists self'. split; [|done].
      rewrite book_action_update. apply bind_Raise.
      rewrite for_each_app. erewrite bind_Ok by exact Hpre.
      rewrite for_each_cons. by apply bind_Raise.
    - destruct (delete_data_missing self1 pair d delta1 Hi) as (self' & E & _ & Hb & Hp & Hx).
      exists self'. split; [|done].
      rewrite book_action_delete. apply bind_Raise.
      rewrite for_each_app. erewrite bind_Ok by exact Hpre.
      rewrite for_each_cons. by apply bind_Raise. }
  exists self'. split; [done|]. split; [done|]. split; [done|]. split; [done|].
  intros ->. destruct Hpre as [[_ Hpre] | [_ Hpre]]; simpl in Hpre;
    unfold ret in Hpre; simplify_eq; done.
Qed.

Lemma unknown_identifier_raises_witness :
  let d := bid_entry 99 None (Some (dec 1)) in
  ∃ self',
    _book (mkMsg "update" ([] ++ d :: [])) (dec 0) after_partial = Raise KeyError self' ∧
    l2_book self' = l2_book after_partial ∧
    (∀ q s, index_of self' q s = index_of after_partial q s) ∧
    partial_received self' = partial_received after_partial ∧
    (@nil Data = [] → l2_book self' = l2_book after_partial ∧
                      ∀ q s, index_of self' q s = index_of after_partial q s).
Proof.
  intros d.
  apply (unknown_identifier_raises after_partial after_partial "update" [] d [] delta0 (dec 0)).
  - reflexivity.
  - left. split; reflexivity.
  - reflexivity.
Defined.

(** An update whose second entry names an unknown identifier raises, and
    the size that its first entry wrote at 100 is in the book. *)
Lemma unknown_identifier_after_applied_entry :
  let msg := mkMsg "update" [bid_entry 1 None (Some (dec 7)); bid_entry 99 None (Some (dec 1))] in
  let r := _book msg (dec 0) after_partial in
  gate after_partial "XBTUSD" = true ∧
  index_of after_partial "XBTUSD" BID !! 99 = None ∧
  r = Raise KeyError (state_of r) ∧
  levels_of after_partial "XBTUSD" BID !! dec 100 = Some (dec 5) ∧
  levels_of (state_of r) "XBTUSD" BID !! dec 100 = Some (dec 7).
Proof. repeat split; reflexivity. Qed.

(** ** Two identifiers at one price *)

(** After a snapshot with two identifiers at price 100 and the delete of
    the first, the second is in the index at 100 and the book has no level
    there; its delete raises [KeyError] and awaits no callback. *)
Lemma delete_of_shared_price_raises :
  let r := _book (mkMsg "delete" [bid_entry 2 None None]) (dec 0) after_shared_delete in
  gate after_shared_delete "XBTUSD" = true ∧
  index_of after_shared_delete "XBTUSD" BID !! 2 = Some (dec 100) ∧
  levels_of after_shared_delete "XBTUSD" BID !! dec 100 = None ∧
  r = Raise KeyError (state_of r) ∧
  calls_of r = [].
Proof. repeat split; reflexivity. Qed.

(** ** Index consistency over a sequence of messages *)

Lemma NoDup_fmap_eq {A B} (f : A → B) (l : list A) x y :
  NoDup (f <$> l) → x ∈ l → y ∈ l → f x = f y → x = y.
Proof.
  induction l as [|a l IH]; intros Hnd Hx Hy Hf.
  - by apply elem_of_nil in Hx.
  - rewrite fmap_cons in Hnd. apply list.NoDup_cons in Hnd as [Ha Hnd].
    apply elem_of_cons in Hx as [->|Hx]; apply elem_of_cons in Hy as [->|Hy].
    + done.
    + exfalso. apply Ha. rewrite Hf. by apply list_elem_of_fmap_2.
    + exfalso. apply Ha. rewrite <-Hf. by apply list_elem_of_fmap_2.
    + by apply IH.
Qed.

Lemma unshared_prices_unshared self : unshared_prices self = true → unshared self.
Proof.
  intros H%bool_decide_eq_true_1 pair s i j price Hi Hj.
  destruct (index_side_found _ _ _ _ _ Hi) as (sides & Hs & Hids).
  pose proof (map_Forall_lookup_1 _ _ _ _ (map_Forall_lookup_1 _ _ _ _ H Hs) Hids) as Hnd.
  simpl in Hnd. apply elem_of_map_to_list in Hi, Hj.
  by pose proof (NoDup_fmap_eq snd _ _ _ Hnd Hi Hj eq_refl) as [= ->].
Qed.

Lemma reset_booked self : booked (_reset self).
Proof.
  intros q [sides Hs]. rewrite reset_order_id in Hs. case_decide; [|done].
  exists new_book. rewrite reset_l2_book, decide_True by done.
  split; [done|]. intros []; eexists; reflexivity.
Qed.

Lemma reset_index_consistent self : index_consistent (_reset self).
Proof. intros pair s oid price H. by rewrite reset_index_of, lookup_empty in H. Qed.

Lemma changed_booked pair s lv ids a b : changed pair s lv ids a b → booked a → booked b.
Proof.
  intros C Ha q Hq. destruct (decide (q = pair)) as [->|Hne]; [apply C|].
  unfold has_index, has_book in *.
  rewrite (ch_index_other _ _ _ _ _ _ C) in Hq by done.
  rewrite (ch_book_other _ _ _ _ _ _ C) by done. by apply Ha.
Qed.

Lemma changed_consistent pair s lv ids a b :
  changed pair s lv ids a b → index_consistent a →
  (∀ i p, ids !! i = Some p → is_Some (lv !! p)) →
  index_consistent b.
Proof.
  intros C Ha H q s' i p Hi. destruct (decide (q = pair)) as [->|Hq].
  - destruct (decide (s' = s)) as [->|Hs].
    + rewrite (ch_index _ _ _ _ _ _ C) in Hi. rewrite (ch_levels _ _ _ _ _ _ C). by eapply H.
    + rewrite (ch_index_side _ _ _ _ _ _ C) in Hi by done.
      rewrite (ch_levels_side _ _ _ _ _ _ C) by done. by eapply Ha.
  - rewrite (changed_index_other _ _ _ _ _ _ _ _ C) in Hi by done.
    rewrite (changed_levels_other _ _ _ _ _ _ _ _ C) by done. by eapply Ha.
Qed.

Lemma changed_unshared pair s lv ids a b :
  changed pair s lv ids a b → unshared a →
  (∀ i j p, ids !! i = Some p → ids !! j = Some p → i = j) →
  unshared b.
Proof.
  intros C Ha H q s' i j p Hi Hj. destruct (decide (q = pair)) as [->|Hq].
  - destruct (decide (s' = s)) as [->|Hs].
    + rewrite (ch_index _ _ _ _ _ _ C) in Hi, Hj. by eapply H.
    + rewrite (ch_index_side _ _ _ _ _ _ C) in Hi, Hj by done. by eapply Ha.
  - rewrite (changed_index_other _ _ _ _ _ _ _ _ C) in Hi, Hj by done. by eapply Ha.
Qed.

(** An entry that returns found the index of its symbol. *)
Lemma index_side_has_index pair s ids self self' :
  index_side pair s self = Ok ids self' → has_index self pair.
Proof.
  unfold index_side, has_index. destruct (order_id self !! pair); [eauto|done].
Qed.

Lemma level_set_order_id pair s price size self self' :
  level_set pair s price size self = Ok tt self' → order_id self' = order_id self.
Proof. unfold level_set. repeat case_match; intros; simplify_eq; done. Qed.

Lemma written_entry_has_index pair data delta delta' self self' :
  partial_data pair data delta self = Ok delta' self' ∨
  insert_data pair data delta self = Ok delta' self' →
  has_index self pair.
Proof.
  intros [E|E]; revert E; unfold partial_data, insert_data, field, index_set;
    unfold bind at 1 2 3; unfold ret, raise;
    (destruct (data_price data); [|done]); (destruct (data_size data); [|done]);
    (destruct (level_set _ _ _ _ self) as [[] self1|] eqn:E1; [|done]);
    apply level_set_order_id in E1;
    unfold bind; (destruct (index_side _ _ self1) eqn:E2; [|done]);
    apply index_side_has_index in E2; unfold has_index in *; by rewrite <-E1.
Qed.

(** What an entry that returned has done. *)
Lemma partial_data_inv pair data delta delta' self self' :
  booked self → partial_data pair data delta self = Ok delta' self' →
  ∃ price size,
    changed pair (side_of data)
      (<[price := size]> (levels_of self pair (side_of data)))
      (<[data_id data := price]> (index_of self pair (side_of data))) self self'.
Proof.
  intros Hb E.
  assert (ready self pair) as Hr.
  { assert (has_index self pair) by (eapply written_entry_has_index; eauto). split; auto. }
  destruct (data_price data) as [price|] eqn:Hp.
  2: { unfold partial_data, bind, field in E. by rewrite Hp in E. }
  destruct (data_size data) as [size|] eqn:Hz.
  2: { unfold partial_data, bind, field in E. by rewrite Hp, Hz in E. }
  destruct (partial_data_changed self pair data delta price size Hr Hp Hz) as (s2 & E2 & C).
  rewrite E in E2. simplify_eq. eauto.
Qed.

Lemma insert_data_inv pair data delta delta' self self' :
  booked self → insert_data pair data delta self = Ok delta' self' →
  ∃ price size,
    changed pair (side_of data)
      (<[price := size]> (levels_of self pair (side_of data)))
      (<[data_id data := price]> (index_of self pair (side_of data))) self self'.
Proof.
  intros Hb E.
  assert (ready self pair) as Hr.
  { assert (has_index self pair) by (eapply written_entry_has_index; eauto). split; auto. }
  destruct (data_price data) as [price|] eqn:Hp.
  2: { unfold insert_data, bind, field in E. by rewrite Hp in E. }
  destruct (data_size data) as [size|] eqn:Hz.
  2: { unfold insert_data, bind, field in E. by rewrite Hp, Hz in E. }
  destruct (insert_data_changed self pair data delta price size Hr Hp Hz) as (s2 & E2 & C).
  rewrite E in E2. simplify_eq. eauto.
Qed.

Lemma indexed_ready self pair s oid price :
  booked self → index_of self pair s !! oid = Some price → ready self pair.
Proof.
  intros Hb Hi. destruct (index_side_found _ _ _ _ _ Hi) as (sides & E & _).
  assert (has_index self pair) by (unfold has_index; rewrite E; eauto).
  split; auto.
Qed.

Lemma update_data_inv pair data delta delta' self self' :
  booked self → update_data pair data delta self = Ok delta' self' →
  ∃ price size,
    index_of self pair (side_of data) !! data_id data = Some price ∧
    changed pair (side_of data)
      (<[price := size]> (levels_of self pair (side_of data)))
      (index_of self pair (side_of data)) self self'.
Proof.
  intros Hb E.
  destruct (index_of self pair (side_of data) !! data_id data) as [price|] eqn:Hi.
  2: { destruct (update_data_missing self pair data delta Hi) as (s2 & E2 & _). congruence. }
  destruct (data_size data) as [size|] eqn:Hz.
  2: { unfold update_data, bind, field in E. by rewrite Hz in E. }
  destruct (update_data_changed self pair data delta price size
              (indexed_ready _ _ _ _ _ Hb Hi) Hz Hi) as (s2 & E2 & C).
  rewrite E in E2. simplify_eq. eauto.
Qed.

(** A delete of an identifier whose price has no level removes the
    identifier and raises at the removal of the level. *)
Lemma delete_data_stale pair data delta self price :
  has_book self pair →
  index_of self pair (side_of data) !! data_id data = Some price →
  levels_of self pair (side_of data) !! price = None →
  ∃ self', delete_data pair data delta self = Raise KeyError self'.
Proof.
  intros Hb Hi Hl.
  destruct (index_del_changed self pair (side_of data) (data_id data) price Hb Hi)
    as (s1 & E1 & C1).
  exists s1. unfold delete_data, bind.
  rewrite (index_get_found _ _ _ _ _ Hi), E1, level_del_raise; [done|].
  by rewrite (ch_levels _ _ _ _ _ _ C1).
Qed.

Lemma delete_data_inv pair data delta delta' self self' :
  booked self → delete_data pair data delta self = Ok delta' self' →
  ∃ price,
    index_of self pair (side_of data) !! data_id data = Some price ∧
    changed pair (side_of data)
      (delete price (levels_of self pair (side_of data)))
      (delete (data_id data) (index_of self pair (side_of data))) self self'.
Proof.
  intros Hb E.
  destruct (index_of self pair (side_of data) !! data_id data) as [price|] eqn:Hi.
  2: { destruct (delete_data_missing self pair data delta Hi) as (s2 & E2 & _). congruence. }
  pose proof (indexed_ready _ _ _ _ _ Hb Hi) as Hr.
  destruct (levels_of self pair (side_of data) !! price) as [size|] eqn:Hl.
  2: { destruct (delete_data_stale pair data delta self price (proj1 Hr) Hi Hl) as (s2 & E2).
       congruence. }
  destruct (delete_data_changed self pair data delta price size Hr Hi Hl) as (s2 & E2 & C).
  rewrite E in E2. simplify_eq. eauto.
Qed.

Lemma inserted_sound pair s price size oid a b :
  changed pair s (<[price := size]> (levels_of a pair s)) (<[oid := price]> (index_of a pair s)) a b →
  sound a → sound b.
Proof.
  intros C [Hb Hc]. split; [by eapply changed_booked|].
  eapply changed_consistent; [done..|].
  intros i p [[-> ->]|[Hne Hi]]%lookup_insert_Some.
  - rewrite lookup_insert_eq. eauto.
  - apply lookup_insert_is_Some'. right. by eapply Hc.
Qed.

Lemma updated_sound pair s price size a b :
  changed pair s (<[price := size]> (levels_of a pair s)) (index_of a pair s) a b →
  sound a → sound b.
Proof.
  intros C [Hb Hc]. split; [by eapply changed_booked|].
  eapply changed_consistent; [done..|].
  intros i p Hi. apply lookup_insert_is_Some'. right. by eapply Hc.
Qed.

Lemma deleted_sound pair s price oid a b :
  index_of a pair s !! oid = Some price →
  changed pair s (delete price (levels_of a pair s)) (delete oid (index_of a pair s)) a b →
  sound a ∧ unshared a → sound b ∧ unshared b.
Proof.
  intros Hi C [[Hb Hc] Hu]. split; [split|].
  - by eapply changed_booked.
  - eapply changed_consistent; [done..|].
    intros i p [Hne Hi']%lookup_delete_Some.
    rewrite lookup_delete_ne; [by eapply Hc|].
    intros <-. apply Hne. by eapply Hu.
  - eapply changed_unshared; [done..|].
    intros i j p [_ H1]%lookup_delete_Some [_ H2]%lookup_delete_Some. by eapply Hu.
Qed.

Lemma for_each_invariant {A S} (I : Bitmex → Prop) (body : A → S → M S) :
  (∀ x acc acc' s s', I s → body x acc s = Ok acc' s' → I s') →
  ∀ l acc acc' s s', I s → for_each body l acc s = Ok acc' s' → I s'.
Proof.
  intros Hbody. induction l as [|x l IH]; intros acc acc' s s' HI E.
  - unfold for_each, ret in E. by simplify_eq.
  - rewrite for_each_cons in E. unfold bind in E.
    destruct (body x acc s) as [acc1 s1|] eqn:E1; [|done]. eauto.
Qed.

Lemma book_action_sound msg timestamp pair forced delta self calls self' :
  sound self → unshared self →
  _book_action msg timestamp pair forced delta self = Ok calls self' →
  sound self'.
Proof.
  intros Hs Hu. unfold _book_action, deliver_book.
  repeat case_match; unfold bind;
    try (destruct (for_each _ _ _ _) as [delta' s1|] eqn:E; [|done];
         destruct (l2_book s1 !! pair); [|done]; intros [= _ <-]; revert E).
  - apply for_each_invariant; [|done]. intros x acc acc' s s' Hsound E.
    destruct (partial_data_inv _ _ _ _ _ _ (proj1 Hsound) E) as (price & size & C).
    by eapply inserted_sound.
  - apply for_each_invariant; [|done]. intros x acc acc' s s' Hsound E.
    destruct (insert_data_inv _ _ _ _ _ _ (proj1 Hsound) E) as (price & size & C).
    by eapply inserted_sound.
  - apply for_each_invariant; [|done]. intros x acc acc' s s' Hsound E.
    destruct (update_data_inv _ _ _ _ _ _ (proj1 Hsound) E) as (price & size & _ & C).
    by eapply updated_sound.
  - intros E. eapply (for_each_invariant (λ s, sound s ∧ unshared s)) in E; [apply E| |done].
    intros x acc acc' s s' Hsound E'.
    destruct (delete_data_inv _ _ _ _ _ _ (proj1 (proj1 Hsound)) E') as (price & Hi & C).
    by eapply deleted_sound.
  - unfold ret. by intros [= _ <-].
Qed.

Lemma book_sound msg timestamp self calls self' :
  sound self → unshared self → _book msg timestamp self = Ok calls self' → sound self'.
Proof.
  intros Hs Hu. unfold _book. destruct (msg_data msg) as [|data0 rest]; [done|].
  unfold bind, partial_received_get, partial_received_set.
  destruct (partial_received self !! data_symbol data0) as [[]|]; simpl;
    destruct (String.eqb (msg_action msg) "partial"); simpl;
    try (unfold ret; by intros [= _ <-]);
    by apply book_action_sound.
Qed.

Lemma process_sound msgs self final :
  sound self → process msgs self = Some final →
  forallb unshared_prices (states msgs self) = true → sound final.
Proof.
  revert self. induction msgs as [|[msg timestamp] msgs IH]; intros self Hs Hp Hu.
  - simpl in Hp. by simplify_eq.
  - simpl in Hp, Hu. apply andb_prop in Hu as [Hu Hus].
    destruct (_book msg timestamp self) as [calls self1|] eqn:E; [|done].
    eapply IH; [|done..].
    eapply book_sound; [done| |done]. by apply unshared_prices_unshared.
Qed.

(** C3, as the code has it. After a reset and any sequence of book
    messages that all return, if after no message of the sequence two
    identifiers of one symbol and side are indexed at the same price, then
    every identifier in the index of a symbol and side names a price that
    has a level in the book of that symbol and side. *)
Theorem index_consistent_when_prices_unshared (self final : Bitmex) (msgs : list (Msg * Time)) :
  process msgs (_reset self) = Some final →
  forallb unshared_prices (states msgs (_reset self)) = true →
  index_consistent final.
Proof.
  intros Hp Hu. eapply process_sound; [|done..].
  split; [apply reset_booked|apply reset_index_consistent].
Qed.

Lemma index_consistent_when_prices_unshared_witness : index_consistent after_scenario.
Proof.
  apply (index_consistent_when_prices_unshared (mkBitmex ["XBTUSD"] ∅ ∅ ∅) after_scenario scenario).
  - reflexivity.
  - vm_compute. reflexivity.
Defined.

(** A snapshot with two identifiers at price 100 and the delete of the
    first both return, and leave the second identifier indexed at 100
    while the book has no level at 100. *)
Lemma shared_price_breaks_consistency :
  process [(shared_snapshot, dec 0); (mkMsg "delete" [bid_entry 1 None None], dec 0)] engine0
    = Some after_shared_delete ∧
  index_of after_shared_delete "XBTUSD" BID !! 2 = Some (dec 100) ∧
  levels_of after_shared_delete "XBTUSD" BID !! dec 100 = None ∧
  ¬ index_consistent after_shared_delete.
Proof.
  split; [reflexivity|]. split; [reflexivity|]. split; [reflexivity|].
  intros H. by destruct (H "XBTUSD" BID 2 (dec 100) eq_refl).
Qed.

(** ** Delete messages with several entries *)

Lemma delta_get_append delta s x s' :
  delta_get (delta_append delta s x) s' =
  delta_get delta s' ++ (if decide (s' = s) then [x] else []).
Proof. destruct s, s'; simpl; by rewrite ?app_nil_r. Qed.

(** What the removal of one identifier and its level leaves readable. *)
Lemma deleted_index_lookup pair s price oid a b :
  changed pair s (delete price (levels_of a pair s)) (delete oid (index_of a pair s)) a b →
  ∀ s' i, index_of b pair s' !! i =
          if decide (s' = s ∧ i = oid) then None else index_of a pair s' !! i.
Proof.
  intros C s' i. destruct (decide (s' = s)) as [->|Hs].
  - rewrite (ch_index _ _ _ _ _ _ C). case_decide as H.
    + destruct H as [_ ->]. apply lookup_delete_eq.
    + apply lookup_delete_ne. intros ->. by apply H.
  - rewrite (ch_index_side _ _ _ _ _ _ C) by done. rewrite decide_False; [done|]. by intros [? _].
Qed.

Lemma deleted_levels_lookup pair s price oid a b :
  changed pair s (delete price (levels_of a pair s)) (delete oid (index_of a pair s)) a b →
  ∀ s' p, levels_of b pair s' !! p =
          if decide (s' = s ∧ p = price) then None else levels_of a pair s' !! p.
Proof.
  intros C s' p. destruct (decide (s' = s)) as [->|Hs].
  - rewrite (ch_levels _ _ _ _ _ _ C). case_decide as H.
    + destruct H as [_ ->]. apply lookup_delete_eq.
    + apply lookup_delete_ne. intros ->. by apply H.
  - rewrite (ch_levels_side _ _ _ _ _ _ C) by done. rewrite decide_False; [done|]. by intros [? _].
Qed.

Lemma delete_loop pair l : ∀ self delta,
  ready self pair → deletable self pair l →
  ∃ self' delta',
    for_each (delete_data pair) l delta self = Ok delta' self' ∧
    ready self' pair ∧
    (∀ s i, index_of self pair s !! i = None → index_of self' pair s !! i = None) ∧
    (∀ s p, levels_of self pair s !! p = None → levels_of self' pair s !! p = None) ∧
    (∀ s, ∃ added,
       delta_get delta' s = delta_get delta s ++ added ∧
       ∀ x, x ∈ added → is_Some (levels_of self pair s !! x.1)) ∧
    (∀ d price, d ∈ l →
       index_of self pair (side_of d) !! data_id d = Some price →
       index_of self' pair (side_of d) !! data_id d = None ∧
       levels_of self' pair (side_of d) !! price = None ∧
       ∃ l1 l2,
         delta_get delta' (side_of d) =
           delta_get delta (side_of d) ++ l1 ++ (price, dec 0) :: l2 ∧
         ((price, dec 0) ∉ l1) ∧ ((price, dec 0) ∉ l2)).
Proof.
  induction l as [|x l IH]; intros self delta Hr [Hall Hnd].
  { exists self, delta. split; [done|]. split; [done|]. split; [done|]. split; [done|]. split.
    - intros s. exists []. rewrite app_nil_r. split; [done|].
      intros y Hy. by apply elem_of_nil in Hy.
    - intros d price Hd. by apply elem_of_nil in Hd. }
  apply list.Forall_cons in Hall as [(px & Hix & [zx Hlx]) Hall].
  rewrite fmap_cons in Hnd. apply list.NoDup_cons in Hnd as [Hnx Hnd].
  destruct (delete_data_changed self pair x delta px zx Hr Hix Hlx) as (a1 & E1 & C1).
  pose proof (deleted_index_lookup _ _ _ _ _ _ C1) as Hidx.
  pose proof (deleted_levels_lookup _ _ _ _ _ _ C1) as Hlev.
  (* the entries that follow read the index and the book as before *)
  assert (∀ d price, d ∈ l →
            index_of self pair (side_of d) !! data_id d = Some price →
            ¬ (side_of d = side_of x ∧ price = px)) as Hfresh.
  { intros d price Hd Hi [Hs ->]. apply Hnx.
    apply (list_elem_of_fmap_2' _ _ d); [done|].
    unfold entry_level. by rewrite Hs, Hix, <-Hs, Hi. }
  assert (∀ d, d ∈ l →
            index_of a1 pair (side_of d) !! data_id d =
            index_of self pair (side_of d) !! data_id d) as Hkeep.
  { intros d Hd. rewrite Hidx. case_decide as H; [|done]. destruct H as [Hs Hid].
    destruct (proj1 (list.Forall_forall _ _) Hall d Hd) as (price & Hi & _).
    exfalso. apply (Hfresh d price Hd Hi). split; [done|].
    rewrite Hs, Hid, Hix in Hi. by simplify_eq. }
  assert (deletable a1 pair l) as Hdel.
  { split.
    - apply list.Forall_forall. intros d Hd.
      destruct (proj1 (list.Forall_forall _ _) Hall d Hd) as (price & Hi & Hl).
      exists price. rewrite Hkeep by done. split; [done|].
      rewrite Hlev, decide_False; [done|]. by apply Hfresh.
    - replace (entry_level a1 pair <$> l) with (entry_level self pair <$> l); [done|].
      apply Forall_fmap_ext_1, list.Forall_forall. intros d Hd.
      unfold entry_level. by rewrite Hkeep. }
  destruct (IH a1 (delta_append delta (side_of x) (px, dec 0))
              (ch_ready _ _ _ _ _ _ C1) Hdel)
    as (b & delta' & E & Hrb & Hmi & Hml & Hadd & Hd).
  exists b, delta'. split; [|split; [done|split; [|split; [|split]]]].
  - rewrite for_each_cons. by erewrite bind_Ok.
  - intros s i Hi. apply Hmi. rewrite Hidx. case_decide; done.
  - intros s p Hp. apply Hml. rewrite Hlev. case_decide; done.
  - intros s. destruct (Hadd s) as (added & Hdelta & Hlive).
    exists ((if decide (s = side_of x) then [(px, dec 0)] else []) ++ added).
    split; [by rewrite Hdelta, delta_get_append, <-app_assoc|].
    intros y [Hy|Hy]%elem_of_app.
    + case_decide as Hs; [|by apply elem_of_nil in Hy].
      apply list_elem_of_singleton in Hy. subst. simpl. eauto.
    + specialize (Hlive y Hy). rewrite Hlev in Hlive. case_decide; [|done].
      by destruct Hlive.
  - intros d price [->|Hin]%elem_of_cons Hi.
    + rewrite Hix in Hi. simplify_eq.
      assert (index_of a1 pair (side_of x) !! data_id x = None) as Hi1
        by (rewrite Hidx, decide_True; done).
      assert (levels_of a1 pair (side_of x) !! price = None) as Hl1
        by (rewrite Hlev, decide_True; done).
      split; [by apply Hmi|]. split; [by apply Hml|].
      destruct (Hadd (side_of x)) as (added & Hdelta & Hlive).
      exists [], added. split; [|split].
      * by rewrite Hdelta, delta_get_append, decide_True, <-app_assoc.
      * apply not_elem_of_nil.
      * intros Hy. apply Hlive in Hy. simpl in Hy. rewrite Hl1 in Hy. by destruct Hy.
    + pose proof Hi as Hi1. rewrite <-Hkeep in Hi1 by done.
      destruct (Hd d price Hin Hi1) as (Hnone & Hlnone & l1 & l2 & Hdelta & Hl1 & Hl2).
      split; [done|]. split; [done|].
      exists ((if decide (side_of d = side_of x) then [(px, dec 0)] else []) ++ l1), l2.
      split; [|split; [|done]].
      * by rewrite Hdelta, delta_get_append, <-!app_assoc.
      * apply not_elem_of_app. split; [|done].
        case_decide as Hs; [|apply not_elem_of_nil].
        intros Hy%list_elem_of_singleton. simplify_eq.
        by apply (Hfresh d px Hin Hi).
Qed.

(** C5, as the code has it. After the snapshot, take a delete message
    whose entries each name an identifier of the index at a price that has
    a level, no two entries of a side at the same price.  The message
    returns and delivers one update; for each entry, with [price] the price
    of its identifier, the identifier is gone from the index, the level at
    [price] is gone from the book, and the delta of the entry's side holds
    [(price, 0)] exactly once. *)
Theorem delete_removes_levels (self : Bitmex) (data0 : Data) (rest : list Data)
    (timestamp : Time) :
  let pair := data_symbol data0 in
  gate self pair = true →
  has_book self pair →
  deletable self pair (data0 :: rest) →
  ∃ self' book delta,
    _book (mkMsg "delete" (data0 :: rest)) timestamp self =
      Ok [book_callback book L2_BOOK pair false delta timestamp timestamp] self' ∧
    l2_book self' !! pair = Some book ∧
    ∀ d price, d ∈ data0 :: rest →
      index_of self pair (side_of d) !! data_id d = Some price →
      index_of self' pair (side_of d) !! data_id d = None ∧
      levels_of self' pair (side_of d) !! price = None ∧
      ∃ l1 l2,
        delta_get delta (side_of d) = l1 ++ (price, dec 0) :: l2 ∧
        ((price, dec 0) ∉ l1) ∧ ((price, dec 0) ∉ l2).
Proof.
  intros pair Hg Hb Hdel.
  assert (ready self pair) as Hr.
  { split; [done|]. destruct Hdel as [Hall _].
    apply list.Forall_cons in Hall as [(p & Hi & _) _].
    destruct (index_side_found _ _ _ _ _ Hi) as (sides & E & _).
    unfold has_index. rewrite E. eauto. }
  destruct (delete_loop pair (data0 :: rest) self delta0 Hr Hdel)
    as (self' & delta & E & [(book & Hbook & _) _] & _ & _ & _ & Hd).
  exists self', book, delta. split; [|split; [done|]].
  - rewrite (book_gate_open self _ timestamp data0 rest) by done.
    rewrite book_action_delete. erewrite bind_Ok by exact E.
    by apply deliver_book_found.
  - intros d price Hin Hi. destruct (Hd d price Hin Hi) as (? & ? & l1 & l2 & Hdelta & ? & ?).
    split; [done|]. split; [done|]. exists l1, l2. split; [|done].
    rewrite Hdelta. by destruct (side_of d).
Qed.

Lemma after_insert_deletable :
  deletable after_insert "XBTUSD" [bid_entry 1 None None; bid_entry 2 None None].
Proof.
  split.
  - repeat constructor; eexists; (split; [reflexivity|eexists; reflexivity]).
  - apply (bool_decide_unpack _). vm_compute. exact I.
Defined.

Lemma delete_removes_levels_witness :
  ∃ self' book delta,
    _book (mkMsg "delete" [bid_entry 1 None None; bid_entry 2 None None]) (dec 3) after_insert =
      Ok [book_callback book L2_BOOK "XBTUSD" false delta (dec 3) (dec 3)] self' ∧
    l2_book self' !! "XBTUSD" = Some book ∧
    ∀ d price, d ∈ [bid_entry 1 None None; bid_entry 2 None None] →
      index_of after_insert "XBTUSD" (side_of d) !! data_id d = Some price →
      index_of self' "XBTUSD" (side_of d) !! data_id d = None ∧
      levels_of self' "XBTUSD" (side_of d) !! price = None ∧
      ∃ l1 l2,
        delta_get delta (side_of d) = l1 ++ (price, dec 0) :: l2 ∧
        ((price, dec 0) ∉ l1) ∧ ((price, dec 0) ∉ l2).
Proof.
  apply (delete_removes_levels after_insert (bid_entry 1 None None) [bid_entry 2 None None] (dec 3)).
  - reflexivity.
  - eexists. split; [reflexivity|]. intros []; eexists; reflexivity.
  - exact after_insert_deletable.
Defined.

(** * Further properties of the handlers *)

(** ** What [_book] keeps in every outcome *)

Lemma same_keys_refl a : same_keys a a.
Proof. by constructor. Qed.

Lemma same_keys_trans a b c : same_keys a b → same_keys b c → same_keys a c.
Proof.
  intros Hab Hbc. constructor.
  - by rewrite (sk_pairs _ _ Hbc), (sk_pairs _ _ Hab).
  - intros q. by rewrite (sk_book _ _ Hbc), (sk_book _ _ Hab).
  - intros q. by rewrite (sk_index _ _ Hbc), (sk_index _ _ Hab).
Qed.

Lemma same_gates_refl a : same_gates a a.
Proof. done. Qed.

Lemma same_gates_trans a b c : same_gates a b → same_gates b c → same_gates a c.
Proof. unfold same_gates. congruence. Qed.

Lemma book_side_replaced_keys self pair book s lv lv' :
  l2_book self !! pair = Some book → book !! s = Some lv →
  same_keys self (set_l2_book (<[pair := <[s := lv']> book]> (l2_book self)) self).
Proof.
  intros Hb Hs. constructor; simpl; try done.
  intros q. destruct (decide (q = pair)) as [->|Hq].
  - rewrite lookup_insert_eq, Hb. simpl. f_equal.
    apply dom_insert_lookup_L. eauto.
  - by rewrite lookup_insert_ne.
Qed.

Lemma index_side_replaced_keys self pair sides sides' :
  order_id self !! pair = Some sides →
  same_keys self (set_order_id (<[pair := sides']> (order_id self)) self).
Proof.
  intros Hi. constructor; simpl; try done.
  intros q. destruct (decide (q = pair)) as [->|Hq].
  - rewrite lookup_insert_eq, Hi. split; eauto.
  - by rewrite lookup_insert_ne.
Qed.

Lemma level_set_keys pair s price size : keeps same_keys (level_set pair s price size).
Proof.
  intros self. unfold level_set.
  destruct (l2_book self !! pair) as [book|] eqn:Hb; [|apply same_keys_refl].
  destruct (book !! s) as [lv|] eqn:Hs; [|apply same_keys_refl].
  by eapply book_side_replaced_keys.
Qed.

Lemma level_del_keys pair s price : keeps same_keys (level_del pair s price).
Proof.
  intros self. unfold level_del.
  destruct (l2_book self !! pair) as [book|] eqn:Hb; [|apply same_keys_refl].
  destruct (book !! s) as [lv|] eqn:Hs; [|apply same_keys_refl].
  destruct (lv !! price); [|apply same_keys_refl].
  by eapply book_side_replaced_keys.
Qed.

Lemma index_side_keys pair s : keeps same_keys (index_side pair s).
Proof.
  intros self. unfold index_side.
  destruct (order_id self !! pair) as [sides|] eqn:Hi; [|apply same_keys_refl].
  destruct (sides !! s); [apply same_keys_refl|].
  by eapply index_side_replaced_keys.
Qed.

Lemma index_side_store_keys pair s ids : keeps same_keys (index_side_store pair s ids).
Proof.
  intros self. unfold index_side_store.
  destruct (order_id self !! pair) as [sides|] eqn:Hi; [|apply same_keys_refl].
  by eapply index_side_replaced_keys.
Qed.

Lemma deliver_book_keys pair forced timestamp delta :
  keeps same_keys (deliver_book pair forced timestamp delta).
Proof. intros self. unfold deliver_book. case_match; apply same_keys_refl. Qed.

Lemma level_set_gates pair s price size : keeps same_gates (level_set pair s price size).
Proof. intros self. unfold level_set. by repeat case_match. Qed.

Lemma level_del_gates pair s price : keeps same_gates (level_del pair s price).
Proof. intros self. unfold level_del. by repeat case_match. Qed.

Lemma index_side_gates pair s : keeps same_gates (index_side pair s).
Proof. intros self. unfold index_side. by repeat case_match. Qed.

Lemma index_side_store_gates pair s ids : keeps same_gates (index_side_store pair s ids).
Proof. intros self. unfold index_side_store. by repeat case_match. Qed.

Lemma deliver_book_gates pair forced timestamp delta :
  keeps same_gates (deliver_book pair forced timestamp delta).
Proof. intros self. unfold deliver_book. by case_match. Qed.

(** The relations that every dictionary primitive keeps are kept by the
    entries, the loops and the selection on the action. *)
Section Kept.
Context (R : Bitmex → Bitmex → Prop).
Hypothesis R_refl : ∀ a, R a a.
Hypothesis R_trans : ∀ a b c, R a b → R b c → R a c.
Hypothesis R_level_set : ∀ pair s price size, keeps R (level_set pair s price size).
Hypothesis R_level_del : ∀ pair s price, keeps R (level_del pair s price).
Hypothesis R_index_side : ∀ pair s, keeps R (index_side pair s).
Hypothesis R_index_side_store : ∀ pair s ids, keeps R (index_side_store pair s ids).
Hypothesis R_deliver_book : ∀ pair forced timestamp delta,
  keeps R (deliver_book pair forced timestamp delta).

Ltac kept :=
  repeat first
    [ apply keeps_bind; [exact R_trans | | intros ? ]
    | apply keeps_ret; exact R_refl
    | apply keeps_raise; exact R_refl
    | apply keeps_field; exact R_refl
    | apply R_level_set | apply R_level_del
    | apply R_index_side | apply R_index_side_store
    | apply R_deliver_book
    | case_match ].

Lemma partial_data_kept pair data delta : keeps R (partial_data pair data delta).
Proof. unfold partial_data, index_set. kept. Qed.

Lemma insert_data_kept pair data delta : keeps R (insert_data pair data delta).
Proof. unfold insert_data, index_set. kept. Qed.

Lemma update_data_kept pair data delta : keeps R (update_data pair data delta).
Proof. unfold update_data, index_set, index_get. kept. Qed.

Lemma delete_data_kept pair data delta : keeps R (delete_data pair data delta).
Proof. unfold delete_data, index_del, index_get. kept. Qed.

Lemma book_action_kept msg timestamp pair forced delta :
  keeps R (_book_action msg timestamp pair forced delta).
Proof.
  unfold _book_action.
  repeat case_match;
    try (apply keeps_bind;
         [exact R_trans
         | apply keeps_for_each;
           [exact R_refl | exact R_trans
           | intros; first [apply partial_data_kept | apply insert_data_kept
                           | apply update_data_kept | apply delete_data_kept]]
         | intros; apply R_deliver_book]).
  apply keeps_ret, R_refl.
Qed.
End Kept.

Lemma book_action_keys msg timestamp pair forced delta :
  keeps same_keys (_book_action msg timestamp pair forced delta).
Proof.
  apply book_action_kept;
    [ exact same_keys_refl | exact same_keys_trans | exact level_set_keys
    | exact level_del_keys | exact index_side_keys | exact index_side_store_keys
    | exact deliver_book_keys ].
Qed.

Lemma book_action_gates msg timestamp pair forced delta :
  keeps same_gates (_book_action msg timestamp pair forced delta).
Proof.
  apply book_action_kept;
    [ exact same_gates_refl | exact same_gates_trans | exact level_set_gates
    | exact level_del_gates | exact index_side_gates | exact index_side_store_gates
    | exact deliver_book_gates ].
Qed.

Lemma same_keys_has_book a b q : same_keys a b → has_book b q ↔ has_book a q.
Proof.
  intros K. pose proof (sk_book _ _ K q) as Hq. unfold has_book.
  destruct (l2_book a !! q) as [ba|], (l2_book b !! q) as [bb|]; simplify_eq/=;
    [|split; intros (? & ? & _); done].
  assert (∀ s, is_Some (bb !! s) ↔ is_Some (ba !! s)) as Hs.
  { intros s. by rewrite <-!elem_of_dom, Hq. }
  split; intros (book & [= <-] & Hall); eexists; (split; [done|]); intros s; by apply Hs.
Qed.

Lemma same_keys_dom a b :
  same_keys a b →
  dom (l2_book b) = dom (l2_book a) ∧ dom (order_id b) = dom (order_id a).
Proof.
  intros K. split; apply set_eq; intros q; rewrite !elem_of_dom.
  - pose proof (sk_book _ _ K q) as Hq.
    destruct (l2_book a !! q), (l2_book b !! q); simplify_eq/=; split; intros [? ?]; eauto; done.
  - apply K.
Qed.

Lemma book_keys msg timestamp : keeps same_keys (_book msg timestamp).
Proof.
  intros self. unfold _book. destruct (msg_data msg) as [|data0 rest]; [apply same_keys_refl|].
  unfold bind, partial_received_get, partial_received_set.
  destruct (partial_received self !! data_symbol data0) as [[]|]; simpl.
  - apply book_action_keys.
  - destruct (String.eqb (msg_action msg) "partial"); simpl; [|apply same_keys_refl].
    eapply same_keys_trans; [|apply book_action_keys]. by constructor.
  - destruct (String.eqb (msg_action msg) "partial"); simpl; [|by constructor].
    eapply same_keys_trans; [|apply book_action_keys]. by constructor.
Qed.

(** X1. Whatever the message and whether [_book] returns or raises, the
    configured pairs, the symbols that have a book, the sides of each
    book and the symbols that have an index are those from before: the
    handler never creates or drops a symbol. *)
Theorem book_keeps_symbols (msg : Msg) (timestamp : Time) (self : Bitmex) :
  pairs (state_of (_book msg timestamp self)) = pairs self ∧
  dom (l2_book (state_of (_book msg timestamp self))) = dom (l2_book self) ∧
  dom (order_id (state_of (_book msg timestamp self))) = dom (order_id self) ∧
  ∀ q, has_book (state_of (_book msg timestamp self)) q ↔ has_book self q.
Proof.
  pose proof (book_keys msg timestamp self) as K.
  split; [apply K|]. destruct (same_keys_dom _ _ K) as [Hb Hi].
  split; [done|]. split; [done|]. intros q. by apply same_keys_has_book.
Qed.

(** X2. After a message, in every outcome, the gate of a symbol is set
    exactly when it was set before or the message is a partial whose first
    entry names the symbol: only a partial sets a gate and nothing in
    [_book] unsets one. *)
Theorem gate_set_by_partial_only (msg : Msg) (timestamp : Time) (self : Bitmex) (q : string) :
  gate (state_of (_book msg timestamp self)) q = true ↔
  gate self q = true ∨
  (msg_action msg = "partial" ∧ ∃ data0 rest, msg_data msg = data0 :: rest ∧ data_symbol data0 = q).
Proof.
  unfold _book. destruct (msg_data msg) as [|data0 rest] eqn:Hd; simpl.
  { split; [auto|]. intros [?|(_ & ? & ? & ? & _)]; done. }
  assert (∀ forced self0,
    gate (state_of (_book_action msg timestamp (data_symbol data0) forced delta0 self0)) q
    = gate self0 q) as Hact.
  { intros forced self0. unfold gate. by rewrite (book_action_gates _ _ _ _ _ self0). }
  unfold bind, partial_received_get, partial_received_set.
  destruct (partial_received self !! data_symbol data0) as [[]|] eqn:Hg; simpl.
  - rewrite Hact. split; [auto|]. intros [?|(_ & d & r & [= <- <-] & <-)]; [done|].
    by apply gate_true.
  - destruct (String.eqb (msg_action msg) "partial") eqn:Ha; simpl.
    + apply String.eqb_eq in Ha. rewrite Hact. unfold gate at 1. simpl.
      destruct (decide (q = data_symbol data0)) as [->|Hq].
      * rewrite lookup_insert_eq. simpl. split; [|done]. intros _. right. eauto.
      * rewrite lookup_insert_ne by done. split; [auto|].
        intros [?|(_ & d & r & [= <- <-] & <-)]; done.
    + apply String.eqb_neq in Ha. split; [auto|]. intros [?|[? _]]; done.
  - destruct (String.eqb (msg_action msg) "partial") eqn:Ha; simpl.
    + apply String.eqb_eq in Ha. rewrite Hact. unfold gate at 1. simpl.
      rewrite insert_insert_eq.
      destruct (decide (q = data_symbol data0)) as [->|Hq].
      * rewrite lookup_insert_eq. simpl. split; [|done]. intros _. right. eauto.
      * rewrite lookup_insert_ne by done. split; [auto|].
        intros [?|(_ & d & r & [= <- <-] & <-)]; done.
    + apply String.eqb_neq in Ha. unfold gate at 1. simpl.
      destruct (decide (q = data_symbol data0)) as [->|Hq].
      * rewrite lookup_insert_eq. simpl. unfold gate. rewrite Hg. simpl.
        split; [done|]. intros [?|[? _]]; done.
      * rewrite lookup_insert_ne by done. split; [auto|]. intros [?|[? _]]; done.
Qed.

(** ** The callback of a book message *)

Lemma partial_loop_delta pair l delta delta' self self' :
  for_each (partial_data pair) l delta self = Ok delta' self' → delta' = delta.
Proof.
  revert self. induction l as [|d l IH]; intros self E.
  - unfold for_each, ret in E. by simplify_eq.
  - rewrite for_each_cons in E. unfold bind in E.
    destruct (partial_data pair d delta self) as [delta1 self1|] eqn:E1; [|done].
    assert (delta1 = delta) as ->; [|by eapply IH].
    revert E1. unfold partial_data, bind, field, ret, raise.
    repeat case_match; intros; by simplify_eq.
Qed.

Lemma deliver_after_calls_one (m : M Delta) pair forced timestamp self :
  (length (calls_of ((do delta <- m; deliver_book pair forced timestamp delta) self)) ≤ 1)%nat ∧
  ∀ c, c ∈ calls_of ((do delta <- m; deliver_book pair forced timestamp delta) self) →
       ∃ delta self1, m self = Ok delta self1 ∧
         call_pair c = pair ∧ call_forced c = Some forced ∧ call_delta c = Some delta.
Proof.
  unfold bind. destruct (m self) as [delta self1|e self1]; simpl.
  2: { split; [lia|]. intros c Hc. by apply elem_of_nil in Hc. }
  unfold deliver_book. destruct (l2_book self1 !! pair) as [book|]; simpl.
  2: { split; [lia|]. intros c Hc. by apply elem_of_nil in Hc. }
  split; [lia|]. intros c Hc%list_elem_of_singleton. subst. eauto 6.
Qed.

Lemma book_action_call msg timestamp pair forced delta self :
  (length (calls_of (_book_action msg timestamp pair forced delta self)) ≤ 1)%nat ∧
  ∀ c, c ∈ calls_of (_book_action msg timestamp pair forced delta self) →
       call_pair c = pair ∧ call_forced c = Some forced ∧
       (msg_action msg = "partial" → call_delta c = Some delta).
Proof.
  unfold _book_action.
  destruct (String.eqb (msg_action msg) "partial") eqn:Hp.
  { destruct (deliver_after_calls_one (for_each (partial_data pair) (msg_data msg) delta)
                pair forced timestamp self) as [Hlen Hc].
    split; [done|]. intros c Hin.
    destruct (Hc c Hin) as (delta' & self1 & E & ? & ? & ?).
    apply partial_loop_delta in E as ->. done. }
  apply String.eqb_neq in Hp.
  repeat case_match;
    try (match goal with
         | |- context [for_each ?body] =>
           destruct (deliver_after_calls_one (for_each body (msg_data msg) delta)
                       pair forced timestamp self) as [Hlen Hc]
         end;
         split; [done|]; intros c Hin;
         destruct (Hc c Hin) as (delta' & self1 & E & ? & ? & ?); done).
  simpl. split; [lia|]. intros c Hin. by apply elem_of_nil in Hin.
Qed.

(** X3. [_book] awaits at most one callback.  A callback is for the
    symbol of the first entry; its [forced] flag tells that the gate of
    that symbol was unset when the message arrived, which only happens for
    a partial; and for a partial its delta is empty. *)
Theorem book_delivers_one_update (msg : Msg) (timestamp : Time) (self : Bitmex) :
  (length (calls_of (_book msg timestamp self)) ≤ 1)%nat ∧
  ∀ c data0 rest,
    c ∈ calls_of (_book msg timestamp self) → msg_data msg = data0 :: rest →
    call_pair c = data_symbol data0 ∧
    call_forced c = Some (negb (gate self (data_symbol data0))) ∧
    (gate self (data_symbol data0) = false → msg_action msg = "partial") ∧
    (msg_action msg = "partial" → call_delta c = Some delta0).
Proof.
  unfold _book. destruct (msg_data msg) as [|d0 r] eqn:Hd; simpl.
  { split; [lia|]. intros c ? ? Hc. by apply elem_of_nil in Hc. }
  unfold bind, partial_received_get, partial_received_set, gate.
  destruct (partial_received self !! data_symbol d0) as [[]|] eqn:Hg; simpl.
  - destruct (book_action_call msg timestamp (data_symbol d0) false delta0 self) as [Hlen Hc].
    split; [done|]. intros c data0 rest Hin [= <- <-]. rewrite Hg. simpl.
    destruct (Hc c Hin) as (? & ? & ?). done.
  - destruct (String.eqb (msg_action msg) "partial") eqn:Ha; simpl.
    2: { split; [lia|]. intros c ? ? Hc. by apply elem_of_nil in Hc. }
    apply String.eqb_eq in Ha.
    match goal with |- context [_book_action msg timestamp _ true _ ?s] =>
      destruct (book_action_call msg timestamp (data_symbol d0) true delta0 s) as [Hlen Hc] end.
    split; [done|]. intros c data0 rest Hin [= <- <-]. rewrite Hg. simpl.
    destruct (Hc c Hin) as (? & ? & ?). done.
  - destruct (String.eqb (msg_action msg) "partial") eqn:Ha; simpl.
    2: { split; [lia|]. intros c ? ? Hc. by apply elem_of_nil in Hc. }
    apply String.eqb_eq in Ha.
    match goal with |- context [_book_action msg timestamp _ true _ ?s] =>
      destruct (book_action_call msg timestamp (data_symbol d0) true delta0 s) as [Hlen Hc] end.
    split; [done|]. intros c data0 rest Hin [= <- <-]. rewrite Hg. simpl.
    destruct (Hc c Hin) as (? & ? & ?). done.
Qed.

(** ** Inserts and updates *)

Lemma indexed_untouched s l ids oid :
  (∀ d, d ∈ l → side_of d = s → data_id d ≠ oid) →
  foldl (write_index s) ids l !! oid = ids !! oid.
Proof.
  revert ids. induction l as [|x l IH]; intros ids Hl; [done|].
  simpl. rewrite IH.
  - unfold write_index. destruct (data_price x); [|done].
    destruct (data_size x); [|done]. case_decide as Hs; [|done].
    apply lookup_insert_ne. eapply Hl; [left|done].
  - intros d Hd. apply Hl. by right.
Qed.

Lemma indexed_last s l1 d l2 ids price :
  side_of d = s → data_price d = Some price → is_Some (data_size d) →
  (∀ d', d' ∈ l2 → side_of d' = s → data_id d' ≠ data_id d) →
  foldl (write_index s) ids (l1 ++ d :: l2) !! data_id d = Some price.
Proof.
  intros Hs Hp [size Hz] Hl2. rewrite foldl_app. simpl.
  rewrite indexed_untouched by done.
  unfold write_index. rewrite Hp, Hz, decide_True by done. apply lookup_insert_eq.
Qed.

(** A loop whose body does to the state what an insert of the entry
    does. *)
Lemma write_loop (body : Data → Delta → M Delta) pair :
  (∀ self d delta price size,
     ready self pair → data_price d = Some price → data_size d = Some size →
     ∃ self' delta', body d delta self = Ok delta' self' ∧
       changed pair (side_of d)
         (<[price := size]> (levels_of self pair (side_of d)))
         (<[data_id d := price]> (index_of self pair (side_of d))) self self') →
  ∀ l self delta,
    ready self pair → Forall priced l →
    ∃ self' delta', for_each body l delta self = Ok delta' self' ∧
      ready self' pair ∧ frame pair self self' ∧
      partial_received self' = partial_received self ∧
      (∀ s, levels_of self' pair s = foldl (write_level s) (levels_of self pair s) l) ∧
      (∀ s, index_of self' pair s = foldl (write_index s) (index_of self pair s) l).
Proof.
  intros Hbody. induction l as [|d l IH]; intros self delta Hr Hl.
  { exists self, delta. split; [done|]. split; [done|]. split; [apply frame_refl|].
    split; [done|]. by split. }
  apply list.Forall_cons in Hl as [[[price Hp] [size Hz]] Hl].
  destruct (Hbody self d delta price size Hr Hp Hz) as (self1 & delta1 & E1 & C1).
  destruct (IH self1 delta1 (ch_ready _ _ _ _ _ _ C1) Hl)
    as (self' & delta' & E & Hr' & Hf & Hpr & Hlv & Hix).
  exists self', delta'. split; [|split; [done|split; [|split; [|split]]]].
  - rewrite for_each_cons. by erewrite bind_Ok.
  - eapply frame_trans; [by eapply changed_frame|done].
  - by rewrite Hpr, (ch_partial _ _ _ _ _ _ C1).
  - intros s. rewrite Hlv. simpl. f_equal.
    unfold write_level. rewrite Hp, Hz. case_decide as Hs.
    + subst s. apply C1.
    + apply C1. congruence.
  - intros s. rewrite Hix. simpl. f_equal.
    unfold write_index. rewrite Hp, Hz. case_decide as Hs.
    + subst s. apply C1.
    + apply C1. congruence.
Qed.

Lemma insert_data_delta pair d delta delta' self self' price size :
  insert_data pair d delta self = Ok delta' self' →
  data_price d = Some price → data_size d = Some size →
  delta' = delta_append delta (side_of d) (price, size).
Proof.
  intros E Hp Hz. revert E. unfold insert_data, index_set, bind, field, ret, raise.
  rewrite Hp, Hz. repeat case_match; intros; by simplify_eq.
Qed.

Lemma insert_loop_delta pair l : ∀ delta delta' self self',
  for_each (insert_data pair) l delta self = Ok delta' self' → Forall priced l →
  ∀ s, delta_get delta' s = delta_get delta s ++ written_delta s l.
Proof.
  induction l as [|d l IH]; intros delta delta' self self' E Hl s.
  { unfold for_each, ret in E. simplify_eq. by rewrite app_nil_r. }
  apply list.Forall_cons in Hl as [[[price Hp] [size Hz]] Hl].
  rewrite for_each_cons in E. unfold bind in E.
  destruct (insert_data pair d delta self) as [delta1 self1|] eqn:E1; [|done].
  rewrite (insert_data_delta _ _ _ _ _ _ _ _ E1 Hp Hz) in E.
  rewrite (IH _ _ _ _ E Hl s), delta_get_append, <-app_assoc. f_equal.
  assert (entry_pair d = Some (price, size)) as Hpair
    by (unfold entry_pair; by rewrite Hp, Hz).
  unfold written_delta. cbn [omap list_omap].
  destruct (decide (s = side_of d)) as [->|Hs].
  - by rewrite decide_True, Hpair.
  - rewrite decide_False; [done|congruence].
Qed.

(** X4. After the snapshot, an insert message for a symbol with book and
    index whose entries carry price and size returns and delivers one
    update that is not forced.  Each side of the book and of the index is
    the one from before with the entries of that side written over it in
    order, the delta of each side lists the (price, size) pairs of its
    entries in order, and the gates and the other symbols are as before. *)
Theorem insert_writes_entries (self : Bitmex) (data0 : Data) (rest : list Data)
    (timestamp : Time) :
  gate self (data_symbol data0) = true →
  ready self (data_symbol data0) →
  Forall priced (data0 :: rest) →
  ∃ self' book delta,
    _book (mkMsg "insert" (data0 :: rest)) timestamp self =
      Ok [book_callback book L2_BOOK (data_symbol data0) false delta timestamp timestamp] self' ∧
    l2_book self' !! data_symbol data0 = Some book ∧
    (∀ s, levels_of self' (data_symbol data0) s =
          foldl (write_level s) (levels_of self (data_symbol data0) s) (data0 :: rest)) ∧
    (∀ s, index_of self' (data_symbol data0) s =
          foldl (write_index s) (index_of self (data_symbol data0) s) (data0 :: rest)) ∧
    (∀ s, delta_get delta s = written_delta s (data0 :: rest)) ∧
    frame (data_symbol data0) self self' ∧
    partial_received self' = partial_received self.
Proof.
  intros Hg Hr Hl.
  destruct (write_loop (insert_data (data_symbol data0)) (data_symbol data0)) with
    (l := data0 :: rest) (self := self) (delta := delta0)
    as (self' & delta & E & [(book & Hb & _) _] & Hf & Hpr & Hlv & Hix); [|done..|].
  { intros s d dl price size ? ? ?.
    destruct (insert_data_changed s (data_symbol data0) d dl price size) as (s' & ? & ?);
      eauto. }
  exists self', book, delta. split; [|split; [done|split; [done|split; [done|split]]]].
  - rewrite (book_gate_open self _ timestamp data0 rest) by done.
    rewrite book_action_insert. erewrite bind_Ok by exact E.
    by apply deliver_book_found.
  - intros s. rewrite (insert_loop_delta _ _ _ _ _ _ E Hl s). by destruct s.
  - done.
Qed.

Lemma insert_writes_entries_witness :
  ∃ self' book delta,
    _book (mkMsg "insert" [bid_entry 2 (Some (dec 99)) (Some (dec 3))]) (dec 1) after_partial =
      Ok [book_callback book L2_BOOK "XBTUSD" false delta (dec 1) (dec 1)] self' ∧
    l2_book self' !! "XBTUSD" = Some book ∧
    (∀ s, levels_of self' "XBTUSD" s =
          foldl (write_level s) (levels_of after_partial "XBTUSD" s)
            [bid_entry 2 (Some (dec 99)) (Some (dec 3))]) ∧
    (∀ s, index_of self' "XBTUSD" s =
          foldl (write_index s) (index_of after_partial "XBTUSD" s)
            [bid_entry 2 (Some (dec 99)) (Some (dec 3))]) ∧
    (∀ s, delta_get delta s = written_delta s [bid_entry 2 (Some (dec 99)) (Some (dec 3))]) ∧
    frame "XBTUSD" after_partial self' ∧
    partial_received self' = partial_received after_partial.
Proof.
  apply (insert_writes_entries after_partial (bid_entry 2 (Some (dec 99)) (Some (dec 3))) []
           (dec 1)).
  - reflexivity.
  - split.
    + eexists. split; [reflexivity|]. intros []; eexists; reflexivity.
    + eexists. reflexivity.
  - repeat constructor; eexists; reflexivity.
Defined.

(** X5. A snapshot for a symbol with book and index, with entries that
    carry price and size, indexes its entries: the identifier of an entry
    is indexed on the entry's side at the price of the last entry of that
    side that names the identifier, and an identifier that no entry of a
    side names keeps the index entry it had. *)
Theorem snapshot_indexes_entries (self : Bitmex) (msg : Msg) (timestamp : Time)
    (data0 : Data) (rest : list Data) :
  msg_action msg = "partial" →
  msg_data msg = data0 :: rest →
  ready self (data_symbol data0) →
  Forall priced (msg_data msg) →
  ∃ calls self',
    _book msg timestamp self = Ok calls self' ∧
    (∀ s l1 d l2 price,
       msg_data msg = l1 ++ d :: l2 →
       side_of d = s → data_price d = Some price →
       (∀ d', d' ∈ l2 → side_of d' = s → data_id d' ≠ data_id d) →
       index_of self' (data_symbol data0) s !! data_id d = Some price) ∧
    (∀ s oid,
       (∀ d, d ∈ msg_data msg → side_of d = s → data_id d ≠ oid) →
       index_of self' (data_symbol data0) s !! oid =
       index_of self (data_symbol data0) s !! oid).
Proof.
  intros Ha Hd Hr Hl.
  assert (∃ self0 forced,
            _book msg timestamp self =
              _book_action msg timestamp (data_symbol data0) forced delta0 self0 ∧
            ready self0 (data_symbol data0) ∧
            ∀ s, index_of self0 (data_symbol data0) s = index_of self (data_symbol data0) s)
    as (self0 & forced & -> & Hr0 & Hsame).
  { destruct (gate self (data_symbol data0)) eqn:Hg.
    - exists self, false. by rewrite (book_gate_open self msg timestamp data0 rest).
    - eexists _, true. by rewrite (book_gate_closed self msg timestamp data0 rest). }
  destruct (write_loop (partial_data (data_symbol data0)) (data_symbol data0)) with
    (l := msg_data msg) (self := self0) (delta := delta0)
    as (self' & delta & E & [(book & Hb & _) _] & _ & _ & _ & Hix); [|done..|].
  { intros s d dl price size ? ? ?.
    destruct (partial_data_changed s (data_symbol data0) d dl price size) as (s' & ? & ?);
      eauto. }
  eexists _, self'. split; [|split].
  - rewrite book_action_when_partial by done. erewrite bind_Ok by exact E.
    by apply deliver_book_found.
  - intros s l1 d l2 price Hsplit Hs Hp Hl2.
    rewrite Hix, Hsame, Hsplit. apply indexed_last; try done.
    eapply (proj1 (list.Forall_forall _ _) Hl d). rewrite Hsplit.
    apply elem_of_app. right. left.
  - intros s oid Hno. rewrite Hix, Hsame. by apply indexed_untouched.
Qed.

Lemma snapshot_indexes_entries_witness :
  ∃ calls self',
    _book snapshot1 (dec 0) engine0 = Ok calls self' ∧
    (∀ s l1 d l2 price,
       msg_data snapshot1 = l1 ++ d :: l2 →
       side_of d = s → data_price d = Some price →
       (∀ d', d' ∈ l2 → side_of d' = s → data_id d' ≠ data_id d) →
       index_of self' "XBTUSD" s !! data_id d = Some price) ∧
    (∀ s oid,
       (∀ d, d ∈ msg_data snapshot1 → side_of d = s → data_id d ≠ oid) →
       index_of self' "XBTUSD" s !! oid = index_of engine0 "XBTUSD" s !! oid).
Proof.
  apply (snapshot_indexes_entries engine0 snapshot1 (dec 0)
           (bid_entry 1 (Some (dec 100)) (Some (dec 5))) []).
  - reflexivity.
  - reflexivity.
  - exact engine0_ready.
  - exact snapshot1_priced.
Defined.

Lemma resized_pair_inv index d price size :
  resized_pair index d = Some (price, size) →
  index (side_of d) !! data_id d = Some price ∧ data_size d = Some size.
Proof.
  unfold resized_pair. destruct (index (side_of d) !! data_id d); [|done].
  destruct (data_size d); [|done]. by intros [= -> ->].
Qed.

Lemma update_loop pair (index : Side → Ids) l : ∀ self delta,
  ready self pair → (∀ s, index_of self pair s = index s) → updatable index l →
  ∃ self' delta', for_each (update_data pair) l delta self = Ok delta' self' ∧
    ready self' pair ∧ frame pair self self' ∧
    partial_received self' = partial_received self ∧
    (∀ s, index_of self' pair s = index s) ∧
    (∀ s, levels_of self' pair s = foldl (resize_level index s) (levels_of self pair s) l) ∧
    (∀ s, delta_get delta' s = delta_get delta s ++ resized_delta index s l).
Proof.
  induction l as [|d l IH]; intros self delta Hr Hsame Hl.
  { exists self, delta. split; [done|]. split; [done|]. split; [apply frame_refl|].
    split; [done|]. split; [done|]. split; [done|]. intros s. by rewrite app_nil_r. }
  apply list.Forall_cons in Hl as [[[price size] Hpair] Hl].
  destruct (resized_pair_inv _ _ _ _ Hpair) as [Hi Hz].
  rewrite <-Hsame in Hi.
  destruct (update_data_changed self pair d delta price size Hr Hz Hi) as (self1 & E1 & C1).
  assert (∀ s, index_of self1 pair s = index s) as Hsame1.
  { intros s. rewrite <-Hsame. destruct (decide (s = side_of d)) as [->|Hs]; by apply C1. }
  destruct (IH self1 (delta_append delta (side_of d) (price, size))
              (ch_ready _ _ _ _ _ _ C1) Hsame1 Hl)
    as (self' & delta' & E & Hr' & Hf & Hpr & Hix & Hlv & Hdl).
  exists self', delta'.
  split; [|split; [done|split; [|split; [|split; [done|split]]]]].
  - rewrite for_each_cons. by erewrite bind_Ok.
  - eapply frame_trans; [by eapply changed_frame|done].
  - by rewrite Hpr, (ch_partial _ _ _ _ _ _ C1).
  - intros s. rewrite Hlv. simpl. f_equal.
    unfold resize_level. rewrite Hpair. case_decide as Hs.
    + subst s. apply C1.
    + apply C1. congruence.
  - intros s. rewrite Hdl, delta_get_append, <-app_assoc. f_equal.
    unfold resized_delta. cbn [omap list_omap].
    destruct (decide (s = side_of d)) as [->|Hs].
    + by rewrite decide_True, Hpair.
    + rewrite decide_False; [done|congruence].
Qed.

(** X6. After the snapshot, an update message for a symbol with a book,
    every entry of which carries a size and names an identifier of the
    index on its side, returns and delivers one update that is not forced.
    The index is as before; each side of the book is the one from before
    with the new sizes written in order at the indexed prices; the delta of
    each side lists the (indexed price, new size) pairs of its entries in
    order; the gates and the other symbols are as before. *)
Theorem update_resizes_levels (self : Bitmex) (data0 : Data) (rest : list Data)
    (timestamp : Time) :
  gate self (data_symbol data0) = true →
  has_book self (data_symbol data0) →
  updatable (index_of self (data_symbol data0)) (data0 :: rest) →
  ∃ self' book delta,
    _book (mkMsg "update" (data0 :: rest)) timestamp self =
      Ok [book_callback book L2_BOOK (data_symbol data0) false delta timestamp timestamp] self' ∧
    l2_book self' !! data_symbol data0 = Some book ∧
    (∀ s, index_of self' (data_symbol data0) s = index_of self (data_symbol data0) s) ∧
    (∀ s, levels_of self' (data_symbol data0) s =
          foldl (resize_level (index_of self (data_symbol data0)) s)
            (levels_of self (data_symbol data0) s) (data0 :: rest)) ∧
    (∀ s, delta_get delta s =
          resized_delta (index_of self (data_symbol data0)) s (data0 :: rest)) ∧
    frame (data_symbol data0) self self' ∧
    partial_received self' = partial_received self.
Proof.
  intros Hg Hb Hl.
  assert (ready self (data_symbol data0)) as Hr.
  { split; [done|]. pose proof Hl as Hl'.
    apply list.Forall_cons in Hl' as [[[price size] Hpair] _].
    destruct (resized_pair_inv _ _ _ _ Hpair) as [Hi _].
    destruct (index_side_found _ _ _ _ _ Hi) as (sides & E & _).
    unfold has_index. rewrite E. eauto. }
  destruct (update_loop (data_symbol data0) (index_of self (data_symbol data0))
              (data0 :: rest) self delta0 Hr (λ s, eq_refl) Hl)
    as (self' & delta & E & [(book & Hbook & _) _] & Hf & Hpr & Hix & Hlv & Hdl).
  exists self', book, delta.
  split; [|split; [done|split; [done|split; [done|split; [|done]]]]].
  - rewrite (book_gate_open self _ timestamp data0 rest) by done.
    rewrite book_action_update. erewrite bind_Ok by exact E.
    by apply deliver_book_found.
  - intros s. rewrite Hdl. by destruct s.
Qed.

Lemma update_resizes_levels_witness :
  ∃ self' book delta,
    _book (mkMsg "update" [bid_entry 1 None (Some (dec 6)); bid_entry 2 None (Some (dec 7))])
      (dec 2) after_insert =
      Ok [book_callback book L2_BOOK "XBTUSD" false delta (dec 2) (dec 2)] self' ∧
    l2_book self' !! "XBTUSD" = Some book ∧
    (∀ s, index_of self' "XBTUSD" s = index_of after_insert "XBTUSD" s) ∧
    (∀ s, levels_of self' "XBTUSD" s =
          foldl (resize_level (index_of after_insert "XBTUSD") s)
            (levels_of after_insert "XBTUSD" s)
            [bid_entry 1 None (Some (dec 6)); bid_entry 2 None (Some (dec 7))]) ∧
    (∀ s, delta_get delta s =
          resized_delta (index_of after_insert "XBTUSD") s
            [bid_entry 1 None (Some (dec 6)); bid_entry 2 None (Some (dec 7))]) ∧
    frame "XBTUSD" after_insert self' ∧
    partial_received self' = partial_received after_insert.
Proof.
  apply (update_resizes_levels after_insert (bid_entry 1 None (Some (dec 6)))
           [bid_entry 2 None (Some (dec 7))] (dec 2)).
  - reflexivity.
  - eexists. split; [reflexivity|]. intros []; eexists; reflexivity.
  - repeat constructor; eexists; reflexivity.
Defined.

(** ** Messages that are dropped and messages that raise *)

(** X7. A book message with a first entry and an action other than
    partial, insert, update and delete returns without a callback; the
    books, the index and every gate are as before. *)
Theorem unknown_action_is_dropped (self : Bitmex) (msg : Msg) (timestamp : Time)
    (data0 : Data) (rest : list Data) :
  msg_data msg = data0 :: rest →
  msg_action msg ≠ "partial" → msg_action msg ≠ "insert" →
  msg_action msg ≠ "update" → msg_action msg ≠ "delete" →
  ∃ self', _book msg timestamp self = Ok [] self' ∧
    pairs self' = pairs self ∧ l2_book self' = l2_book self ∧
    order_id self' = order_id self ∧ ∀ q, gate self' q = gate self q.
Proof.
  intros Hd Hp Hi Hu Hx.
  apply String.eqb_neq in Hp, Hi, Hu, Hx.
  unfold _book, bind, partial_received_get. rewrite Hd.
  destruct (partial_received self !! data_symbol data0) as [[]|] eqn:Hg; simpl.
  - unfold _book_action. rewrite Hp, Hi, Hu, Hx. by exists self.
  - rewrite Hp. simpl. by exists self.
  - rewrite Hp. simpl. eexists. split; [reflexivity|]. repeat split; try done.
    intros q. unfold gate. simpl. destruct (decide (q = data_symbol data0)) as [->|Hq].
    + by rewrite lookup_insert_eq, Hg.
    + by rewrite lookup_insert_ne.
Qed.

Lemma unknown_action_is_dropped_witness :
  ∃ self', _book (mkMsg "replace" [bid_entry 1 None None]) (dec 0) after_partial = Ok [] self' ∧
    pairs self' = pairs after_partial ∧ l2_book self' = l2_book after_partial ∧
    order_id self' = order_id after_partial ∧ ∀ q, gate self' q = gate after_partial q.
Proof.
  apply (unknown_action_is_dropped after_partial (mkMsg "replace" [bid_entry 1 None None])
           (dec 0) (bid_entry 1 None None) []); done.
Defined.

Lemma write_without_book pair d delta self :
  l2_book self !! pair = None →
  partial_data pair d delta self = Raise KeyError self ∧
  insert_data pair d delta self = Raise KeyError self.
Proof.
  intros Hb. unfold partial_data, insert_data, bind, field, level_set, ret, raise.
  destruct (data_price d), (data_size d); simpl; by rewrite ?Hb.
Qed.

(** X8. A snapshot for a symbol that has no book raises [KeyError] at its
    first entry, after the gate of the symbol was set and with the books
    and the index as before.  From then on an insert for that symbol is
    not discarded: it raises [KeyError] as well. *)
Theorem snapshot_without_book_sets_gate (self : Bitmex) (msg : Msg) (timestamp : Time)
    (data0 : Data) (rest : list Data) :
  msg_action msg = "partial" →
  msg_data msg = data0 :: rest →
  gate self (data_symbol data0) = false →
  l2_book self !! data_symbol data0 = None →
  ∃ self',
    _book msg timestamp self = Raise KeyError self' ∧
    gate self' (data_symbol data0) = true ∧
    l2_book self' = l2_book self ∧ order_id self' = order_id self ∧
    ∀ d rest' timestamp',
      data_symbol d = data_symbol data0 →
      _book (mkMsg "insert" (d :: rest')) timestamp' self' = Raise KeyError self'.
Proof.
  intros Ha Hd Hg Hb.
  rewrite (book_gate_closed self msg timestamp data0 rest) by done.
  set (self1 := set_partial_received _ self).
  assert (gate self1 (data_symbol data0) = true) as Hg1.
  { unfold gate, self1. simpl. by rewrite lookup_insert_eq. }
  exists self1. split; [|split; [done|split; [done|split; [done|]]]].
  - rewrite book_action_when_partial by done. rewrite Hd, for_each_cons.
    apply bind_Raise, bind_Raise. by apply write_without_book.
  - intros d rest' timestamp' Hsym.
    rewrite (book_gate_open self1 _ timestamp' d rest') by (by rewrite ?Hsym).
    rewrite book_action_insert, for_each_cons.
    apply bind_Raise, bind_Raise. apply write_without_book. by rewrite Hsym.
Qed.

Lemma snapshot_without_book_sets_gate_witness :
  let data0 := mkData "ETHUSD" 1 "Buy" (Some (dec 5)) (Some (dec 100)) in
  ∃ self',
    _book (mkMsg "partial" [data0]) (dec 0) engine0 = Raise KeyError self' ∧
    gate self' "ETHUSD" = true ∧
    l2_book self' = l2_book engine0 ∧ order_id self' = order_id engine0 ∧
    ∀ d rest' timestamp',
      data_symbol d = "ETHUSD" →
      _book (mkMsg "insert" (d :: rest')) timestamp' self' = Raise KeyError self'.
Proof.
  intros data0.
  apply (snapshot_without_book_sets_gate engine0 (mkMsg "partial" [data0]) (dec 0) data0 []);
    reflexivity.
Defined.

Lemma unpriced_write pair d delta self :
  data_price d = None ∨ data_size d = None →
  partial_data pair d delta self = Raise KeyError self ∧
  insert_data pair d delta self = Raise KeyError self.
Proof.
  unfold partial_data, insert_data, bind, field, ret, raise.
  intros [-> | ->]; [done|]. by destruct (data_price d).
Qed.

(** X9. After the snapshot, a partial or insert message with an entry
    that lacks its price or its size raises [KeyError] at that entry and
    awaits no callback: the state is exactly the one the entries before it
    left, so nothing of the entry itself is written. *)
Theorem unpriced_entry_raises (self self1 : Bitmex) (action : string)
    (l1 : list Data) (d : Data) (l2 : list Data) (delta1 : Delta) (timestamp : Time) :
  gate self (data_symbol (hd d l1)) = true →
  (action = "partial" ∧
   for_each (partial_data (data_symbol (hd d l1))) l1 delta0 self = Ok delta1 self1) ∨
  (action = "insert" ∧
   for_each (insert_data (data_symbol (hd d l1))) l1 delta0 self = Ok delta1 self1) →
  data_price d = None ∨ data_size d = None →
  _book (mkMsg action (l1 ++ d :: l2)) timestamp self = Raise KeyError self1.
Proof.
  intros Hg Hpre Hno.
  assert (∃ rest, l1 ++ d :: l2 = hd d l1 :: rest) as [rest Hd]
    by (destruct l1; eexists; reflexivity).
  rewrite (book_gate_open self _ timestamp (hd d l1) rest) by done.
  destruct Hpre as [[-> Hpre] | [-> Hpre]].
  - rewrite book_action_partial. apply bind_Raise.
    rewrite for_each_app. erewrite bind_Ok by exact Hpre.
    rewrite for_each_cons. apply bind_Raise. by apply unpriced_write.
  - rewrite book_action_insert. apply bind_Raise.
    rewrite for_each_app. erewrite bind_Ok by exact Hpre.
    rewrite for_each_cons. apply bind_Raise. by apply unpriced_write.
Qed.

Lemma unpriced_entry_raises_witness :
  _book (mkMsg "insert" ([] ++ bid_entry 3 None (Some (dec 4)) :: [])) (dec 0) after_partial
  = Raise KeyError after_partial.
Proof.
  apply (unpriced_entry_raises after_partial after_partial "insert" []
           (bid_entry 3 None (Some (dec 4))) [] delta0 (dec 0)).
  - reflexivity.
  - right. split; reflexivity.
  - left. reflexivity.
Defined.

Lemma delete_data_stale_changed pair data delta self price :
  has_book self pair →
  index_of self pair (side_of data) !! data_id data = Some price →
  levels_of self pair (side_of data) !! price = None →
  ∃ self', delete_data pair data delta self = Raise KeyError self' ∧
    changed pair (side_of data) (levels_of self pair (side_of data))
      (delete (data_id data) (index_of self pair (side_of data))) self self'.
Proof.
  intros Hb Hi Hl.
  destruct (index_del_changed self pair (side_of data) (data_id data) price Hb Hi)
    as (s1 & E1 & C1).
  exists s1. split; [|done]. unfold delete_data, bind.
  rewrite (index_get_found _ _ _ _ _ Hi), E1, level_del_raise; [done|].
  by rewrite (ch_levels _ _ _ _ _ _ C1).
Qed.

(** X10. After the snapshot, a delete message whose first entry names an
    identifier that the index holds at a price where the book has no level
    raises [KeyError] and awaits no callback; the identifier has been
    removed from the index by then, and the book, the rest of the index,
    the gates and the other symbols are as before. *)
Theorem stale_delete_drops_identifier (self : Bitmex) (data0 : Data) (rest : list Data)
    (timestamp : Time) (price : Qc) :
  gate self (data_symbol data0) = true →
  has_book self (data_symbol data0) →
  index_of self (data_symbol data0) (side_of data0) !! data_id data0 = Some price →
  levels_of self (data_symbol data0) (side_of data0) !! price = None →
  ∃ self',
    _book (mkMsg "delete" (data0 :: rest)) timestamp self = Raise KeyError self' ∧
    index_of self' (data_symbol data0) (side_of data0) =
      delete (data_id data0) (index_of self (data_symbol data0) (side_of data0)) ∧
    index_of self' (data_symbol data0) (other_side (side_of data0)) =
      index_of self (data_symbol data0) (other_side (side_of data0)) ∧
    (∀ s, levels_of self' (data_symbol data0) s = levels_of self (data_symbol data0) s) ∧
    frame (data_symbol data0) self self' ∧
    partial_received self' = partial_received self.
Proof.
  intros Hg Hb Hi Hl.
  destruct (delete_data_stale_changed (data_symbol data0) data0 delta0 self price Hb Hi Hl)
    as (self' & E & C).
  exists self'. split; [|split; [apply C|split; [|split; [|split]]]].
  - rewrite (book_gate_open self _ timestamp data0 rest) by done.
    rewrite book_action_delete, for_each_cons. by apply bind_Raise, bind_Raise.
  - apply C. by destruct (side_of data0).
  - intros s. destruct (decide (s = side_of data0)) as [->|Hs]; by apply C.
  - by eapply changed_frame.
  - apply C.
Qed.

Lemma stale_delete_drops_identifier_witness :
  ∃ self',
    _book (mkMsg "delete" [bid_entry 2 None None]) (dec 0) after_shared_delete
      = Raise KeyError self' ∧
    index_of self' "XBTUSD" BID = delete 2 (index_of after_shared_delete "XBTUSD" BID) ∧
    index_of self' "XBTUSD" ASK = index_of after_shared_delete "XBTUSD" ASK ∧
    (∀ s, levels_of self' "XBTUSD" s = levels_of after_shared_delete "XBTUSD" s) ∧
    frame "XBTUSD" after_shared_delete self' ∧
    partial_received self' = partial_received after_shared_delete.
Proof.
  apply (stale_delete_drops_identifier after_shared_delete (bid_entry 2 None None) []
           (dec 0) (dec 100)).
  - reflexivity.
  - eexists. split; [reflexivity|]. intros []; eexists; reflexivity.
  - reflexivity.
  - reflexivity.
Defined.

(** ** Which messages can break the index *)

Lemma book_action_sound_without_delete msg timestamp pair forced delta self calls self' :
  sound self → msg_action msg ≠ "delete" →
  _book_action msg timestamp pair forced delta self = Ok calls self' →
  sound self'.
Proof.
  intros Hs Hnd. unfold _book_action, deliver_book.
  destruct (String.eqb (msg_action msg) "delete") eqn:Hx;
    [by apply String.eqb_eq in Hx|].
  repeat case_match; unfold bind;
    try (destruct (for_each _ _ _ _) as [delta' s1|] eqn:E; [|done];
         destruct (l2_book s1 !! pair); [|done]; intros [= _ <-]; revert E).
  - apply for_each_invariant; [|done]. intros x acc acc' s s' Hsound E.
    destruct (partial_data_inv _ _ _ _ _ _ (proj1 Hsound) E) as (price & size & C).
    by eapply inserted_sound.
  - apply for_each_invariant; [|done]. intros x acc acc' s s' Hsound E.
    destruct (insert_data_inv _ _ _ _ _ _ (proj1 Hsound) E) as (price & size & C).
    by eapply inserted_sound.
  - apply for_each_invariant; [|done]. intros x acc acc' s s' Hsound E.
    destruct (update_data_inv _ _ _ _ _ _ (proj1 Hsound) E) as (price & size & _ & C).
    by eapply updated_sound.
  - unfold ret. by intros [= _ <-].
Qed.

(** X11. A book message that is not a delete and returns keeps the index
    consistent, whatever prices its entries share: if before it every
    symbol with an index has a book and every indexed identifier names a
    price that has a level, the same holds after it. *)
Theorem consistency_kept_without_delete (self self' : Bitmex) (msg : Msg) (timestamp : Time)
    (calls : list Call) :
  sound self → msg_action msg ≠ "delete" →
  _book msg timestamp self = Ok calls self' →
  sound self'.
Proof.
  intros Hs Hnd. unfold _book. destruct (msg_data msg) as [|data0 rest]; [done|].
  unfold bind, partial_received_get, partial_received_set.
  destruct (partial_received self !! data_symbol data0) as [[]|]; simpl;
    destruct (String.eqb (msg_action msg) "partial"); simpl;
    try (unfold ret; by intros [= _ <-]);
    by apply book_action_sound_without_delete.
Qed.

Lemma consistency_kept_without_delete_witness : sound after_shared.
Proof.
  apply (consistency_kept_without_delete engine0 after_shared shared_snapshot (dec 0)
           (calls_of (_book shared_snapshot (dec 0) engine0))).
  - split; [apply reset_booked|apply reset_index_consistent].
  - done.
  - reflexivity.
Defined.

Lemma book_action_unshared msg timestamp pair forced delta self calls self' :
  booked self → unshared self →
  msg_action msg = "update" ∨ msg_action msg = "delete" →
  _book_action msg timestamp pair forced delta self = Ok calls self' →
  booked self' ∧ unshared self'.
Proof.
  intros Hb Hu Ha. unfold _book_action, deliver_book.
  destruct Ha as [-> | ->]; simpl; unfold bind;
    (destruct (for_each _ _ _ _) as [delta' s1|] eqn:E; [|done]);
    (destruct (l2_book s1 !! pair); [|done]); intros [= _ <-]; revert E.
  - apply (for_each_invariant (λ s, booked s ∧ unshared s)); [|done].
    intros x acc acc' s s' [Hbs Hus] E.
    destruct (update_data_inv _ _ _ _ _ _ Hbs E) as (price & size & _ & C).
    split; [by eapply changed_booked|].
    eapply changed_unshared; [done..|]. intros i j p Hi Hj. by eapply Hus.
  - apply (for_each_invariant (λ s, booked s ∧ unshared s)); [|done].
    intros x acc acc' s s' [Hbs Hus] E.
    destruct (delete_data_inv _ _ _ _ _ _ Hbs E) as (price & _ & C).
    split; [by eapply changed_booked|].
    eapply changed_unshared; [done..|].
    intros i j p [_ H1]%lookup_delete_Some [_ H2]%lookup_delete_Some. by eapply Hus.
Qed.

(** X12. An update or delete message that returns never brings two
    identifiers of a symbol and side to the same price: if no price is
    shared before it, none is shared after it.  Only a partial or an insert
    can introduce a shared price. *)
Theorem update_and_delete_keep_prices_unshared (self self' : Bitmex) (msg : Msg)
    (timestamp : Time) (calls : list Call) :
  booked self → unshared self →
  msg_action msg = "update" ∨ msg_action msg = "delete" →
  _book msg timestamp self = Ok calls self' →
  booked self' ∧ unshared self'.
Proof.
  intros Hb Hu Ha. unfold _book. destruct (msg_data msg) as [|data0 rest]; [done|].
  assert (String.eqb (msg_action msg) "partial" = false) as Hp
    by (destruct Ha as [-> | ->]; reflexivity).
  unfold bind, partial_received_get, partial_received_set. rewrite Hp.
  destruct (partial_received self !! data_symbol data0) as [[]|]; simpl;
    try (unfold ret; by intros [= _ <-]).
  by apply book_action_unshared.
Qed.

Lemma same_keys_booked a b : same_keys a b → booked a → booked b.
Proof.
  intros K Ha q Hq. apply (same_keys_has_book _ _ _ K), Ha. by apply (sk_index _ _ K).
Qed.

Lemma after_insert_booked_unshared : booked after_insert ∧ unshared after_insert.
Proof.
  split.
  - eapply same_keys_booked; [apply book_keys|].
    eapply same_keys_booked; [apply book_keys|]. apply reset_booked.
  - apply unshared_prices_unshared. vm_compute. reflexivity.
Defined.

Lemma update_and_delete_keep_prices_unshared_witness :
  booked (state_of (_book (mkMsg "delete" [bid_entry 1 None None]) (dec 3) after_insert)) ∧
  unshared (state_of (_book (mkMsg "delete" [bid_entry 1 None None]) (dec 3) after_insert)).
Proof.
  apply (update_and_delete_keep_prices_unshared after_insert _
           (mkMsg "delete" [bid_entry 1 None None]) (dec 3)
           (calls_of (_book (mkMsg "delete" [bid_entry 1 None None]) (dec 3) after_insert))).
  - apply after_insert_booked_unshared.
  - apply after_insert_booked_unshared.
  - right. reflexivity.
  - reflexivity.
Defined.

(** ** [_reset] and the messages before it *)

(** X13. After [_reset] every gate is unset and every index is empty;
    each configured pair has a book whose two sides are empty and has an
    index; the symbols with an index are exactly the configured pairs; and
    a symbol that is not configured keeps whatever book it had. *)
Theorem reset_clears_configured_pairs (self : Bitmex) :
  pairs (_reset self) = pairs self ∧
  (∀ q, gate (_reset self) q = false) ∧
  (∀ q s, index_of (_reset self) q s = ∅) ∧
  (∀ q, has_index (_reset self) q ↔ q ∈ pairs self) ∧
  (∀ q, q ∈ pairs self →
        has_book (_reset self) q ∧ ∀ s, levels_of (_reset self) q s = ∅) ∧
  (∀ q, q ∉ pairs self → l2_book (_reset self) !! q = l2_book self !! q).
Proof.
  split; [apply reset_pairs|]. split; [apply reset_gate|]. split; [apply reset_index_of|].
  split; [|split].
  - intros q. unfold has_index. rewrite reset_order_id. case_decide; split; eauto.
    + by intros [? ?].
    + done.
  - intros q Hq. split; [|intros s; by apply reset_levels_of].
    exists new_book. rewrite reset_l2_book, decide_True by done.
    split; [done|]. intros []; eexists; reflexivity.
  - intros q Hq. by rewrite reset_l2_book, decide_False.
Qed.

(** X14. When only configured pairs have a book, [_reset] wipes out
    whatever a book message did, whether the message returned or raised:
    resetting after the message gives the state that resetting before it
    gives.  The condition holds again after the message. *)
Theorem reset_forgets_message (self : Bitmex) (msg : Msg) (timestamp : Time) :
  (∀ q, is_Some (l2_book self !! q) → q ∈ pairs self) →
  _reset (state_of (_book msg timestamp self)) = _reset self ∧
  ∀ q, is_Some (l2_book (state_of (_book msg timestamp self)) !! q) →
       q ∈ pairs (state_of (_book msg timestamp self)).
Proof.
  intros Hdom. pose proof (book_keys msg timestamp self) as K.
  destruct (same_keys_dom _ _ K) as [Hb _].
  pose proof (sk_pairs _ _ K) as Hp.
  assert (∀ q, is_Some (l2_book (state_of (_book msg timestamp self)) !! q) →
               q ∈ pairs self) as Hdom'.
  { intros q Hq. apply Hdom. by rewrite <-!elem_of_dom, Hb in *. }
  split; [|intros q Hq; rewrite Hp; by apply Hdom'].
  apply Bitmex_eq.
  - by rewrite !reset_pairs.
  - apply map_eq. intros q. rewrite !reset_l2_book, Hp.
    case_decide as Hq; [done|].
    destruct (l2_book (state_of (_book msg timestamp self)) !! q) eqn:E1.
    { exfalso. apply Hq, Hdom'. by rewrite E1. }
    destruct (l2_book self !! q) eqn:E2; [|done].
    exfalso. apply Hq, Hdom. by rewrite E2.
  - by rewrite !reset_partial_received.
  - apply map_eq. intros q. by rewrite !reset_order_id, Hp.
Qed.

Lemma reset_forgets_message_witness :
  _reset (state_of (_book snapshot1 (dec 0) engine0)) = _reset engine0 ∧
  ∀ q, is_Some (l2_book (state_of (_book snapshot1 (dec 0) engine0)) !! q) →
       q ∈ pairs (state_of (_book snapshot1 (dec 0) engine0)).
Proof.
  apply (reset_forgets_message engine0 snapshot1 (dec 0)).
  intros q [book Hq]. unfold engine0 in *. rewrite reset_l2_book in Hq.
  rewrite reset_pairs. by case_decide.
Defined.

(** ** Insert and delete undo each other *)

(** X15. After the snapshot, on a symbol with book and index, inserting
    an entry at a price that has no level on its side, under an identifier
    that the index does not hold on that side, and then deleting that
    identifier gives back the book and the index of every symbol and the
    gates as they were before the insert. *)
Theorem insert_then_delete_restores (self : Bitmex) (data : Data)
    (price size : Qc) (timestamp timestamp' : Time) :
  gate self (data_symbol data) = true →
  ready self (data_symbol data) →
  data_price data = Some price → data_size data = Some size →
  levels_of self (data_symbol data) (side_of data) !! price = None →
  index_of self (data_symbol data) (side_of data) !! data_id data = None →
  ∃ calls1 self1 calls2 self2,
    _book (mkMsg "insert" [data]) timestamp self = Ok calls1 self1 ∧
    _book (mkMsg "delete" [data]) timestamp' self1 = Ok calls2 self2 ∧
    (∀ q s, levels_of self2 q s = levels_of self q s) ∧
    (∀ q s, index_of self2 q s = index_of self q s) ∧
    partial_received self2 = partial_received self.
Proof.
  intros Hg Hr Hp Hz Hl Hi.
  destruct (insert_data_changed self (data_symbol data) data delta0 price size Hr Hp Hz)
    as (self1 & E1 & C1).
  assert (index_of self1 (data_symbol data) (side_of data) !! data_id data = Some price) as Hi1
    by (rewrite (ch_index _ _ _ _ _ _ C1); apply lookup_insert_eq).
  assert (levels_of self1 (data_symbol data) (side_of data) !! price = Some size) as Hl1
    by (rewrite (ch_levels _ _ _ _ _ _ C1); apply lookup_insert_eq).
  destruct (delete_data_changed self1 (data_symbol data) data delta0 price size
              (ch_ready _ _ _ _ _ _ C1) Hi1 Hl1) as (self2 & E2 & C2).
  destruct (ch_ready _ _ _ _ _ _ C1) as [(book1 & Hb1 & _) _].
  destruct (ch_ready _ _ _ _ _ _ C2) as [(book2 & Hb2 & _) _].
  assert (gate self1 (data_symbol data) = true) as Hg1
    by (by rewrite (changed_gate _ _ _ _ _ _ _ C1)).
  eexists _, self1, _, self2. split; [|split; [|split; [|split]]].
  - rewrite (book_gate_open self _ timestamp data []) by done.
    rewrite book_action_insert, for_each_cons.
    erewrite bind_Ok; [|erewrite bind_Ok; [reflexivity|exact E1]].
    by apply deliver_book_found.
  - rewrite (book_gate_open self1 _ timestamp' data []) by done.
    rewrite book_action_delete, for_each_cons.
    erewrite bind_Ok; [|erewrite bind_Ok; [reflexivity|exact E2]].
    by apply deliver_book_found.
  - intros q s. destruct (decide (q = data_symbol data)) as [->|Hq].
    + destruct (decide (s = side_of data)) as [->|Hs].
      * rewrite (ch_levels _ _ _ _ _ _ C2), (ch_levels _ _ _ _ _ _ C1).
        by apply delete_insert_id.
      * by rewrite (ch_levels_side _ _ _ _ _ _ C2), (ch_levels_side _ _ _ _ _ _ C1).
    + by rewrite (changed_levels_other _ _ _ _ _ _ _ _ C2),
                 (changed_levels_other _ _ _ _ _ _ _ _ C1).
  - intros q s. destruct (decide (q = data_symbol data)) as [->|Hq].
    + destruct (decide (s = side_of data)) as [->|Hs].
      * rewrite (ch_index _ _ _ _ _ _ C2), (ch_index _ _ _ _ _ _ C1).
        by apply delete_insert_id.
      * by rewrite (ch_index_side _ _ _ _ _ _ C2), (ch_index_side _ _ _ _ _ _ C1).
    + by rewrite (changed_index_other _ _ _ _ _ _ _ _ C2),
                 (changed_index_other _ _ _ _ _ _ _ _ C1).
  - by rewrite (ch_partial _ _ _ _ _ _ C2), (ch_partial _ _ _ _ _ _ C1).
Qed.

Lemma after_partial_ready : ready after_partial "XBTUSD".
Proof.
  split.
  - eexists. split; [reflexivity|]. intros []; eexists; reflexivity.
  - eexists. reflexivity.
Defined.

Lemma insert_then_delete_restores_witness :
  let data := bid_entry 2 (Some (dec 99)) (Some (dec 3)) in
  ∃ calls1 self1 calls2 self2,
    _book (mkMsg "insert" [data]) (dec 1) after_partial = Ok calls1 self1 ∧
    _book (mkMsg "delete" [data]) (dec 2) self1 = Ok calls2 self2 ∧
    (∀ q s, levels_of self2 q s = levels_of after_partial q s) ∧
    (∀ q s, index_of self2 q s = index_of after_partial q s) ∧
    partial_received self2 = partial_received after_partial.
Proof.
  intros data.
  apply (insert_then_delete_restores after_partial data (dec 99) (dec 3) (dec 1) (dec 2)).
  - reflexivity.
  - exact after_partial_ready.
  - reflexivity.
  - reflexivity.
  - reflexivity.
  - reflexivity.
Defined.

(** ** Runs without a partial *)

Lemma book_discarded self msg timestamp data0 rest :
  msg_data msg = data0 :: rest → gate self (data_symbol data0) = false →
  msg_action msg ≠ "partial" →
  ∃ self', _book msg timestamp self = Ok [] self' ∧
    l2_book self' = l2_book self ∧ order_id self' = order_id self ∧
    ∀ q, gate self' q = gate self q.
Proof.
  intros Hd Hg Ha. apply String.eqb_neq in Ha.
  unfold _book, bind, partial_received_get. rewrite Hd.
  apply gate_false in Hg as [Hg | Hg]; rewrite Hg; simpl; rewrite Ha; simpl.
  - by exists self.
  - eexists. split; [reflexivity|]. repeat split; try done.
    intros q. unfold gate. simpl. destruct (decide (q = data_symbol data0)) as [->|Hq].
    + by rewrite lookup_insert_eq, Hg.
    + by rewrite lookup_insert_ne.
Qed.

(** X16. While no gate is set, as after a reset, a run of book messages
    none of which is a partial delivers no callback, and in every state
    between its messages the books and the index are those of the start
    and every gate is still unset. *)
Theorem nothing_happens_before_a_partial (self : Bitmex) (msgs : list (Msg * Time)) :
  (∀ q, gate self q = false) →
  Forall (λ m, msg_action m.1 ≠ "partial") msgs →
  deliveries msgs self = [] ∧
  Forall (λ s, l2_book s = l2_book self ∧ order_id s = order_id self ∧
               ∀ q, gate s q = false) (states msgs self).
Proof.
  revert self. induction msgs as [|[msg timestamp] msgs IH]; intros self Hg Hall.
  { split; [done|]. simpl. by repeat constructor. }
  apply list.Forall_cons in Hall as [Ha Hall]. simpl in Ha.
  cbn [deliveries states].
  destruct (msg_data msg) as [|data0 rest] eqn:Hd.
  { unfold _book. rewrite Hd. simpl. split; [done|]. by repeat constructor. }
  destruct (book_discarded self msg timestamp data0 rest Hd (Hg _) Ha)
    as (self' & -> & Hb & Hi & Hg').
  assert (∀ q, gate self' q = false) as Hg1 by (intros q; by rewrite Hg').
  destruct (IH self' Hg1 Hall) as [Hdel Hst].
  split; [done|]. constructor; [done|].
  eapply list.Forall_impl; [exact Hst|].
  intros s (? & ? & ?). split; [congruence|]. split; [congruence|done].
Qed.

Lemma nothing_happens_before_a_partial_witness :
  let msgs := [ (mkMsg "insert" [bid_entry 2 (Some (dec 99)) (Some (dec 3))], dec 1);
                (mkMsg "delete" [bid_entry 1 None None], dec 2) ] in
  deliveries msgs engine0 = [] ∧
  Forall (λ s, l2_book s = l2_book engine0 ∧ order_id s = order_id engine0 ∧
               ∀ q, gate s q = false) (states msgs engine0).
Proof.
  intros msgs. apply (nothing_happens_before_a_partial engine0 msgs).
  - intros q. apply reset_gate.
  - repeat constructor; done.
Defined.

(** ** The dispatcher *)

(** X17. When [message_handler] changes the state or delivers a
    callback, the message had no info, subscribe or error key and carried
    a table, and the outcome is that of the handler of the table; when the
    state changed, the table is the order book.  Control messages and the
    trade, quote, funding and instrument tables leave the engine as it
    was. *)
Theorem only_book_messages_change_state (timestamp_normalize : string → string → Time)
    (msg : Decoded) (timestamp : Time) (self : Bitmex) :
  state_of (message_handler_decoded timestamp_normalize msg timestamp self) ≠ self ∨
  calls_of (message_handler_decoded timestamp_normalize msg timestamp self) ≠ [] →
  decoded_info msg = false ∧ decoded_subscribe msg = false ∧ decoded_error msg = false ∧
  ∃ table,
    decoded_table msg = Some table ∧
    message_handler_decoded timestamp_normalize msg timestamp self =
      message_handler timestamp_normalize table timestamp self ∧
    (state_of (message_handler_decoded timestamp_normalize msg timestamp self) ≠ self →
     is_book table = true).
Proof.
  unfold message_handler_decoded.
  destruct (decoded_info msg); [intros [?|?]; done|].
  destruct (decoded_subscribe msg).
  { unfold bind, field, ret, raise. destruct (decoded_success msg); intros [?|?]; done. }
  destruct (decoded_error msg); [intros [?|?]; done|].
  unfold bind, field, ret, raise.
  destruct (decoded_table msg) as [table|]; [|intros [?|?]; done].
  intros _. split; [done|]. split; [done|]. split; [done|].
  exists table. split; [done|]. split; [done|].
  by destruct table.
Qed.

Lemma only_book_messages_change_state_witness :
  let msg := mkDecoded false false None false (Some (orderBookL2 snapshot1)) in
  decoded_info msg = false ∧ decoded_subscribe msg = false ∧ decoded_error msg = false ∧
  ∃ table,
    decoded_table msg = Some table ∧
    message_handler_decoded text_clock msg (dec 0) engine0 =
      message_handler text_clock table (dec 0) engine0 ∧
    (state_of (message_handler_decoded text_clock msg (dec 0) engine0) ≠ engine0 →
     is_book table = true).
Proof.
  intros msg.
  apply (only_book_messages_change_state text_clock msg (dec 0) engine0).
  right. done.
Defined.

(** X18. The trade, quote and funding handlers deliver one callback per
    entry, in the order of the entries and each for the symbol of its
    entry; the instrument handler does so for the entries that carry an
    open interest and skips the others. *)
Theorem normalizers_follow_entries (timestamp_normalize : string → string → Time)
    (timestamp : Time) :
  (∀ data, call_pair <$> _trade timestamp_normalize data timestamp = trade_symbol <$> data) ∧
  (∀ data, call_pair <$> _ticker timestamp_normalize data timestamp = quote_symbol <$> data) ∧
  (∀ data, call_pair <$> _funding timestamp_normalize data timestamp
           = funding_symbol <$> data) ∧
  (∀ data, call_pair <$> _instrument timestamp_normalize data timestamp =
           instrument_symbol <$> filter (λ d, is_Some (instrument_openInterest d)) data).
Proof.
  split; [|split; [|split]]; intros data.
  - unfold _trade. induction data as [|d data IH]; [done|]. simpl. by f_equal.
  - unfold _ticker. induction data as [|d data IH]; [done|]. simpl. by f_equal.
  - unfold _funding. induction data as [|d data IH]; [done|]. simpl. by f_equal.
  - unfold _instrument. induction data as [|d data IH]; [done|].
    cbn [omap list_omap]. rewrite filter_cons.
    destruct (instrument_openInterest d) as [oi|] eqn:Hoi.
    + rewrite decide_True by eauto. simpl. by f_equal.
    + rewrite decide_False by (by intros [? ?]). done.
Qed.

(** ** [subscribe] *)

(** X19. [subscribe] resets the engine and sends one message with
    [op = "subscribe"].  When [config] is not set its arguments are the
    texts [channel:pair] for every channel and every configured pair,
    channel by channel: as many as channels times pairs. *)
Theorem subscribe_lists_channels_and_pairs (channels : list string) (self : Bitmex) :
  ∃ sent,
    subscribe channels [] self = Ok sent (_reset self) ∧
    sent_op sent = "subscribe" ∧
    (∀ a, a ∈ sent_args sent ↔
          ∃ channel symbol, channel ∈ channels ∧ symbol ∈ pairs self ∧
                            a = chan_arg channel symbol) ∧
    (length (sent_args sent) = length channels * length (pairs self))%nat.
Proof.
  exists (mkSent "subscribe" (channels ≫= (λ channel, chan_arg channel <$> pairs (_reset self)))).
  split; [reflexivity|]. split; [done|]. cbn [sent_args]. rewrite reset_pairs. split.
  - intros a. rewrite list_elem_of_bind. split.
    + intros (channel & Ha & Hc). apply list_elem_of_fmap in Ha as (symbol & -> & Hs). eauto.
    + intros (channel & symbol & Hc & Hs & ->). exists channel. split; [|done].
      by apply list_elem_of_fmap_2.
  - induction channels as [|c channels IH]; [done|].
    rewrite bind_cons, length_app, length_fmap, IH. simpl. lia.
Qed.

(** X20. When [config] is set, the arguments [subscribe] sends are the
    texts [channel:pair] for every channel of [config] and every pair
    listed under that channel, whatever [self.channels] and [self.pairs]
    hold; the engine is reset all the same. *)
Theorem subscribe_follows_config (channels : list string)
    (item : string * list string) (config : list (string * list string)) (self : Bitmex) :
  ∃ sent,
    subscribe channels (item :: config) self = Ok sent (_reset self) ∧
    sent_op sent = "subscribe" ∧
    (∀ a, a ∈ sent_args sent ↔
          ∃ channel inner symbol, (channel, inner) ∈ item :: config ∧ symbol ∈ inner ∧
                                  a = chan_arg channel symbol) ∧
    length (sent_args sent) = sum_list (length <$> (item :: config).*2).
Proof.
  exists (mkSent "subscribe" ((item :: config) ≫= (λ it, chan_arg it.1 <$> it.2))).
  split; [reflexivity|]. split; [done|]. cbn [sent_args]. split.
  - intros a. rewrite list_elem_of_bind. split.
    + intros ([channel inner] & Ha & Hc). simpl in Ha.
      apply list_elem_of_fmap in Ha as (symbol & -> & Hs). by exists channel, inner, symbol.
    + intros (channel & inner & symbol & Hc & Hs & ->). exists (channel, inner).
      split; [|done]. simpl. by apply list_elem_of_fmap_2.
  - generalize (item :: config). intros l. induction l as [|[c inner] l IH]; [done|].
    rewrite bind_cons, length_app, length_fmap, IH. done.
Qed.

(** X21. Subscribing again right after a subscription sends the same
    message and leaves the same state: a resubscription starts from the
    state a first subscription starts from. *)
Theorem resubscribe_is_idempotent (channels : list string)
    (config : list (string * list string)) (self : Bitmex) :
  subscribe channels config (state_of (subscribe channels config self)) =
  subscribe channels config self.
Proof.
  unfold subscribe. simpl. rewrite reset_idempotent, !reset_pairs. done.
Qed.

Lemma has_colon_head c text :
  has_colon (String c text) = false → String c EmptyString ≠ ":" ∧ has_colon text = false.
Proof.
  cbn [has_colon]. intros H. apply orb_false_elim in H as [H1 H2].
  by apply String.eqb_neq in H1.
Qed.

(** X22. The text [channel:pair] tells the channel and the pair apart
    when the channel holds no colon: two such texts are equal only for the
    same channel and the same pair. *)
Theorem chan_arg_is_injective (channel channel' symbol symbol' : string) :
  has_colon channel = false → has_colon channel' = false →
  chan_arg channel symbol = chan_arg channel' symbol' →
  channel = channel' ∧ symbol = symbol'.
Proof.
  unfold chan_arg. revert channel'.
  induction channel as [|c channel IH]; intros [|c' channel'] Hc Hc' Heq; simpl in Heq.
  - by simplify_eq.
  - apply has_colon_head in Hc' as [Hne _]. by simplify_eq.
  - apply has_colon_head in Hc as [Hne _]. by simplify_eq.
  - apply has_colon_head in Hc as [_ Hc]. apply has_colon_head in Hc' as [_ Hc'].
    injection Heq as -> Heq. destruct (IH channel' Hc Hc' Heq) as [-> ->]. done.
Qed.

Lemma chan_arg_is_injective_witness :
  "orderBookL2" = "orderBookL2" ∧ "XBTUSD" = "XBTUSD".
Proof.
  apply (chan_arg_is_injective "orderBookL2" "orderBookL2" "XBTUSD" "XBTUSD"); reflexivity.
Defined.

(** ** [__init__] *)

Lemma check_active_None active_pairs l :
  check_active active_pairs l = None ↔ Forall (accepted active_pairs) l.
Proof.
  induction l as [|symbol l IH]; simpl; [by split|].
  rewrite list.Forall_cons, <-IH. unfold accepted.
  destruct (startswith_dot symbol); simpl.
  { split; [intros ?; split; [by left|done]|by intros [_ ?]]. }
  destruct (bool_decide (symbol ∈ active_pairs)) eqn:Hin; simpl.
  - apply bool_decide_eq_true_1 in Hin.
    split; [intros ?; split; [by right|done]|by intros [_ ?]].
  - apply bool_decide_eq_false_1 in Hin.
    split; [done|]. intros [[?|?] _]; done.
Qed.

Lemma check_active_Some active_pairs l message :
  check_active active_pairs l = Some message ↔
  ∃ l1 symbol l2, l = l1 ++ symbol :: l2 ∧ Forall (accepted active_pairs) l1 ∧
    ¬ accepted active_pairs symbol ∧ message = not_active symbol.
Proof.
  induction l as [|symbol l IH]; simpl.
  { split; [done|]. intros ([|? ?] & ? & ? & ? & _); done. }
  assert (accepted active_pairs symbol →
          (check_active active_pairs l = Some message ↔
           ∃ l1 symbol0 l2, symbol :: l = l1 ++ symbol0 :: l2 ∧
             Forall (accepted active_pairs) l1 ∧ ¬ accepted active_pairs symbol0 ∧
             message = not_active symbol0)) as Hok.
  { intros Hacc. rewrite IH. split.
    - intros (l1 & s & l2 & -> & Hl1 & Hs & ->). exists (symbol :: l1), s, l2.
      split; [done|]. split; [by constructor|done].
    - intros ([|x l1] & s & l2 & Heq & Hl1 & Hs & ->); simplify_eq/=; [done|].
      apply list.Forall_cons in Hl1 as [_ Hl1]. eauto 8. }
  unfold accepted in *.
  destruct (startswith_dot symbol) eqn:Hdot; simpl; [apply Hok; by left|].
  destruct (bool_decide (symbol ∈ active_pairs)) eqn:Hin; simpl.
  - apply bool_decide_eq_true_1 in Hin. apply Hok. by right.
  - apply bool_decide_eq_false_1 in Hin. split.
    + intros [= <-]. exists [], symbol, l. split; [done|]. split; [constructor|].
      split; [|done]. intros [?|?]; [congruence|done].
    + intros ([|x l1] & s & l2 & Heq & Hl1 & Hs & ->); simplify_eq/=; [done|].
      apply list.Forall_cons in Hl1 as [[?|?] _]; [congruence|done].
Qed.

Lemma set_pairs_same self : set_pairs (pairs self) self = self.
Proof. by destruct self. Qed.

(** X23. [__init__] gives an object exactly when every pair it checks
    starts with a dot or is among the active symbols.  The object then
    holds the checked pairs, those of [config] when it is set, and is
    freshly reset. *)
Theorem init_accepts_active_pairs (active_pairs : list string)
    (config : list (string * list string)) (self started_self : Bitmex) :
  __init__ active_pairs config self = started started_self ↔
  Forall (accepted active_pairs) (checked_pairs config self) ∧
  started_self = _reset (set_pairs (checked_pairs config self) self).
Proof.
  unfold __init__, checked_pairs.
  destruct config as [|item config].
  - rewrite set_pairs_same.
    destruct (check_active active_pairs (pairs self)) as [message|] eqn:E.
    + split; [done|]. intros [H _]. apply check_active_None in H. congruence.
    + apply check_active_None in E. split; [by intros [= <-]|]. by intros [_ ->].
  - set (ps := mjoin ((item :: config).*2)).
    change (pairs (set_pairs ps self)) with ps.
    destruct (check_active active_pairs ps) as [message|] eqn:E.
    + split; [done|]. intros [H _]. apply check_active_None in H. congruence.
    + apply check_active_None in E. split; [by intros [= <-]|]. by intros [_ ->].
Qed.

(** X24. [__init__] raises [ValueError] exactly when some checked pair
    neither starts with a dot nor is active, and the message names the
    first such pair. *)
Theorem init_rejects_first_inactive_pair (active_pairs : list string)
    (config : list (string * list string)) (self : Bitmex) (message : string) :
  __init__ active_pairs config self = ValueError message ↔
  ∃ l1 symbol l2,
    checked_pairs config self = l1 ++ symbol :: l2 ∧
    Forall (accepted active_pairs) l1 ∧
    ¬ accepted active_pairs symbol ∧
    message = String.append symbol " is not active on BitMEX".
Proof.
  rewrite <-(check_active_Some active_pairs (checked_pairs config self) message).
  unfold __init__, checked_pairs.
  destruct config as [|item config].
  - destruct (check_active active_pairs (pairs self)); split; intros; by simplify_eq.
  - set (ps := mjoin ((item :: config).*2)).
    change (pairs (set_pairs ps self)) with ps.
    destruct (check_active active_pairs ps); split; intros; by simplify_eq.
Qed.

(** * Which book the entries of a message go to *)

(** ** What a primitive that returned has done *)

Lemma bind_Ok_inv {A B} (m : M A) (k : A → M B) self b self' :
  bind m k self = Ok b self' →
  ∃ a self1, m self = Ok a self1 ∧ k a self1 = Ok b self'.
Proof. unfold bind. destruct (m self) as [a self1|]; [eauto|done]. Qed.

Lemma field_Ok_inv {A} (o : option A) self a self' :
  field o self = Ok a self' → o = Some a ∧ self' = self.
Proof. destruct o; simpl; [|done]. by intros [= -> ->]. Qed.

Lemma side_changed_trans pair s lv1 ids1 lv2 ids2 a b c :
  side_changed pair s lv1 ids1 a b → side_changed pair s lv2 ids2 b c →
  side_changed pair s lv2 ids2 a c.
Proof.
  intros H1 H2 s'. destruct (H1 s') as [L1 I1], (H2 s') as [L2 I2].
  rewrite L2, I2, L1, I1. by destruct (decide (s' = s)).
Qed.

Lemma side_changed_levels pair s lv ids a b :
  side_changed pair s lv ids a b → levels_of b pair s = lv.
Proof. intros H. destruct (H s) as [L _]. by rewrite L, decide_True. Qed.

Lemma side_changed_index pair s lv ids a b :
  side_changed pair s lv ids a b → index_of b pair s = ids.
Proof. intros H. destruct (H s) as [_ I]. by rewrite I, decide_True. Qed.

Lemma level_set_inv pair s price size self u self' :
  level_set pair s price size self = Ok u self' →
  side_changed pair s (<[price := size]> (levels_of self pair s)) (index_of self pair s)
    self self'.
Proof.
  unfold level_set. destruct (l2_book self !! pair) as [book|] eqn:Hb; [|done].
  destruct (book !! s) as [lv|] eqn:Hs; [|done]. intros [= <- <-] s'. split.
  - rewrite levels_written. unfold levels_of. rewrite Hb. simpl. by rewrite Hs.
  - by case_decide; subst.
Qed.

Lemma level_del_inv pair s price self u self' :
  level_del pair s price self = Ok u self' →
  side_changed pair s (delete price (levels_of self pair s)) (index_of self pair s)
    self self'.
Proof.
  unfold level_del. destruct (l2_book self !! pair) as [book|] eqn:Hb; [|done].
  destruct (book !! s) as [lv|] eqn:Hs; [|done].
  destruct (lv !! price); [|done]. intros [= <- <-] s'. split.
  - rewrite levels_written. unfold levels_of. rewrite Hb. simpl. by rewrite Hs.
  - by case_decide; subst.
Qed.

Lemma index_side_inv pair s self ids self' :
  index_side pair s self = Ok ids self' →
  ids = index_of self pair s ∧
  side_changed pair s (levels_of self pair s) (index_of self pair s) self self'.
Proof.
  unfold index_side. destruct (order_id self !! pair) as [sides|] eqn:Ho; [|done].
  destruct (sides !! s) as [ids0|] eqn:Hs.
  - intros [= <- <-]. split.
    + unfold index_of. rewrite Ho. simpl. by rewrite Hs.
    + intros s'. by split; case_decide; subst.
  - intros [= <- <-].
    assert (index_of self pair s = ∅) as E.
    { unfold index_of. rewrite Ho. simpl. by rewrite Hs. }
    split; [done|]. intros s'. split; [by case_decide; subst|].
    rewrite index_written. unfold index_of at 2. rewrite Ho. simpl.
    by case_decide; subst.
Qed.

Lemma index_side_store_inv pair s ids self u self' :
  index_side_store pair s ids self = Ok u self' →
  side_changed pair s (levels_of self pair s) ids self self'.
Proof.
  unfold index_side_store. destruct (order_id self !! pair) as [sides|] eqn:Ho; [|done].
  intros [= <- <-] s'. split; [by case_decide; subst|].
  rewrite index_written. unfold index_of. rewrite Ho. simpl. done.
Qed.

Lemma index_set_inv pair s oid price self u self' :
  index_set pair s oid price self = Ok u self' →
  side_changed pair s (levels_of self pair s) (<[oid := price]> (index_of self pair s))
    self self'.
Proof.
  unfold index_set. intros H.
  apply bind_Ok_inv in H as (ids & self1 & H1 & H2).
  apply index_side_inv in H1 as [-> C1]. apply index_side_store_inv in H2.
  rewrite (side_changed_levels _ _ _ _ _ _ C1) in H2.
  exact (side_changed_trans _ _ _ _ _ _ _ _ _ C1 H2).
Qed.

Lemma index_get_inv pair s oid self price self' :
  index_get pair s oid self = Ok price self' →
  index_of self pair s !! oid = Some price ∧
  side_changed pair s (levels_of self pair s) (index_of self pair s) self self'.
Proof.
  unfold index_get. intros H.
  apply bind_Ok_inv in H as (ids & self1 & H1 & H2).
  apply index_side_inv in H1 as [-> C1]. apply field_Ok_inv in H2 as [H2 ->]. done.
Qed.

Lemma index_del_inv pair s oid self u self' :
  index_del pair s oid self = Ok u self' →
  side_changed pair s (levels_of self pair s) (delete oid (index_of self pair s))
    self self'.
Proof.
  unfold index_del. intros H.
  apply bind_Ok_inv in H as (ids & self1 & H1 & H2).
  apply index_side_inv in H1 as [-> C1].
  destruct (index_of self pair s !! oid); [|done].
  apply index_side_store_inv in H2.
  rewrite (side_changed_levels _ _ _ _ _ _ C1) in H2.
  exact (side_changed_trans _ _ _ _ _ _ _ _ _ C1 H2).
Qed.

(** ** What one entry that was applied has done *)

Lemma write_data_inv pair data (delta' : Delta) (k : Qc → Qc → M Delta) self self' :
  (do price <- field (data_price data);
   do size <- field (data_size data);
   level_set pair (side_of data) price size ;;
   index_set pair (side_of data) (data_id data) price ;;
   k price size) self = Ok delta' self' →
  (∀ price size self1 delta1 self2, k price size self1 = Ok delta1 self2 → self2 = self1) →
  ∃ price size,
    data_price data = Some price ∧ data_size data = Some size ∧
    side_changed pair (side_of data)
      (<[price := size]> (levels_of self pair (side_of data)))
      (<[data_id data := price]> (index_of self pair (side_of data))) self self'.
Proof.
  intros H Hk.
  apply bind_Ok_inv in H as (price & self1 & H1 & H).
  apply field_Ok_inv in H1 as [Hp ->].
  apply bind_Ok_inv in H as (size & self1 & H1 & H).
  apply field_Ok_inv in H1 as [Hz ->].
  apply bind_Ok_inv in H as (u1 & self1 & H1 & H).
  apply bind_Ok_inv in H as (u2 & self2 & H2 & H).
  apply Hk in H as ->.
  apply level_set_inv in H1. apply index_set_inv in H2.
  rewrite (side_changed_levels _ _ _ _ _ _ H1), (side_changed_index _ _ _ _ _ _ H1) in H2.
  exists price, size. split; [done|]. split; [done|].
  exact (side_changed_trans _ _ _ _ _ _ _ _ _ H1 H2).
Qed.

Lemma partial_data_applied pair data delta delta' self self' :
  partial_data pair data delta self = Ok delta' self' →
  ∃ price size,
    data_price data = Some price ∧ data_size data = Some size ∧
    side_changed pair (side_of data)
      (<[price := size]> (levels_of self pair (side_of data)))
      (<[data_id data := price]> (index_of self pair (side_of data))) self self'.
Proof.
  intros H. apply (write_data_inv pair data delta' (λ _ _, ret delta)); [exact H|].
  by intros ????? [= _ ->].
Qed.

Lemma insert_data_applied pair data delta delta' self self' :
  insert_data pair data delta self = Ok delta' self' →
  ∃ price size,
    data_price data = Some price ∧ data_size data = Some size ∧
    side_changed pair (side_of data)
      (<[price := size]> (levels_of self pair (side_of data)))
      (<[data_id data := price]> (index_of self pair (side_of data))) self self'.
Proof.
  intros H.
  apply (write_data_inv pair data delta'
           (λ price size, ret (delta_append delta (side_of data) (price, size))));
    [exact H|].
  by intros ????? [= _ ->].
Qed.

Lemma update_data_applied pair data delta delta' self self' :
  update_data pair data delta self = Ok delta' self' →
  ∃ price size,
    index_of self pair (side_of data) !! data_id data = Some price ∧
    data_size data = Some size ∧
    side_changed pair (side_of data)
      (<[price := size]> (levels_of self pair (side_of data)))
      (index_of self pair (side_of data)) self self'.
Proof.
  unfold update_data. intros H.
  apply bind_Ok_inv in H as (size & self1 & H1 & H).
  apply field_Ok_inv in H1 as [Hz ->].
  apply bind_Ok_inv in H as (price & self1 & H1 & H).
  apply bind_Ok_inv in H as (u2 & self2 & H2 & H).
  apply bind_Ok_inv in H as (u3 & self3 & H3 & H).
  injection H as _ <-.
  apply index_get_inv in H1 as [Hi C1]. apply level_set_inv in H2.
  apply index_set_inv in H3.
  rewrite (side_changed_levels _ _ _ _ _ _ C1), (side_changed_index _ _ _ _ _ _ C1) in H2.
  rewrite (side_changed_levels _ _ _ _ _ _ H2), (side_changed_index _ _ _ _ _ _ H2) in H3.
  rewrite (insert_id (index_of self pair (side_of data))) in H3 by done.
  exists price, size. split; [done|]. split; [done|].
  exact (side_changed_trans _ _ _ _ _ _ _ _ _ C1
           (side_changed_trans _ _ _ _ _ _ _ _ _ H2 H3)).
Qed.

Lemma delete_data_applied pair data delta delta' self self' :
  delete_data pair data delta self = Ok delta' self' →
  ∃ price,
    index_of self pair (side_of data) !! data_id data = Some price ∧
    side_changed pair (side_of data)
      (delete price (levels_of self pair (side_of data)))
      (delete (data_id data) (index_of self pair (side_of data))) self self'.
Proof.
  unfold delete_data. intros H.
  apply bind_Ok_inv in H as (price & self1 & H1 & H).
  apply bind_Ok_inv in H as (u2 & self2 & H2 & H).
  apply bind_Ok_inv in H as (u3 & self3 & H3 & H).
  injection H as _ <-.
  apply index_get_inv in H1 as [Hi C1]. apply index_del_inv in H2.
  apply level_del_inv in H3.
  rewrite (side_changed_levels _ _ _ _ _ _ C1), (side_changed_index _ _ _ _ _ _ C1) in H2.
  rewrite (side_changed_levels _ _ _ _ _ _ H2), (side_changed_index _ _ _ _ _ _ H2) in H3.
  exists price. split; [done|].
  exact (side_changed_trans _ _ _ _ _ _ _ _ _ C1
           (side_changed_trans _ _ _ _ _ _ _ _ _ H2 H3)).
Qed.

(** ** What a loop that ran to its end has done *)

Lemma write_loop_inv (body : Data → Delta → M Delta) pair :
  (∀ d delta delta' self self',
     body d delta self = Ok delta' self' →
     ∃ price size,
       data_price d = Some price ∧ data_size d = Some size ∧
       side_changed pair (side_of d)
         (<[price := size]> (levels_of self pair (side_of d)))
         (<[data_id d := price]> (index_of self pair (side_of d))) self self') →
  ∀ l delta delta' self self',
    for_each body l delta self = Ok delta' self' →
    ∀ s, levels_of self' pair s = foldl (write_level s) (levels_of self pair s) l ∧
         index_of self' pair s = foldl (write_index s) (index_of self pair s) l.
Proof.
  intros Hbody. induction l as [|d l IH]; intros delta delta' self self' H s.
  { by injection H as _ <-. }
  rewrite for_each_cons in H.
  apply bind_Ok_inv in H as (delta1 & self1 & H1 & H).
  destruct (Hbody _ _ _ _ _ H1) as (price & size & Hp & Hz & C).
  destruct (IH _ _ _ _ H s) as [L I]. destruct (C s) as [L1 I1].
  rewrite L, I, L1, I1. cbn [foldl]. unfold write_level, write_index.
  rewrite Hp, Hz.
  destruct (decide (s = side_of d)) as [->|Hne].
  - by rewrite !decide_True.
  - by rewrite !decide_False.
Qed.

Lemma update_loop_inv pair (index : Side → Ids) l : ∀ delta delta' self self',
  (∀ s, index_of self pair s = index s) →
  for_each (update_data pair) l delta self = Ok delta' self' →
  ∀ s, levels_of self' pair s = foldl (resize_level index s) (levels_of self pair s) l ∧
       index_of self' pair s = index s.
Proof.
  induction l as [|d l IH]; intros delta delta' self self' Hi H s.
  { by injection H as _ <-. }
  rewrite for_each_cons in H.
  apply bind_Ok_inv in H as (delta1 & self1 & H1 & H).
  destruct (update_data_applied _ _ _ _ _ _ H1) as (price & size & Hp & Hz & C).
  assert (∀ s', index_of self1 pair s' = index s') as Hi1.
  { intros s'. destruct (C s') as [_ I1]. rewrite I1, <-Hi. by case_decide; subst. }
  destruct (IH _ _ _ _ Hi1 H s) as [L I]. destruct (C s) as [L1 _].
  split; [|done]. rewrite L, L1. cbn [foldl]. unfold resize_level, resized_pair.
  rewrite <-Hi, Hp, Hz.
  destruct (decide (s = side_of d)) as [->|Hne].
  - by rewrite !decide_True.
  - by rewrite !decide_False.
Qed.

Lemma delete_loop_inv pair (index : Side → Ids) l : ∀ delta delta' self self',
  (∀ s, index_of self pair s ⊆ index s) →
  for_each (delete_data pair) l delta self = Ok delta' self' →
  ∀ s, levels_of self' pair s = foldl (remove_level index s) (levels_of self pair s) l ∧
       index_of self' pair s = foldl (remove_index s) (index_of self pair s) l.
Proof.
  induction l as [|d l IH]; intros delta delta' self self' Hi H s.
  { by injection H as _ <-. }
  rewrite for_each_cons in H.
  apply bind_Ok_inv in H as (delta1 & self1 & H1 & H).
  destruct (delete_data_applied _ _ _ _ _ _ H1) as (price & Hp & C).
  assert (∀ s', index_of self1 pair s' ⊆ index s') as Hi1.
  { intros s'. destruct (C s') as [_ I1]. rewrite I1. case_decide; subst; [|done].
    etrans; [apply delete_subseteq|done]. }
  destruct (IH _ _ _ _ Hi1 H s) as [L I]. destruct (C s) as [L1 I1].
  rewrite L, I, L1, I1. cbn [foldl]. unfold remove_level, remove_index.
  rewrite (lookup_weaken _ _ _ _ Hp (Hi (side_of d))).
  destruct (decide (s = side_of d)) as [->|Hne].
  - by rewrite !decide_True.
  - by rewrite !decide_False.
Qed.

Lemma deliver_book_inv pair forced timestamp delta self calls self' :
  deliver_book pair forced timestamp delta self = Ok calls self' → self' = self.
Proof. unfold deliver_book. destruct (l2_book self !! pair); [|done]. by intros [= _ ->]. Qed.

Lemma foldl_const {A B} (a : A) (l : list B) : foldl (λ x _, x) a l = a.
Proof. by induction l. Qed.

(** The book and index of [pair] after a selection on the action that
    returned: the entries of the message applied in order. *)
Lemma book_action_applied msg timestamp pair forced delta self calls self' :
  _book_action msg timestamp pair forced delta self = Ok calls self' →
  ∀ s, levels_of self' pair s =
       foldl (applied_level (msg_action msg) (index_of self pair) s)
         (levels_of self pair s) (msg_data msg) ∧
       index_of self' pair s =
       foldl (applied_index (msg_action msg) s) (index_of self pair s) (msg_data msg).
Proof.
  unfold _book_action, applied_level, applied_index. intros H s.
  destruct (String.eqb (msg_action msg) "partial").
  { apply bind_Ok_inv in H as (delta1 & self1 & H1 & H).
    apply deliver_book_inv in H as ->.
    exact (write_loop_inv _ pair (partial_data_applied pair) _ _ _ _ _ H1 s). }
  destruct (String.eqb (msg_action msg) "insert").
  { apply bind_Ok_inv in H as (delta1 & self1 & H1 & H).
    apply deliver_book_inv in H as ->.
    exact (write_loop_inv _ pair (insert_data_applied pair) _ _ _ _ _ H1 s). }
  destruct (String.eqb (msg_action msg) "update").
  { apply bind_Ok_inv in H as (delta1 & self1 & H1 & H).
    apply deliver_book_inv in H as ->.
    destruct (update_loop_inv pair (index_of self pair) _ _ _ _ _ (λ _, eq_refl) H1 s)
      as [L I].
    by rewrite foldl_const. }
  destruct (String.eqb (msg_action msg) "delete").
  { apply bind_Ok_inv in H as (delta1 & self1 & H1 & H).
    apply deliver_book_inv in H as ->.
    exact (delete_loop_inv pair (index_of self pair) _ _ _ _ _ (λ _, reflexivity _) H1 s). }
  injection H as _ <-. by rewrite !foldl_const.
Qed.

(** The same for the handler, for a message that is not discarded. *)
Lemma book_applied msg timestamp self data0 rest calls self' :
  msg_data msg = data0 :: rest →
  gate self (data_symbol data0) = true ∨ msg_action msg = "partial" →
  _book msg timestamp self = Ok calls self' →
  ∀ s, levels_of self' (data_symbol data0) s =
       foldl (applied_level (msg_action msg) (index_of self (data_symbol data0)) s)
         (levels_of self (data_symbol data0) s) (msg_data msg) ∧
       index_of self' (data_symbol data0) s =
       foldl (applied_index (msg_action msg) s) (index_of self (data_symbol data0) s)
         (msg_data msg).
Proof.
  intros Hd Hg H.
  destruct (gate self (data_symbol data0)) eqn:G.
  - rewrite (book_gate_open _ _ _ _ _ Hd G) in H. exact (book_action_applied _ _ _ _ _ _ _ _ H).
  - destruct Hg as [|Ha]; [done|].
    rewrite (book_gate_closed _ _ _ _ _ Hd G Ha) in H.
    exact (book_action_applied _ _ _ _ _ _ _ _ H).
Qed.

(** ** Messages that the handler can apply *)

Lemma book_action_returns msg timestamp pair forced delta self :
  ready self pair → applicable (msg_action msg) self pair (msg_data msg) →
  ∃ calls self', _book_action msg timestamp pair forced delta self = Ok calls self'.
Proof.
  unfold _book_action, applicable. intros Hr Ha.
  destruct (String.eqb (msg_action msg) "partial").
  { destruct (partial_loop pair (msg_data msg) self delta Hr Ha)
      as (self' & E & [(book & Hb & _) _] & _).
    erewrite bind_Ok by exact E. rewrite (deliver_book_found _ _ _ _ _ _ Hb). eauto. }
  destruct (String.eqb (msg_action msg) "insert").
  { destruct (write_loop (insert_data pair) pair) with (l := msg_data msg) (self := self)
      (delta := delta) as (self' & delta' & E & [(book & Hb & _) _] & _); [|done|done|].
    { intros self0 d delta0 price size Hr0 Hp Hz.
      destruct (insert_data_changed self0 pair d delta0 price size Hr0 Hp Hz)
        as (self1 & E1 & C). eauto. }
    erewrite bind_Ok by exact E. rewrite (deliver_book_found _ _ _ _ _ _ Hb). eauto. }
  destruct (String.eqb (msg_action msg) "update").
  { destruct (update_loop pair (index_of self pair) (msg_data msg) self delta Hr
                (λ _, eq_refl) Ha) as (self' & delta' & E & [(book & Hb & _) _] & _).
    erewrite bind_Ok by exact E. rewrite (deliver_book_found _ _ _ _ _ _ Hb). eauto. }
  destruct (String.eqb (msg_action msg) "delete").
  { destruct (delete_loop pair (msg_data msg) self delta Hr Ha)
      as (self' & delta' & E & [(book & Hb & _) _] & _).
    erewrite bind_Ok by exact E. rewrite (deliver_book_found _ _ _ _ _ _ Hb). eauto. }
  by eexists _, _.
Qed.

Lemma book_returns msg timestamp self data0 rest :
  msg_data msg = data0 :: rest →
  gate self (data_symbol data0) = true ∨ msg_action msg = "partial" →
  ready self (data_symbol data0) →
  applicable (msg_action msg) self (data_symbol data0) (msg_data msg) →
  ∃ calls self', _book msg timestamp self = Ok calls self'.
Proof.
  intros Hd Hg Hr Ha.
  destruct (gate self (data_symbol data0)) eqn:G.
  - rewrite (book_gate_open _ _ _ _ _ Hd G). by apply book_action_returns.
  - destruct Hg as [|Hp]; [done|].
    rewrite (book_gate_closed _ _ _ _ _ Hd G Hp). by apply book_action_returns.
Qed.

(** C9. [_book] takes the symbol from the first entry alone.  Whatever
    symbols the later entries name, the outcome is the one of the message
    whose entries all name the first entry's symbol; the gate, book and
    index of every other symbol are as before; a callback names the first
    entry's symbol.  When the message is not discarded, a handler that
    returns has applied every entry, in order, to the book and the index of
    the first entry's symbol; and it does return when that symbol has its
    book and index and the entries can be applied there. *)
Theorem book_symbol_is_first_entry (self : Bitmex) (action : string)
    (data0 : Data) (rest : list Data) (relabel : Data → string) (timestamp : Time) :
  let pair := data_symbol data0 in
  let msg := mkMsg action (data0 :: map (λ d, with_symbol (relabel d) d) rest) in
  _book msg timestamp self = _book (mkMsg action (data0 :: rest)) timestamp self ∧
  frame pair self (state_of (_book msg timestamp self)) ∧
  Forall (λ c, ∃ book forced delta,
            c = book_callback book L2_BOOK pair forced delta timestamp timestamp ∧
            l2_book (state_of (_book msg timestamp self)) !! pair = Some book)
         (calls_of (_book msg timestamp self)) ∧
  (gate self pair = true ∨ action = "partial" →
   (∀ calls self',
      _book msg timestamp self = Ok calls self' →
      ∀ s, levels_of self' pair s =
           foldl (applied_level action (index_of self pair) s) (levels_of self pair s)
             (data0 :: rest) ∧
           index_of self' pair s =
           foldl (applied_index action s) (index_of self pair s) (data0 :: rest)) ∧
   (ready self pair → applicable action self pair (data0 :: rest) →
    ∃ calls self', _book msg timestamp self = Ok calls self')).
Proof.
  intros pair msg.
  assert (_book msg timestamp self = _book (mkMsg action (data0 :: rest)) timestamp self) as E.
  { unfold _book, msg. simpl. unfold bind.
    destruct (partial_received_get (data_symbol data0) self) as [received self'|]; [|done].
    destruct received; simpl; [apply book_action_relabel|].
    destruct (String.eqb action "partial"); simpl; [|done].
    unfold partial_received_set. apply book_action_relabel. }
  split; [exact E|]. split; [|split].
  - by apply (book_frame msg timestamp data0
                (map (λ d, with_symbol (relabel d) d) rest)).
  - apply list.Forall_forall. intros c Hc.
    destruct (book_calls _ _ _ _ Hc) as (d & r & book & forced & delta & Hd & -> & Hb).
    unfold msg in Hd; simpl in Hd. simplify_eq. eauto.
  - intros Hg. rewrite E. split.
    + intros calls self' H.
      exact (book_applied (mkMsg action (data0 :: rest)) timestamp self data0 rest
               calls self' eq_refl Hg H).
    + intros Hr Ha.
      exact (book_returns (mkMsg action (data0 :: rest)) timestamp self data0 rest
               eq_refl Hg Hr Ha).
Qed.

(** An insert whose second entry names another symbol: both entries are
    written to the book of the first entry's symbol, and the symbol that
    the second entry names has no level. *)
Lemma book_symbol_is_first_entry_witness :
  let msg := mkMsg "insert" [bid_entry 2 (Some (dec 99)) (Some (dec 3));
                             with_symbol "ETHUSD" (bid_entry 3 (Some (dec 98)) (Some (dec 4)))] in
  ∃ calls self',
    _book msg (dec 1) after_partial = Ok calls self' ∧
    levels_of self' "XBTUSD" BID =
      <[dec 98 := dec 4]> (<[dec 99 := dec 3]> (levels_of after_partial "XBTUSD" BID)) ∧
    index_of self' "XBTUSD" BID =
      <[3 := dec 98]> (<[2 := dec 99]> (index_of after_partial "XBTUSD" BID)).
Proof.
  intros msg.
  destruct (book_symbol_is_first_entry after_partial "insert"
              (bid_entry 2 (Some (dec 99)) (Some (dec 3)))
              [bid_entry 3 (Some (dec 98)) (Some (dec 4))] (λ _, "ETHUSD") (dec 1))
    as (_ & _ & _ & H).
  destruct (H (or_introl eq_refl)) as [Happlied Hreturns].
  destruct Hreturns as (calls & self' & E).
  - exact after_partial_ready.
  - repeat constructor; eexists; reflexivity.
  - exists calls, self'. split; [exact E|]. exact (Happlied calls self' E BID).
Defined.
